(** * Vocoder modeling framework: training loop, checkpoints, validation

    A shallow embedding of [models/framework.py] and the properties of its
    training-loop control system: the loop driver, the checkpoint codec, the
    validation runner and the sample generator. *)

From Stdlib Require Import ZArith List String Ascii Bool Lia PrimFloat.
From Stdlib Require Import Permutation Sorted.
Import ListNotations.

Set Warnings "-register-all".

Local Open Scope string_scope.
Local Open Scope Z_scope.

(** ** Constants of the module *)

Definition CHECKPOINT_DIR : string := "checkpoints".
Definition TENSORBOARD_DIR : string := "logs".
Definition EVAL_FREQUENCY : Z := 5000.
Definition GENERATE_FREQUENCY : Z := 100000.
Definition GENERATE_NUM_SAMPLES : nat := 2.
Definition LOG_FREQUENCY : Z := 10.
Definition MAX_FIRST_ITERATION_DELAY : Z := 600.
Definition MAX_TRAINING_ITERATION_DELAY : Z := 60.

(** ** Tensors and state dictionaries *)

Inductive Device := CPU | CUDA.

(** The elements of a tensor, flattened: integer or floating point. *)
Inductive Storage :=
| IntData (v : list Z)
| FloatData (v : list float).

Record Tensor := mkTensor { device : Device; storage : Storage }.

(** [Tensor.cpu()] and [Tensor.cuda()]. *)
Definition tensor_cpu (t : Tensor) : Tensor := mkTensor CPU (storage t).
Definition tensor_cuda (t : Tensor) : Tensor := mkTensor CUDA (storage t).

(** [torch.any(torch.isnan(tensor))]. *)
Definition any_isnan (t : Tensor) : bool :=
  match storage t with
  | IntData _ => false
  | FloatData v => existsb is_nan v
  end.

(** Python values that are neither tensors, lists nor dicts. *)
Inductive pyval :=
| PyNone
| PyBool (b : bool)
| PyInt (z : Z)
| PyFloat (f : float)
| PyStr (s : string).

(** What [move_state_dict_to_device] walks: a dict keeps its insertion order. *)
Inductive item :=
| ITensor (t : Tensor)
| IDict (d : list (string * item))
| IList (l : list item)
| IOther (v : pyval).

Definition dict (V : Type) := list (string * V).

Fixpoint dict_get {V : Type} (key : string) (d : dict V) : option V :=
  match d with
  | [] => None
  | (k, v) :: rest => if String.eqb k key then Some v else dict_get key rest
  end.

Definition dict_keys {V : Type} (d : dict V) : list string := map fst d.

Fixpoint move_state_dict_to_device (it : item) (cpu : bool) : item :=
  match it with
  | ITensor t => ITensor (if cpu then tensor_cpu t else tensor_cuda t)
  | IDict d =>
      IDict (map (fun kv => let '(key, value) := kv in
                            (key, move_state_dict_to_device value cpu)) d)
  | IList l => IList (map (fun value => move_state_dict_to_device value cpu) l)
  | IOther v => IOther v
  end.

(** Structural induction that reaches inside lists and dicts. *)
Section ItemInd.
Variable P : item -> Prop.
Hypothesis Htensor : forall t, P (ITensor t).
Hypothesis Hdict : forall d, Forall (fun kv => P (snd kv)) d -> P (IDict d).
Hypothesis Hlist : forall l, Forall P l -> P (IList l).
Hypothesis Hother : forall v, P (IOther v).

Fixpoint item_nested_ind (it : item) : P it :=
  match it with
  | ITensor t => Htensor t
  | IDict d =>
      Hdict d
        ((fix go (d : list (string * item)) : Forall (fun kv => P (snd kv)) d :=
            match d with
            | [] => Forall_nil _
            | (k, v) :: rest => Forall_cons (k, v) (item_nested_ind v) (go rest)
            end) d)
  | IList l =>
      Hlist l
        ((fix go (l : list item) : Forall P l :=
            match l with
            | [] => Forall_nil _
            | v :: rest => Forall_cons v (item_nested_ind v) (go rest)
            end) l)
  | IOther v => Hother v
  end.
End ItemInd.

(** ** Exceptions and results *)

Inductive exn :=
| AssertionError
| AttributeError
| IndexError
| KeyError
| TypeError
| RuntimeError
| StopIteration
| FileNotFoundError.

Inductive result (A : Type) :=
| Ok (a : A)
| Raise (e : exn).
Arguments Ok {A} a.
Arguments Raise {A} e.

Definition rbind {A B : Type} (r : result A) (k : A -> result B) : result B :=
  match r with
  | Ok a => k a
  | Raise e => Raise e
  end.

Notation "x <-? r ; k" := (rbind r (fun x => k))
  (at level 61, r at next level, right associativity, only parsing).

(** [obj[key]] on a deserialized object, for a key that is a string: a
    dict looks it up, a tensor takes no string as an index, and lists and
    the other values are not subscriptable by it. *)
Definition getitem (obj : item) (key : string) : result item :=
  match obj with
  | IDict d => match dict_get key d with Some v => Ok v | None => Raise KeyError end
  | ITensor _ => Raise IndexError
  | _ => Raise TypeError
  end.

(** [d[key] = v]: an existing key keeps its place, a new one goes last. *)
Fixpoint dict_set {V : Type} (key : string) (v : V) (d : dict V) : dict V :=
  match d with
  | [] => [(key, v)]
  | (k, old) :: rest =>
      if String.eqb k key then (k, v) :: rest else (k, old) :: dict_set key v rest
  end.

(** ** Strings: decimal formatting, paths, ordering *)

Definition digit_char (d : Z) : ascii := ascii_of_N (48 + Z.to_N d).

(** Decimal digits of a non-negative number, least significant first. *)
Fixpoint digits_lsb (fuel : nat) (n : Z) : list Z :=
  match fuel with
  | O => []
  | S fuel' =>
      (n mod 10) :: (if n / 10 =? 0 then [] else digits_lsb fuel' (n / 10))
  end.

(** [str(n)] for [n >= 0], as characters. *)
Definition str_digits (n : Z) : list ascii :=
  rev (map digit_char (digits_lsb (S (Z.to_nat (Z.log2 n))) n)).

(** The format spec [08d]: sign-aware zero padding to width 8; a longer
    number is not cut. *)
Definition format_08d (n : Z) : string :=
  let sign := if n <? 0 then ["-"%char] else [] in
  let ds := str_digits (Z.abs n) in
  string_of_list_ascii
    (sign ++ repeat "0"%char (8 - List.length sign - List.length ds) ++ ds).

Definition ends_with (suffix s : string) : bool :=
  let n := String.length s in
  let m := String.length suffix in
  (m <=? n)%nat && String.eqb (substring (n - m) m s) suffix.

Definition starts_with_dot (s : string) : bool :=
  match s with
  | String c _ => Ascii.eqb c "."%char
  | EmptyString => false
  end.

(** A path as [os.path.join(dirname, basename)] builds it. *)
Record path := mkPath { dirname : string; basename : string }.

Definition os_path_join (dir name : string) : path := mkPath dir name.

Definition dir_prefix (dir : string) : string :=
  if String.eqb dir "" then ""
  else if ends_with "/" dir then dir
  else (dir ++ "/")%string.

Definition path_str (p : path) : string :=
  (dir_prefix (dirname p) ++ basename p)%string.

Fixpoint last_opt {A : Type} (l : list A) : option A :=
  match l with
  | [] => None
  | [x] => Some x
  | _ :: rest => last_opt rest
  end.

(** ** The file system: directories of files holding serialized objects *)

(** The file system is kept flat: a directory is known by the string the
    program names it with, and holds files only. What the code does is
    followed as long as a directory is always named by the same string, names
    no file, and its files are named by plain names; within these bounds a
    directory can always be created and a file always written, and the
    failures of a real device (a name taken by a file, rights, space) are not
    modelled. *)
Definition FileSystem := dict (dict item).

(** [os.makedirs(dir, exist_ok=True)]. *)
Definition makedirs (dir : string) (fs : FileSystem) : FileSystem :=
  match dict_get dir fs with
  | Some _ => fs
  | None => dict_set dir [] fs
  end.

(** [torch.save(obj, path)]: an existing file is overwritten. *)
Definition torch_save (obj : item) (p : path) (fs : FileSystem) : result FileSystem :=
  match dict_get (dirname p) fs with
  | Some files => Ok (dict_set (dirname p) (dict_set (basename p) obj files) fs)
  | None => Raise FileNotFoundError
  end.

(** [torch.load(path)]. *)
Definition torch_load (p : path) (fs : FileSystem) : result item :=
  match dict_get (dirname p) fs with
  | Some files =>
      match dict_get (basename p) files with
      | Some obj => Ok obj
      | None => Raise FileNotFoundError
      end
  | None => Raise FileNotFoundError
  end.

(** The pattern [*.ckpt] on a file name: the star does not match a leading dot. *)
Definition fnmatch_ckpt (name : string) : bool :=
  ends_with ".ckpt" name && negb (starts_with_dot name).

(** [glob.has_magic]: the name holds one of the characters [*], [?] and [[],
    which make [glob] read it as a pattern. *)
Definition has_magic (s : string) : bool :=
  existsb (fun c => Ascii.eqb c "*" || Ascii.eqb c "?" || Ascii.eqb c "[")
    (list_ascii_of_string s).

(** A name a file of a directory can have: not empty, without a slash or a
    NUL character. *)
Definition plain_name (name : string) : bool :=
  negb (String.eqb name "")
  && forallb (fun c => negb (Ascii.eqb c "/" || Ascii.eqb c Ascii.zero))
       (list_ascii_of_string name).

(** [glob.glob(os.path.join(dir, "*.ckpt"))], in the directory's listing order;
    an absent directory matches nothing. The directory part is taken as it is
    written, which is what [glob] does with a directory name without magic
    characters ([has_magic]); one with such characters is expanded as a
    pattern by [glob], and that is left out here. *)
Definition glob_ckpt (fs : FileSystem) (dir : string) : list path :=
  match dict_get dir fs with
  | Some files => map (os_path_join dir) (filter fnmatch_ckpt (dict_keys files))
  | None => []
  end.

(** [sorted]: a stable ascending sort, by insertion. [sort_with] takes the
    order as a test; [sorted_by] is [sorted] on values compared as the
    strings [key] gives, character by character. *)
Section Sorting.
Context {A : Type} (le : A -> A -> bool).

Fixpoint insert_with (x : A) (l : list A) : list A :=
  match l with
  | [] => [x]
  | y :: rest => if le x y then x :: l else y :: insert_with x rest
  end.

Definition sort_with (l : list A) : list A := fold_right insert_with [] l.
End Sorting.

Definition sorted_by {A : Type} (key : A -> string) : list A -> list A :=
  sort_with (fun x y => String.leb (key x) (key y)).

(** ** The vocoder *)

(** What a concrete model owns: its named parameters and buffers, and its
    optimizers with their optional schedulers, each identified with the state
    its [state_dict()] returns. The optimizers and the schedulers are objects
    of classes the framework does not know: [optimizer_load i] and
    [scheduler_load i] are the [load_state_dict] methods of the optimizer and
    of the scheduler at position [i], which take the state the object holds
    and the object they are given to the state the object holds afterwards,
    or to the exception the class raises. *)
Record Net := mkNet {
  parameters : dict item;
  optimizers : list (dict item * option (dict item));
  optimizer_load : nat -> dict item -> item -> result (dict item);
  scheduler_load : nat -> dict item -> item -> result (dict item);
}.

(** [Vocoder]: the registered zero-dimensional int32 buffer holding the global
    step, the device [Module.to] put it on, the train/eval mode, and the
    subclass's part. *)
Record Vocoder := mkVocoder {
  global_step_buffer : Z;
  buffer_device : Device;
  training : bool;
  net : Net;
}.

Definition INT32_MIN : Z := - 2 ^ 31.
Definition INT32_MAX : Z := 2 ^ 31 - 1.

(** [Vocoder.__init__]: the buffer starts as [torch.zeros((), dtype=torch.int32)]. *)
Definition new_vocoder (n : Net) : Vocoder := mkVocoder 0 CPU true n.

(** The [global_step] property. *)
Definition global_step (m : Vocoder) : Z := global_step_buffer m.

(** The [global_step] setter, [global_step_buffer.fill_(value)]: a value that
    does not fit the int32 buffer is refused by [fill_] with a RuntimeError. *)
Definition set_global_step (value : Z) (m : Vocoder) : result Vocoder :=
  if (INT32_MIN <=? value) && (value <=? INT32_MAX)
  then Ok (mkVocoder value (buffer_device m) (training m) (net m))
  else Raise RuntimeError.

Definition set_training (mode : bool) (m : Vocoder) : Vocoder :=
  mkVocoder (global_step_buffer m) (buffer_device m) mode (net m).

Definition set_net (n : Net) (m : Vocoder) : Vocoder :=
  mkVocoder (global_step_buffer m) (buffer_device m) (training m) n.

(** [model.eval()] and [model.train()]. *)
Definition eval (m : Vocoder) : Vocoder := set_training false m.
Definition train (m : Vocoder) : Vocoder := set_training true m.

(** [model.to("cuda")]: parameters and buffers move, optimizer state does not. *)
Definition to_cuda (m : Vocoder) : Vocoder :=
  mkVocoder (global_step_buffer m) CUDA (training m)
    (mkNet (map (fun kv => (fst kv, move_state_dict_to_device (snd kv) false))
              (parameters (net m)))
           (optimizers (net m)) (optimizer_load (net m)) (scheduler_load (net m))).

Definition get_optimizers (m : Vocoder) : list (dict item * option (dict item)) :=
  optimizers (net m).

Definition GLOBAL_STEP_BUFFER : string := "global_step_buffer".

(** [model.state_dict()]: the registered buffer and the subclass's entries. *)
Definition state_dict (m : Vocoder) : item :=
  IDict ((GLOBAL_STEP_BUFFER,
          ITensor (mkTensor (buffer_device m) (IntData [global_step_buffer m])))
           :: parameters (net m)).

(** The number of elements of a tensor. *)
Definition numel (t : Tensor) : nat :=
  match storage t with
  | IntData v => List.length v
  | FloatData v => List.length v
  end.

(** [param.copy_(input_param)]: the live tensor takes the elements it is
    given and stays on its device. The model keeps no element type beyond
    integer or floating point, and the elements are taken as they are. *)
Definition copy_ (param input_param : Tensor) : Tensor :=
  mkTensor (device param) (storage input_param).

(** The value an integer takes in an int32 buffer. *)
Definition wrap_int32 (z : Z) : Z := (z - INT32_MIN) mod 2 ^ 32 + INT32_MIN.

(** The copy of the given values into the live entries [own], in the order
    of [own]: a key that is missing from [given], a value that is not a
    tensor and a tensor of another size are errors of [load_state_dict]. *)
Fixpoint load_entries (own given : dict item) : result (dict item) :=
  match own with
  | [] => Ok []
  | (key, value) :: rest =>
      match value, dict_get key given with
      | ITensor param, Some (ITensor input_param) =>
          if (numel param =? numel input_param)%nat then
            rest' <-? load_entries rest given;
            Ok ((key, ITensor (copy_ param input_param)) :: rest')
          else Raise RuntimeError
      | _, _ => Raise RuntimeError
      end
  end.

(** [model.load_state_dict(d)], which is strict: the keys of [d] must be
    those of [model.state_dict()], none missing and none unexpected, and each
    tensor must have the size of the live one; the live tensors then take the
    values given, each on the device it is on. The step buffer is a scalar
    int32; one given as anything but a single integer is refused here (torch
    would convert a floating-point scalar). *)
Definition load_state_dict (m : Vocoder) (d : item) : result Vocoder :=
  match d with
  | IDict given =>
      let expected := GLOBAL_STEP_BUFFER :: dict_keys (parameters (net m)) in
      if forallb (fun key => existsb (String.eqb key) expected) (dict_keys given) then
        match dict_get GLOBAL_STEP_BUFFER given with
        | Some (ITensor (mkTensor _ (IntData [z]))) =>
            params <-? load_entries (parameters (net m)) given;
            Ok (mkVocoder (wrap_int32 z) (buffer_device m) (training m)
                  (mkNet params (optimizers (net m))
                     (optimizer_load (net m)) (scheduler_load (net m))))
        | _ => Raise RuntimeError
        end
      else Raise RuntimeError
  | _ => Raise TypeError
  end.

(** The methods a model must implement. They read the whole vocoder;
    [train_step] returns, besides the loss and the losses to log, the new
    state of what the subclass owns: the global step is the loop's to write. *)
Record VocoderClass := mkVocoderClass {
  is_done : Vocoder -> bool;
  train_step : Vocoder -> Tensor -> Tensor -> float * dict float * Net;
  validation_losses : Vocoder -> Tensor -> Tensor -> dict float;
  generate : Vocoder -> Tensor -> Tensor;
}.

(** What a run is given besides its arguments: [torch.cuda.is_available()],
    [torch.mean(torch.stack(values))] on scalar losses, and the model class. *)
Record Env := mkEnv {
  cuda_available : bool;
  torch_mean : list float -> float;
  vocoder : VocoderClass;
}.

(** ** The checkpoint codec *)

Definition checkpoint_name (step : Z) : string := (format_08d step ++ ".ckpt")%string.

(** The record [save_model] builds, before it is moved to the CPU. *)
Definition checkpoint_record (m : Vocoder) : item :=
  let optimizers := map (fun os => IDict (fst os)) (get_optimizers m) in
  let schedulers :=
    map (fun os => match snd os with
                   | Some sched => IDict sched
                   | None => IOther PyNone
                   end) (get_optimizers m) in
  IDict [("model", state_dict m);
         ("optimizers", IList optimizers);
         ("lr_schedulers", IList schedulers)].

Definition save_model (m : Vocoder) (checkpoint_dir : string) (fs : FileSystem)
  : result FileSystem :=
  let checkpoint := checkpoint_record m in
  let checkpoint := move_state_dict_to_device checkpoint true in
  let fs := makedirs checkpoint_dir fs in
  torch_save checkpoint
    (os_path_join checkpoint_dir (checkpoint_name (global_step m))) fs.

(** The sanity check of [load_model_from_checkpoint]: a NaN in a tensor of
    the model sub-state. *)
Definition found_nan (entries : dict item) : bool :=
  existsb (fun kv => match snd kv with
                     | ITensor t => any_isnan t
                     | _ => false
                     end) entries.

(** [obj.items()]: only a dict has the method. *)
Definition as_dict (obj : item) : result (dict item) :=
  match obj with
  | IDict d => Ok d
  | _ => Raise AttributeError
  end.

(** The one-character strings of a string. *)
Definition characters (s : string) : list item :=
  map (fun c => IOther (PyStr (String c EmptyString))) (list_ascii_of_string s).

(** The sequences [zip] walks: the elements of a list, the keys of a dict,
    the characters of a string; a record written by [save_model] holds
    lists. The other values cannot be iterated over; nor can a tensor here,
    where it has no shape and is taken as a scalar. *)
Definition as_list (obj : item) : result (list item) :=
  match obj with
  | IList l => Ok l
  | IDict d => Ok (map (fun key => IOther (PyStr key)) (dict_keys d))
  | IOther (PyStr s) => Ok (characters s)
  | _ => Raise TypeError
  end.

(** One turn of the loop over [zip]: [opt.load_state_dict(opt_dict)], then
    [sched.load_state_dict(sched_dict)] if the pair has a scheduler. *)
Definition restore_pair (n : Net) (i : nat) (own : dict item * option (dict item))
    (opt_dict sched_dict : item) : result (dict item * option (dict item)) :=
  opt' <-? optimizer_load n i (fst own) opt_dict;
  sched' <-? match snd own with
             | Some sched => s <-? scheduler_load n i sched sched_dict; Ok (Some s)
             | None => Ok None
             end;
  Ok (opt', sched').

(** The loop over [zip(model.get_optimizers(), optimizers, lr_schedulers)],
    from position [i] on: [zip] stops at the shortest of the three. *)
Fixpoint restore_optimizers (n : Net) (i : nat)
    (live : list (dict item * option (dict item)))
    (opt_dicts sched_dicts : list item)
  : result (list (dict item * option (dict item))) :=
  match live, opt_dicts, sched_dicts with
  | own :: live', opt_dict :: opt_dicts', sched_dict :: sched_dicts' =>
      own' <-? restore_pair n i own opt_dict sched_dict;
      rest <-? restore_optimizers n (S i) live' opt_dicts' sched_dicts';
      Ok (own' :: rest)
  | _, _, _ => Ok live
  end.

Definition load_model_from_checkpoint (cuda : bool) (m : Vocoder)
    (checkpoint_path : path) (fs : FileSystem) : result Vocoder :=
  checkpoint <-? torch_load checkpoint_path fs;
  let checkpoint :=
    if cuda then move_state_dict_to_device checkpoint false else checkpoint in
  model_state <-? getitem checkpoint "model";
  entries <-? as_dict model_state;
  if found_nan entries then Raise AssertionError
  else
    m <-? load_state_dict m model_state;
    opts <-? getitem checkpoint "optimizers";
    scheds <-? getitem checkpoint "lr_schedulers";
    opt_dicts <-? as_list opts;
    sched_dicts <-? as_list scheds;
    restored <-? restore_optimizers (net m) 0 (get_optimizers m) opt_dicts sched_dicts;
    Ok (set_net (mkNet (parameters (net m)) restored
                   (optimizer_load (net m)) (scheduler_load (net m))) m).

Definition last_checkpoint_path (fs : FileSystem) (model_dir : string) : option path :=
  let checkpoint_dir := path_str (os_path_join model_dir CHECKPOINT_DIR) in
  let checkpoint_paths := sorted_by path_str (glob_ckpt fs checkpoint_dir) in
  last_opt checkpoint_paths.

(** ** What a run does: console lines, alarms, model calls, metric records *)

(** The lines the module prints; wall-clock figures are left out. *)
Inductive console :=
| MovedModelToGPU
| NoGPUDetected
| CompletedEpoch
| IterationLine (step : Z) (print_loss : float)
| AverageDataLoadingTime
| DetectedNaNLoss
| CompletedTraining
| ComputingValidationLoss
| NoValidationData
| ValidationLine (key : string) (mean_loss : float)
| IterationTookTooLong.

Inductive event :=
| Print (line : console)
| SignalAlarm (seconds : Z)
| TrainStep (spectrograms waveforms : Tensor)
| AddScalar (tag : string) (value : float) (step : Z)
| AddAudio (tag : string) (wav : Tensor) (step : Z)
| TorchSave (p : path).

Definition Batch : Type := Tensor * Tensor.

(** The variables of [train_loop], the file system, and the events so far
    (newest first). [train_iterator] is what is left of the current pass of
    [repeat_training_data_forever]; [started] says [total_start_time] is set. *)
Record State := mkState {
  model : Vocoder;
  fs : FileSystem;
  train_iterator : list Batch;
  started : bool;
  num_iterations : Z;
  trace : list event;
}.

(** How a process ends other than by returning. *)
Inductive exit :=
| HardExit (status : Z)
| Uncaught (e : exn).

Inductive step_result (A : Type) :=
| Next (a : A) (s : State)
| Halt (x : exit) (s : State).
Arguments Next {A} a s.
Arguments Halt {A} x s.

Definition M (A : Type) : Type := State -> step_result A.

Definition ret {A : Type} (a : A) : M A := fun s => Next a s.

Definition bind {A B : Type} (c : M A) (k : A -> M B) : M B :=
  fun s => match c s with
           | Next a s' => k a s'
           | Halt x s' => Halt x s'
           end.

Notation "x <- c ;; k" := (bind c (fun x => k))
  (at level 61, c at next level, right associativity).
Notation "c ;; k" := (bind c (fun _ => k))
  (at level 61, right associativity).

Definition emit (e : event) : M unit :=
  fun s => Next tt (mkState (model s) (fs s) (train_iterator s) (started s)
                      (num_iterations s) (e :: trace s)).

Definition get_model : M Vocoder := fun s => Next (model s) s.

Definition put_model (m : Vocoder) : M unit :=
  fun s => Next tt (mkState m (fs s) (train_iterator s) (started s)
                      (num_iterations s) (trace s)).

Definition put_fs (f : FileSystem) : M unit :=
  fun s => Next tt (mkState (model s) f (train_iterator s) (started s)
                      (num_iterations s) (trace s)).

Definition put_train_iterator (it : list Batch) : M unit :=
  fun s => Next tt (mkState (model s) (fs s) it (started s)
                      (num_iterations s) (trace s)).

Definition raise {A : Type} (e : exn) : M A := fun s => Halt (Uncaught e) s.

Definition lift {A : Type} (r : result A) : M A :=
  match r with
  | Ok a => ret a
  | Raise e => raise e
  end.

Definition when (b : bool) (c : M unit) : M unit := if b then c else ret tt.

Fixpoint for_each {A : Type} (l : list A) (body : A -> M unit) : M unit :=
  match l with
  | [] => ret tt
  | x :: rest => body x ;; for_each rest body
  end.

(** Modelled from the spec: [hard_exit] of [langtech.tts.vocoders.utils], which
    is not among the sources; it terminates the whole process immediately with
    the given status. *)
Definition hard_exit {A : Type} (status : Z) : M A := fun s => Halt (HardExit status) s.

(** The handler of SIGALRM. *)
Definition training_iteration_took_too_long {A : Type} : M A :=
  emit (Print IterationTookTooLong) ;; hard_exit 1.

(** [next(train_iterator)] on the generator [repeat_training_data_forever]:
    the pass in progress yields its next batch; when it is exhausted the
    generator prints and starts a new pass. Over an empty training set it
    prints and restarts without ever yielding, so [next] does not return and
    the alarm armed before it goes off. *)
Definition next_train_batch (train_set : list Batch) : M Batch :=
  fun s =>
    match train_iterator s with
    | b :: rest => (put_train_iterator rest ;; ret b) s
    | [] =>
        (emit (Print CompletedEpoch) ;;
         match train_set with
         | b :: rest => put_train_iterator rest ;; ret b
         | [] => training_iteration_took_too_long
         end) s
    end.

Definition batch_cuda (b : Batch) : Batch := (tensor_cuda (fst b), tensor_cuda (snd b)).

Definition on_device (env : Env) (b : Batch) : Batch :=
  if cuda_available env then batch_cuda b else b.

(** ** The validation runner *)

(** [[batch_losses[key] for batch_losses in losses]]. *)
Fixpoint key_losses_of (key : string) (losses : list (dict float)) : result (list float) :=
  match losses with
  | [] => Ok []
  | batch_losses :: rest =>
      match dict_get key batch_losses with
      | Some v => tl <-? key_losses_of key rest; Ok (v :: tl)
      | None => Raise KeyError
      end
  end.

Definition compute_validation_metrics (env : Env) (dataloader : list Batch) : M unit :=
  emit (Print ComputingValidationLoss) ;;
  m <- get_model ;;
  let losses :=
    map (fun b => let b := on_device env b in
                  validation_losses (vocoder env) m (fst b) (snd b)) dataloader in
  match losses with
  | [] => emit (Print NoValidationData)
  | first :: _ =>
      for_each (sorted_by (fun k => k) (dict_keys first))
        (fun key =>
           key_losses <- lift (key_losses_of key losses) ;;
           let mean_loss := torch_mean env key_losses in
           emit (Print (ValidationLine key mean_loss)) ;;
           emit (AddScalar ("valid/" ++ key)%string mean_loss (global_step m)))
  end.

(** ** The sample generator *)

(** [[next(data_iter) for _ in range(n_samples)]]. *)
Fixpoint draw (n_samples : nat) (data_iter : list Batch) : result (list Batch) :=
  match n_samples with
  | O => Ok []
  | S n =>
      match data_iter with
      | b :: rest => tl <-? draw n rest; Ok (b :: tl)
      | [] => Raise StopIteration
      end
  end.

Definition str_nat (n : nat) : string :=
  string_of_list_ascii (str_digits (Z.of_nat n)).

Definition real_tag (idx : nat) : string := ("audio/" ++ str_nat idx ++ "_real")%string.
Definition synthesized_tag (idx : nat) : string :=
  ("audio/" ++ str_nat idx ++ "_synthesized")%string.

(** The loop over [enumerate(wavs)], from index [idx] on: [samples] pairs each
    generated waveform with the batch it came from. *)
Fixpoint write_samples (m : Vocoder) (idx : nat) (samples : list (Batch * Tensor)) : M unit :=
  match samples with
  | [] => ret tt
  | (b, wav) :: rest =>
      when (global_step m =? 0)
        (emit (AddAudio (real_tag idx) (snd b) (global_step m))) ;;
      emit (AddAudio (synthesized_tag idx) wav (global_step m)) ;;
      write_samples m (S idx) rest
  end.

Definition generate_tensorboard_samples (env : Env) (dataloader : list Batch)
    (n_samples : nat) : M unit :=
  data <- lift (draw n_samples dataloader) ;;
  m <- get_model ;;
  let wavs := map (fun b => generate (vocoder env) m (fst b)) data in
  write_samples m 0 (combine data wavs).

(** ** The training loop *)

(** [save_model] as the loop calls it, with the write recorded. *)
Definition do_save_model (checkpoint_dir : string) : M unit :=
  m <- get_model ;;
  fun s =>
    match save_model m checkpoint_dir (fs s) with
    | Ok fs' =>
        (put_fs fs' ;;
         emit (TorchSave (os_path_join checkpoint_dir
                            (checkpoint_name (global_step m))))) s
    | Raise e => raise e s
    end.

Definition set_started : M unit :=
  fun s => Next tt (mkState (model s) (fs s) (train_iterator s) true
                      (num_iterations s) (trace s)).

Definition incr_num_iterations : M unit :=
  fun s => Next tt (mkState (model s) (fs s) (train_iterator s) (started s)
                      (num_iterations s + 1) (trace s)).

Definition is_started : M bool := fun s => Next (started s) s.

(** One turn of the body of [while not model.is_done()]. *)
Definition iteration (env : Env) (checkpoint_dir : string)
    (train_set valid_set : list Batch) : M unit :=
  running <- is_started ;;
  emit (SignalAlarm (if running then MAX_TRAINING_ITERATION_DELAY
                     else MAX_FIRST_ITERATION_DELAY)) ;;
  b <- next_train_batch train_set ;;
  let b := on_device env b in
  m <- get_model ;;
  emit (TrainStep (fst b) (snd b)) ;;
  let '(loss, tb_logs, net') := train_step (vocoder env) m (fst b) (snd b) in
  put_model (set_net net' m) ;;
  incr_num_iterations ;;
  m <- get_model ;;
  m <- lift (set_global_step (global_step m + 1) m) ;;
  put_model m ;;
  set_started ;;
  let print_loss := loss in
  emit (Print (IterationLine (global_step m) print_loss)) ;;
  when (global_step m mod 50 =? 0) (emit (Print AverageDataLoadingTime)) ;;
  emit (SignalAlarm 0) ;;
  when (global_step m mod LOG_FREQUENCY =? 0)
    (emit (AddScalar "train/loss" print_loss (global_step m)) ;;
     for_each tb_logs
       (fun kv => emit (AddScalar ("train/" ++ fst kv)%string (snd kv) (global_step m)))) ;;
  when (is_nan print_loss) (emit (Print DetectedNaNLoss) ;; hard_exit 1) ;;
  when (global_step m mod EVAL_FREQUENCY =? 0)
    (put_model (eval m) ;;
     compute_validation_metrics env valid_set ;;
     m <- get_model ;;
     put_model (train m) ;;
     do_save_model checkpoint_dir) ;;
  when (global_step m mod GENERATE_FREQUENCY =? 0)
    (generate_tensorboard_samples env valid_set GENERATE_NUM_SAMPLES).

(** How a run ends. *)
Inductive termination :=
| Returned
| Exited (x : exit).

(** What follows the loop: the last line and the final save. *)
Definition finish (checkpoint_dir : string) : M unit :=
  emit (Print CompletedTraining) ;; do_save_model checkpoint_dir.

(** The [while] loop and what follows it; [fuel] bounds the number of times
    the loop condition is evaluated. *)
Fixpoint run_loop (env : Env) (checkpoint_dir : string)
    (train_set valid_set : list Batch) (fuel : nat) (s : State)
  : option (termination * State) :=
  match fuel with
  | O => None
  | S fuel' =>
      if is_done (vocoder env) (model s) then
        match finish checkpoint_dir s with
        | Next _ s' => Some (Returned, s')
        | Halt x s' => Some (Exited x, s')
        end
      else
        match iteration env checkpoint_dir train_set valid_set s with
        | Next _ s' => run_loop env checkpoint_dir train_set valid_set fuel' s'
        | Halt x s' => Some (Exited x, s')
        end
  end.

(** The state in which the loop is entered. *)
Definition initial_state (env : Env) (m : Vocoder) (train_set : list Batch)
    (fs0 : FileSystem) : State :=
  mkState (if cuda_available env then to_cuda m else m) fs0 train_set false 0
    [Print (if cuda_available env then MovedModelToGPU else NoGPUDetected)].

Definition train_loop (env : Env) (m : Vocoder) (checkpoint_dir : string)
    (train_set valid_set : list Batch) (fs0 : FileSystem) (fuel : nat)
  : option (termination * State) :=
  run_loop env checkpoint_dir train_set valid_set fuel
    (initial_state env m train_set fs0).

(** ** Reading a trace *)

(** The events of a run in the order they happened. *)
Definition history (s : State) : list event := rev (trace s).

Definition is_train_step (e : event) : bool :=
  match e with TrainStep _ _ => true | _ => false end.

Definition train_step_calls (tr : list event) : nat :=
  List.length (filter is_train_step tr).

(** The steps announced by the lines [Iteration <step>: <loss>]. *)
Definition iteration_steps (tr : list event) : list Z :=
  flat_map (fun e => match e with
                     | Print (IterationLine step _) => [step]
                     | _ => []
                     end) tr.

(** The paths given to [torch.save]. *)
Definition saved_paths (tr : list event) : list path :=
  flat_map (fun e => match e with TorchSave p => [p] | _ => [] end) tr.

(** The batches given to [train_step]. *)
Definition fed_batches (tr : list event) : list Batch :=
  flat_map (fun e => match e with
                     | TrainStep spectrograms waveforms => [(spectrograms, waveforms)]
                     | _ => []
                     end) tr.

Definition is_metric (e : event) : bool :=
  match e with AddScalar _ _ _ => true | AddAudio _ _ _ => true | _ => false end.

Definition metrics (tr : list event) : list event := filter is_metric tr.

Definition is_audio (e : event) : bool :=
  match e with AddAudio _ _ _ => true | _ => false end.

Definition is_lap (e : event) : bool :=
  match e with Print CompletedEpoch => true | _ => false end.

(** How many times the training stream restarted. *)
Definition laps (tr : list event) : nat := List.length (filter is_lap tr).

(** ** Auxiliary definitions for the statements *)



(** The path [save_model] writes for a step. *)
Definition checkpoint_path (checkpoint_dir : string) (step : Z) : path :=
  os_path_join checkpoint_dir (checkpoint_name step).

(** [save_model] called for each model in turn. *)
Fixpoint save_models (models : list Vocoder) (checkpoint_dir : string)
    (fs : FileSystem) : result FileSystem :=
  match models with
  | [] => Ok fs
  | m :: rest =>
      fs' <-? save_model m checkpoint_dir fs;
      save_models rest checkpoint_dir fs'
  end.

(** *** Checkpoint names and records *)


(** The files of a directory, none when it is absent. *)
Definition listing (fs : FileSystem) (dir : string) : dict item :=
  match dict_get dir fs with
  | Some files => files
  | None => []
  end.

(** What [torch.load] followed by the optional move to the accelerator makes
    of an object that [save_model] moved to the CPU. *)
Definition relocate (cuda : bool) (it : item) : item :=
  let saved := move_state_dict_to_device it true in
  if cuda then move_state_dict_to_device saved false else saved.

(** The same on the entries of a state dictionary. *)
Definition relocate_dict (cuda : bool) (d : dict item) : dict item :=
  map (fun kv => (fst kv, relocate cuda (snd kv))) d.

(** A state dictionary with its tensors on the host. *)
Definition host (d : dict item) : dict item :=
  map (fun kv => (fst kv, move_state_dict_to_device (snd kv) true)) d.


(** What a record written by [save_model] gives, once read back, for the
    pair of an optimizer and its scheduler: the state of the optimizer, and
    that of the scheduler or [None]. *)
Definition saved_optimizer (cuda : bool) (given : dict item * option (dict item)) : item :=
  IDict (relocate_dict cuda (fst given)).

Definition saved_scheduler (cuda : bool) (given : dict item * option (dict item)) : item :=
  match snd given with
  | Some sched => IDict (relocate_dict cuda sched)
  | None => IOther PyNone
  end.

(** The states a module can be in: the step fits the int32 buffer, and the
    parameters have distinct names, none of them the name of the buffer. *)
Definition module_state (m : Vocoder) : Prop :=
  INT32_MIN <= global_step m <= INT32_MAX
  /\ dict_get GLOBAL_STEP_BUFFER (parameters (net m)) = None
  /\ NoDup (dict_keys (parameters (net m))).

(** The parameters of two entities of one class: the same names in the same
    order, over tensors of the same size. *)
Definition same_parameters (live saved : dict item) : Prop :=
  Forall2 (fun a b => fst a = fst b
                      /\ match snd a, snd b with
                         | ITensor p, ITensor q => numel p = numel q
                         | _, _ => False
                         end) live saved.

(** The classes of the optimizers and schedulers of [live] accept what the
    record of [saved] holds for them, at every position both have. *)
Definition accepted (cuda : bool) (live saved : Vocoder) : Prop :=
  forall i own given,
    nth_error (get_optimizers live) i = Some own ->
    nth_error (get_optimizers saved) i = Some given ->
    exists own',
      restore_pair (net live) i own (saved_optimizer cuda given) (saved_scheduler cuda given)
      = Ok own'.


(** Nothing but the directory [dir] is in the file system. *)
Definition only_directory (fs : FileSystem) (dir : string) : Prop :=
  forall d, In d (dict_keys fs) -> d = dir.

(** *** The body of the loop, in phases *)

(** [new], newest first, added to the events of [s]. *)
Definition push (new : list event) (s : State) : State :=
  mkState (model s) (fs s) (train_iterator s) (started s) (num_iterations s)
    (new ++ trace s).

(** What [next] on the generator yields from what is left of the pass:
    the batch, the rest, and whether a new pass had to start; nothing over
    an empty training set. *)
Definition draw_batch (train_set it : list Batch) : option (Batch * list Batch * bool) :=
  match it with
  | b :: rest => Some (b, rest, false)
  | [] =>
      match train_set with
      | b :: rest => Some (b, rest, true)
      | [] => None
      end
  end.

Definition deadline (s : State) : Z :=
  if started s then MAX_TRAINING_ITERATION_DELAY else MAX_FIRST_ITERATION_DELAY.

(** The events of an iteration up to the call of [train_step]. *)
Definition head_events (s : State) (b : Batch) (lapped : bool) : list event :=
  TrainStep (fst b) (snd b)
    :: (if lapped then [Print CompletedEpoch] else []) ++ [SignalAlarm (deadline s)].

(** The events from the iteration line to the scalars of [LOG_FREQUENCY]. *)
Definition report_events (loss : float) (tb_logs : dict float) (step : Z) : list event :=
  (if step mod LOG_FREQUENCY =? 0
   then rev (map (fun kv => AddScalar ("train/" ++ fst kv)%string (snd kv) step) tb_logs)
          ++ [AddScalar "train/loss" loss step]
   else [])
    ++ [SignalAlarm 0]
    ++ (if step mod 50 =? 0 then [Print AverageDataLoadingTime] else [])
    ++ [Print (IterationLine step loss)].

(** The two periodic phases that end the body. *)
Definition periodic (env : Env) (checkpoint_dir : string) (valid_set : list Batch)
    (m : Vocoder) : M unit :=
  when (global_step m mod EVAL_FREQUENCY =? 0)
    (put_model (eval m) ;;
     compute_validation_metrics env valid_set ;;
     m <- get_model ;;
     put_model (train m) ;;
     do_save_model checkpoint_dir) ;;
  when (global_step m mod GENERATE_FREQUENCY =? 0)
    (generate_tensorboard_samples env valid_set GENERATE_NUM_SAMPLES).

(** The body from the iteration line on, once the step counter holds [m]'s step. *)
Definition after_step (env : Env) (checkpoint_dir : string) (valid_set : list Batch)
    (loss : float) (tb_logs : dict float) (m : Vocoder) : M unit :=
  fun s =>
    let s1 := push (report_events loss tb_logs (global_step m)) s in
    if is_nan loss then Halt (HardExit 1) (push [Print DetectedNaNLoss] s1)
    else periodic env checkpoint_dir valid_set m s1.

(** The body applied [n] times, without the loop test. *)
Fixpoint iterate (env : Env) (checkpoint_dir : string) (train_set valid_set : list Batch)
    (n : nat) : M unit :=
  match n with
  | O => ret tt
  | S n' =>
      iteration env checkpoint_dir train_set valid_set ;;
      iterate env checkpoint_dir train_set valid_set n'
  end.

(** An audio record tagged as the ground truth. *)
Definition is_ground_truth (e : event) : bool :=
  match e with
  | AddAudio tag _ _ => ends_with "_real" tag
  | _ => false
  end.

(** What validation and sample generation at step [g] may add to the
    events: validation lines and scalars of step [g], and audio records of
    step [g], the ground truth only at step 0. *)
Definition periodic_event (g : Z) (e : event) : Prop :=
  match e with
  | Print ComputingValidationLoss => True
  | Print NoValidationData => True
  | Print (ValidationLine _ _) => True
  | AddScalar _ _ step => step = g
  | AddAudio tag _ step => step = g /\ (g <> 0 -> ends_with "_real" tag = false)
  | _ => False
  end.

(** A computation that leaves the state alone but for the events it adds,
    each satisfying [P], when run on the model [m]; it may raise. *)
Definition quiet (m : Vocoder) (P : event -> Prop) {A : Type} (c : M A) : Prop :=
  forall s, model s = m ->
    exists new, Forall P new
                /\ ((exists a, c s = Next a (push new s))
                    \/ (exists e, c s = Halt (Uncaught e) (push new s))).

(** Events that none of the readers of a trace counts. *)
Definition silent (e : event) : Prop :=
  match e with
  | Print CompletedEpoch => False
  | Print (IterationLine _ _) => False
  | Print _ => True
  | SignalAlarm _ => True
  | AddScalar _ _ _ => True
  | _ => False
  end.

(** Reading a decimal numeral back: the value of a character as a digit, of
    a list of characters, and of a list of digits, least significant first. *)
Definition digit_value (c : ascii) : Z := Z.of_N (N_of_ascii c) - 48.

Definition decode_from (acc : Z) (cs : list ascii) : Z :=
  fold_left (fun a c => 10 * a + digit_value c) cs acc.

Definition value_lsb (ds : list Z) : Z := fold_right (fun d a => d + 10 * a) 0 ds.

(** The audio records of a trace (newest first), in the order they were written. *)
Definition audio_records (tr : list event) : list event :=
  fold_left (fun acc e => if is_audio e then e :: acc else acc) tr [].

(** The saves of a run, as an invariant of the loop: read from the latest
    back, the saved paths are those of strictly decreasing steps, all above
    the step the run started from and none above the current one. *)
Definition saves_so_far (dir : string) (g0 : Z) (s : State) : Prop :=
  g0 <= global_step (model s)
  /\ exists dsteps,
      saved_paths (trace s) = map (checkpoint_path dir) dsteps
      /\ StronglySorted Z.gt dsteps
      /\ Forall (fun k => g0 < k <= global_step (model s)) dsteps.

(** Where the stream stands, as an invariant of the loop: [p] batches of
    the pass in progress are consumed, and the batches fed so far are the
    completed passes followed by those [p]. *)
Definition stream_position (env : Env) (train_set : list Batch) (s : State) : Prop :=
  exists p,
    (p <= List.length train_set)%nat
    /\ train_iterator s = skipn p train_set
    /\ rev (fed_batches (trace s))
       = map (on_device env)
           (List.concat (repeat train_set (laps (trace s))) ++ firstn p train_set).

(** *** The steps of a run *)

(** The model after [train_step] was called on each of [batches] in turn:
    each call is made on the model the call before it left, leaves what it
    returns for the part the subclass owns, and is counted in the global
    step. *)
Fixpoint steps_taken (cls : VocoderClass) (m : Vocoder) (batches : list Batch) : Vocoder :=
  match batches with
  | [] => m
  | b :: rest =>
      let '(_, _, net') := train_step cls m (fst b) (snd b) in
      steps_taken cls
        (mkVocoder (global_step m + 1) (buffer_device m) (training m) net') rest
  end.

(** The losses these calls return. *)
Fixpoint step_losses (cls : VocoderClass) (m : Vocoder) (batches : list Batch)
  : list float :=
  match batches with
  | [] => []
  | b :: rest =>
      let '(loss, _, net') := train_step cls m (fst b) (snd b) in
      loss :: step_losses cls
                (mkVocoder (global_step m + 1) (buffer_device m) (training m) net') rest
  end.

(** The losses announced by the lines [Iteration <step>: <loss>]. *)
Definition iteration_losses (tr : list event) : list float :=
  flat_map (fun e => match e with
                     | Print (IterationLine _ loss) => [loss]
                     | _ => []
                     end) tr.

(** *** Where the tensors of a state are *)

Definition device_eqb (a b : Device) : bool :=
  match a, b with
  | CPU, CPU => true
  | CUDA, CUDA => true
  | _, _ => false
  end.

(** The device [move_state_dict_to_device] moves to. *)
Definition target_device (cpu : bool) : Device := if cpu then CPU else CUDA.

(** Every tensor of the item, at any depth of lists and dicts, is on [dev]. *)
Fixpoint tensors_on (dev : Device) (it : item) : bool :=
  match it with
  | ITensor t => device_eqb (device t) dev
  | IDict d => forallb (fun kv => let '(_, value) := kv in tensors_on dev value) d
  | IList l => forallb (fun value => tensors_on dev value) l
  | IOther _ => true
  end.

(** *** The watchdog *)

(** The arguments of the calls of [signal.alarm]. *)
Definition alarms (tr : list event) : list Z :=
  flat_map (fun e => match e with SignalAlarm seconds => [seconds] | _ => [] end) tr.

(** Whether an alarm is pending after the events [tr] (newest first): the
    latest call of [signal.alarm] asked for a positive delay. *)
Fixpoint watchdog_armed (tr : list event) : bool :=
  match tr with
  | [] => false
  | SignalAlarm seconds :: _ => negb (seconds =? 0)
  | _ :: older => watchdog_armed older
  end.

(** The side of the alarm on which the code places an event: [Some true]
    between [signal.alarm(delay)] and [signal.alarm(0)] (fetching the batch,
    the step, the iteration line; the handler of the alarm itself),
    [Some false] outside (metric records, validation, saves, sample
    generation, the lines before and after the loop). *)
Definition under_alarm (e : event) : option bool :=
  match e with
  | SignalAlarm _ => None
  | TrainStep _ _ => Some true
  | Print CompletedEpoch => Some true
  | Print (IterationLine _ _) => Some true
  | Print AverageDataLoadingTime => Some true
  | Print IterationTookTooLong => Some true
  | Print _ => Some false
  | AddScalar _ _ _ => Some false
  | AddAudio _ _ _ => Some false
  | TorchSave _ => Some false
  end.

(** Every event of [tr] (newest first) happened on its side of the alarm. *)
Fixpoint well_guarded (tr : list event) : bool :=
  match tr with
  | [] => true
  | e :: older =>
      match under_alarm e with
      | Some side => Bool.eqb (watchdog_armed older) side
      | None => true
      end && well_guarded older
  end.

(** The delays a run of [n] iterations asks for, in order: the first
    iteration gets the long one, each is followed by its [signal.alarm(0)]. *)
Definition deadlines (n : nat) : list Z :=
  flat_map (fun i => [if (i =? 0)%nat then MAX_FIRST_ITERATION_DELAY
                      else MAX_TRAINING_ITERATION_DELAY; 0])
    (seq 0 n).

(** *** Reading a checkpoint record *)

(** The global step a checkpoint record holds: the scalar integer tensor
    under [global_step_buffer] in its model sub-state. *)
Definition saved_step (record : item) : option Z :=
  match getitem record "model" with
  | Ok (IDict entries) =>
      match dict_get GLOBAL_STEP_BUFFER entries with
      | Some (ITensor t) =>
          match storage t with
          | IntData [z] => Some z
          | _ => None
          end
      | _ => None
      end
  | _ => None
  end.

(** *** What validation reports *)

(** The losses validation collects, one dict per batch. *)
Definition collected_losses (env : Env) (m : Vocoder) (dataloader : list Batch)
  : list (dict float) :=
  map (fun b => validation_losses (vocoder env) m (fst (on_device env b))
                  (snd (on_device env b))) dataloader.

(** The values reported under [key], in the order of the batches. *)
Definition column (key : string) (losses : list (dict float)) : list float :=
  flat_map (fun batch_losses => match dict_get key batch_losses with
                                | Some v => [v]
                                | None => []
                                end) losses.

(** The line and the record validation writes for a key, in that order. *)
Definition validation_report (env : Env) (step : Z) (losses : list (dict float))
    (key : string) : list event :=
  [Print (ValidationLine key (torch_mean env (column key losses)));
   AddScalar ("valid/" ++ key)%string (torch_mean env (column key losses)) step].

(** ** Concrete models and data for the examples *)

Module Demo.

Definition scalar (x : Z) : Tensor := mkTensor CPU (IntData [x]).

Definition batch (x : Z) : Batch := (scalar x, scalar (x + 100)).

Definition weights (w : float) : dict item :=
  [("weight", ITensor (mkTensor CPU (FloatData [w; 0.5%float])))].

Definition adam : dict item :=
  [("state", IDict [("exp_avg", ITensor (mkTensor CUDA (FloatData [0.25%float])))]);
   ("param_groups", IList [IDict [("lr", IOther (PyFloat 0.5))]])].

Definition step_lr : dict item := [("last_epoch", IOther (PyInt 3))].

(** The [load_state_dict] of a class that takes any dict as its new state
    and refuses what is not a dict with the given exception. *)
Definition takes_dict (e : exn) (_ : nat) (_ : dict item) (state_dict : item)
  : result (dict item) :=
  match state_dict with
  | IDict d => Ok d
  | _ => Raise e
  end.

(** One optimizer with its scheduler. *)
Definition gan_net : Net :=
  mkNet (weights 1.5) [(adam, Some step_lr)] (takes_dict TypeError) (takes_dict TypeError).

(** Two optimizers, the second without a scheduler. *)
Definition two_optimizers : Net :=
  mkNet (weights 2) [(step_lr, Some adam); (adam, None)]
    (takes_dict TypeError) (takes_dict TypeError).

(** A parameter that has diverged. *)
Definition diverged : Net :=
  mkNet [("weight", ITensor (mkTensor CPU (FloatData [nan])))] [(adam, None)]
    (takes_dict TypeError) (takes_dict TypeError).

Definition at_step (step : Z) (n : Net) : Vocoder := mkVocoder step CPU true n.

(** A model that is done after [limit] steps, whose loss is NaN at the
    step [nan_at] and 1 otherwise, and that reports the validation losses
    [b] and [a], in that order. *)
Definition counting (limit nan_at : Z) : VocoderClass :=
  {| is_done := fun m => limit <=? global_step m;
     train_step := fun m _ _ =>
       (if global_step m + 1 =? nan_at then nan else 1%float,
        [("aux", 0.5%float)], net m);
     validation_losses := fun _ spectrograms _ =>
       match storage spectrograms with
       | IntData [x] =>
           [("b", if x <? 8 then 2%float else 4%float);
            ("a", if x <? 8 then 1%float else 3%float)]
       | _ => []
       end;
     generate := fun _ spectrograms => spectrograms |}.

(** The mean in binary64 arithmetic: sum over count. *)
Definition float_mean (values : list float) : float :=
  (fold_right PrimFloat.add 0 values
   / fold_right (fun _ n => n + 1) 0 values)%float.

Definition env (limit nan_at : Z) : Env :=
  mkEnv false (fun values => float_mean values) (counting limit nan_at).

Definition train_set : list Batch := [batch 0; batch 1; batch 2].
Definition valid_set : list Batch := [batch 7; batch 8].
Definition checkpoints : string := "model/checkpoints".

(** The state in which the loop is entered, for a model at [step]. *)
Definition entry (limit nan_at step : Z) : State :=
  initial_state (env limit nan_at) (at_step step gan_net) train_set [].

(** A model whose second kind of batch reports one loss less than the first. *)
Definition uneven_losses : VocoderClass :=
  {| is_done := fun m => 10 <=? global_step m;
     train_step := fun m _ _ => (1%float, [], net m);
     validation_losses := fun _ spectrograms _ =>
       match storage spectrograms with
       | IntData [7] => [("b", 2%float); ("c", 5%float); ("a", 1%float)]
       | _ => [("a", 3%float); ("c", 6%float)]
       end;
     generate := fun _ spectrograms => spectrograms |}.

Definition uneven_env : Env := mkEnv false float_mean uneven_losses.

(** Two optimizers, the second with a scheduler whose class reads an
    attribute of what it is given, as LambdaLR does. *)
Definition late_scheduler : Net :=
  mkNet (weights 1) [(adam, None); (adam, Some step_lr)]
    (takes_dict TypeError) (takes_dict AttributeError).

(** A weight that counts what it has seen. *)
Definition counter (w : Z) : Net :=
  mkNet [("weight", ITensor (mkTensor CPU (IntData [w])))] [(adam, None)]
    (takes_dict TypeError) (takes_dict TypeError).

(** A model that learns: a step adds the value of the spectrogram it is
    given, plus one, to the weight; the loss of the step is the weight it
    started from, as 1 when that is even and 2 when it is odd. It is done
    after [limit] steps. *)
Definition learning (limit : Z) : VocoderClass :=
  {| is_done := fun m => limit <=? global_step m;
     train_step := fun m spectrograms _ =>
       match parameters (net m), storage spectrograms with
       | [(name, ITensor (mkTensor dev (IntData [w])))], IntData [x] =>
           (if Z.even w then 1%float else 2%float, [],
            mkNet [(name, ITensor (mkTensor dev (IntData [w + x + 1])))]
              (optimizers (net m)) (optimizer_load (net m)) (scheduler_load (net m)))
       | _, _ => (0%float, [], net m)
       end;
     validation_losses := fun _ _ _ => [];
     generate := fun _ spectrograms => spectrograms |}.

Definition learning_env (limit : Z) : Env := mkEnv false float_mean (learning limit).

End Demo.

(** * Properties *)

Local Open Scope list_scope.

(** ** Dictionaries *)

Lemma dict_get_set_same {V : Type} (k : string) (v : V) (d : dict V) :
  dict_get k (dict_set k v d) = Some v.
Proof.
  induction d as [| [k' v'] rest IH]; simpl.
  - rewrite String.eqb_refl. reflexivity.
  - destruct (String.eqb k' k) eqn:E; simpl; rewrite E; auto.
Qed.

Lemma dict_get_set_other {V : Type} (k k' : string) (v : V) (d : dict V) :
  k <> k' -> dict_get k' (dict_set k v d) = dict_get k' d.
Proof.
  intros Hne. induction d as [| [k0 v0] rest IH]; simpl.
  - destruct (String.eqb k k') eqn:E; [apply String.eqb_eq in E; contradiction | reflexivity].
  - destruct (String.eqb k0 k) eqn:E; simpl.
    + apply String.eqb_eq in E. subst k0.
      destruct (String.eqb k k') eqn:E'; [apply String.eqb_eq in E'; contradiction | reflexivity].
    + rewrite IH. reflexivity.
Qed.

Lemma dict_get_in_keys {V : Type} (k : string) (d : dict V) :
  In k (dict_keys d) <-> dict_get k d <> None.
Proof.
  induction d as [| [k0 v0] rest IH]; simpl.
  - split; [tauto | congruence].
  - destruct (String.eqb k0 k) eqn:E.
    + apply String.eqb_eq in E. split; [congruence | auto].
    + apply String.eqb_neq in E. rewrite <- IH. split; [intros [H | H]; [contradiction | exact H] | auto].
Qed.


(** ** Strings *)

Lemma string_compare_refl (s : string) : String.compare s s = Eq.
Proof.
  induction s as [| c s IH]; simpl; [reflexivity |].
  unfold Ascii.compare. rewrite N.compare_refl. exact IH.
Qed.

Lemma string_compare_app (s1 s2 t1 t2 : string) :
  String.length s1 = String.length s2 ->
  String.compare (s1 ++ t1)%string (s2 ++ t2)%string
  = match String.compare s1 s2 with
    | Eq => String.compare t1 t2
    | c => c
    end.
Proof.
  revert s2. induction s1 as [| c1 s1 IH]; intros [| c2 s2] Hlen; simpl in *;
    try discriminate.
  - reflexivity.
  - destruct (Ascii.compare c1 c2); auto.
Qed.

Lemma string_compare_prefix (p a b : string) :
  String.compare (p ++ a)%string (p ++ b)%string = String.compare a b.
Proof.
  rewrite string_compare_app by reflexivity.
  rewrite string_compare_refl. reflexivity.
Qed.

Lemma string_app_inv_head (p a b : string) : (p ++ a = p ++ b)%string -> a = b.
Proof.
  induction p as [| c p IH]; simpl; intros H; [exact H |].
  injection H as H. auto.
Qed.





Lemma string_length_app (a b : string) :
  String.length (a ++ b)%string = (String.length a + String.length b)%nat.
Proof. induction a as [| c a IH]; simpl; [reflexivity | rewrite IH; reflexivity]. Qed.



(** ** Decimal formatting *)




Lemma log2_fuel_enough (n : Z) :
  0 <= n -> n < 10 ^ Z.of_nat (S (Z.to_nat (Z.log2 n))).
Proof.
  intros Hn. pose proof (Z.log2_nonneg n) as Hl.
  rewrite Nat2Z.inj_succ, Z2Nat.id by exact Hl.
  destruct (Z.eq_dec n 0) as [-> | Hnz].
  - simpl. lia.
  - assert (Hpos : 0 < n) by lia.
    pose proof (Z.log2_spec n Hpos) as [_ Hlt].
    eapply Z.lt_le_trans; [exact Hlt |].
    apply Z.pow_le_mono_l. lia.
Qed.













(** ** Checkpoint names are read back: distinct steps, distinct files *)

Lemma digit_value_char (d : Z) : 0 <= d < 10 -> digit_value (digit_char d) = d.
Proof.
  intros H. unfold digit_value, digit_char.
  rewrite N_ascii_embedding by lia. lia.
Qed.

Lemma decode_from_app (acc : Z) (a b : list ascii) :
  decode_from acc (a ++ b) = decode_from (decode_from acc a) b.
Proof. unfold decode_from. apply fold_left_app. Qed.

Lemma decode_zeros (k : nat) : decode_from 0 (repeat "0"%char k) = 0.
Proof. induction k as [| k IH]; [reflexivity | exact IH]. Qed.

Lemma decode_digits (ds : list Z) :
  Forall (fun d => 0 <= d < 10) ds ->
  decode_from 0 (rev (map digit_char ds)) = value_lsb ds.
Proof.
  induction 1 as [| d rest Hd _ IH]; [reflexivity |].
  cbn [map rev]. rewrite decode_from_app, IH.
  unfold decode_from. cbn [fold_left value_lsb fold_right].
  rewrite digit_value_char by exact Hd. fold (value_lsb rest). lia.
Qed.

Lemma digits_lsb_value (fuel : nat) :
  forall n, 0 <= n < 10 ^ Z.of_nat fuel ->
            value_lsb (digits_lsb fuel n) = n
            /\ Forall (fun d => 0 <= d < 10) (digits_lsb fuel n).
Proof.
  induction fuel as [| fuel IH]; intros n Hn.
  - simpl in Hn. assert (n = 0) by lia. subst. split; [reflexivity | constructor].
  - rewrite Nat2Z.inj_succ, Z.pow_succ_r in Hn by lia.
    cbn [digits_lsb].
    pose proof (Z.div_mod n 10 ltac:(lia)) as Hdm.
    pose proof (Z.mod_pos_bound n 10 ltac:(lia)) as Hmod.
    destruct (n / 10 =? 0) eqn:E.
    + apply Z.eqb_eq in E. split; [| repeat constructor; lia].
      cbn [value_lsb fold_right]. lia.
    + destruct (IH (n / 10)) as [Hv Hd].
      { split; [apply Z.div_pos; lia | apply Z.div_lt_upper_bound; lia]. }
      split; [| constructor; [lia | exact Hd]].
      cbn [value_lsb fold_right]. fold (value_lsb (digits_lsb fuel (n / 10))).
      rewrite Hv. lia.
Qed.

Lemma format_08d_decode (n : Z) :
  0 <= n -> decode_from 0 (list_ascii_of_string (format_08d n)) = n.
Proof.
  intros Hn. unfold format_08d, str_digits.
  replace (n <? 0) with false by (symmetry; apply Z.ltb_ge; lia).
  rewrite Z.abs_eq by lia.
  rewrite list_ascii_of_string_of_list_ascii. cbn [app].
  rewrite decode_from_app, decode_zeros.
  destruct (digits_lsb_value (S (Z.to_nat (Z.log2 n))) n) as [Hv Hd].
  { split; [lia | apply log2_fuel_enough; lia]. }
  rewrite decode_digits by exact Hd. exact Hv.
Qed.

Lemma format_08d_inj (a b : Z) :
  0 <= a -> 0 <= b -> format_08d a = format_08d b -> a = b.
Proof.
  intros Ha Hb E.
  rewrite <- (format_08d_decode a Ha), <- (format_08d_decode b Hb), E. reflexivity.
Qed.

Lemma list_ascii_of_string_app (a b : string) :
  list_ascii_of_string (a ++ b)%string
  = list_ascii_of_string a ++ list_ascii_of_string b.
Proof. induction a as [| c a IH]; simpl; [reflexivity | rewrite IH; reflexivity]. Qed.

Lemma string_app_inv_tail (a b suffix : string) :
  (a ++ suffix = b ++ suffix)%string -> a = b.
Proof.
  intros E. apply (f_equal list_ascii_of_string) in E.
  rewrite !list_ascii_of_string_app in E. apply app_inv_tail in E.
  rewrite <- (string_of_list_ascii_of_string a), <- (string_of_list_ascii_of_string b), E.
  reflexivity.
Qed.

Lemma checkpoint_path_inj (dir : string) (a b : Z) :
  0 <= a -> 0 <= b -> checkpoint_path dir a = checkpoint_path dir b -> a = b.
Proof.
  intros Ha Hb E. unfold checkpoint_path, os_path_join, checkpoint_name in E.
  injection E as E. apply string_app_inv_tail in E.
  apply format_08d_inj; assumption.
Qed.

(** ** Sorting *)

Section SortFacts.
Context {A : Type} (le : A -> A -> bool).

Lemma insert_with_perm (x : A) (l : list A) :
  Permutation (insert_with le x l) (x :: l).
Proof.
  induction l as [| y rest IH]; simpl.
  - apply Permutation_refl.
  - destruct (le x y).
    + apply Permutation_refl.
    + eapply perm_trans; [apply perm_skip, IH | apply perm_swap].
Qed.

Lemma sort_with_perm (l : list A) : Permutation (sort_with le l) l.
Proof.
  induction l as [| x rest IH]; simpl.
  - apply perm_nil.
  - eapply perm_trans; [apply insert_with_perm | apply perm_skip, IH].
Qed.

Lemma sort_with_in (x : A) (l : list A) : In x (sort_with le l) <-> In x l.
Proof.
  split; apply Permutation_in;
    [apply sort_with_perm | apply Permutation_sym, sort_with_perm].
Qed.
End SortFacts.





Lemma last_opt_in {A : Type} (l : list A) (z : A) : last_opt l = Some z -> In z l.
Proof.
  induction l as [| x rest IH]; simpl; [discriminate |].
  destruct rest as [| y rest'].
  - intros H. injection H as ->. left. reflexivity.
  - intros H. right. apply IH. exact H.
Qed.

Lemma last_opt_nonempty {A : Type} (l : list A) :
  l <> [] -> exists z, last_opt l = Some z.
Proof.
  induction l as [| x rest IH]; [congruence |]. intros _.
  destruct rest as [| y rest'].
  - exists x. reflexivity.
  - destruct IH as [z Hz]; [discriminate |]. exists z. exact Hz.
Qed.




(** ** The files [save_model] leaves in the checkpoint directory *)

Lemma save_model_writes (m : Vocoder) (dir : string) (fs : FileSystem) :
  exists fs',
    save_model m dir fs = Ok fs'
    /\ dict_get dir fs'
       = Some (dict_set (checkpoint_name (global_step m))
                 (move_state_dict_to_device (checkpoint_record m) true)
                 (listing fs dir))
    /\ forall other, other <> dir -> dict_get other fs' = dict_get other fs.
Proof.
  unfold save_model, torch_save, makedirs, listing. simpl.
  destruct (dict_get dir fs) as [files |] eqn:E.
  - rewrite E. eexists. split; [reflexivity |]. split.
    + apply dict_get_set_same.
    + intros other Hne. apply dict_get_set_other. congruence.
  - rewrite dict_get_set_same. eexists. split; [reflexivity |]. split.
    + apply dict_get_set_same.
    + intros other Hne. rewrite !dict_get_set_other by congruence. reflexivity.
Qed.







Lemma glob_ckpt_listing (fs : FileSystem) (dir : string) :
  glob_ckpt fs dir
  = map (os_path_join dir) (filter fnmatch_ckpt (dict_keys (listing fs dir))).
Proof. unfold glob_ckpt, listing. destruct (dict_get dir fs); reflexivity. Qed.




Lemma move_to_cpu_after_move (it : item) (c : bool) :
  move_state_dict_to_device (move_state_dict_to_device it c) true
  = move_state_dict_to_device it true.
Proof.
  induction it as [t | d IH | l IH | v] using item_nested_ind; simpl.
  - destruct c; reflexivity.
  - f_equal. rewrite map_map. induction IH as [| [k v] rest Hv _ IHrest]; simpl.
    + reflexivity.
    + simpl in Hv. rewrite Hv, IHrest. reflexivity.
  - f_equal. rewrite map_map. induction IH as [| v rest Hv _ IHrest]; simpl.
    + reflexivity.
    + rewrite Hv, IHrest. reflexivity.
  - reflexivity.
Qed.

(** ** The checkpoint codec *)

Lemma move_dict (d : dict item) (c : bool) :
  move_state_dict_to_device (IDict d) c
  = IDict (map (fun kv => (fst kv, move_state_dict_to_device (snd kv) c)) d).
Proof.
  simpl. f_equal. apply map_ext. intros [k v]. reflexivity.
Qed.

Lemma relocate_IDict (cuda : bool) (d : dict item) :
  relocate cuda (IDict d) = IDict (relocate_dict cuda d).
Proof.
  unfold relocate, relocate_dict. destruct cuda.
  - rewrite !move_dict, map_map. reflexivity.
  - rewrite move_dict. reflexivity.
Qed.

Lemma relocate_IList (cuda : bool) (l : list item) :
  relocate cuda (IList l) = IList (map (relocate cuda) l).
Proof.
  unfold relocate. destruct cuda; simpl; [rewrite map_map |]; reflexivity.
Qed.

Lemma relocate_to_cpu (cuda : bool) (it : item) :
  move_state_dict_to_device (relocate cuda it) true = move_state_dict_to_device it true.
Proof.
  unfold relocate. destruct cuda; rewrite !move_to_cpu_after_move; reflexivity.
Qed.

Lemma relocate_dict_to_cpu (cuda : bool) (d : dict item) :
  move_state_dict_to_device (IDict (relocate_dict cuda d)) true
  = move_state_dict_to_device (IDict d) true.
Proof. rewrite <- relocate_IDict. apply relocate_to_cpu. Qed.

Lemma relocate_dict_keys (cuda : bool) (d : dict item) :
  dict_keys (relocate_dict cuda d) = dict_keys d.
Proof. unfold dict_keys, relocate_dict. rewrite map_map. reflexivity. Qed.

Lemma dict_get_relocate (cuda : bool) (key : string) (d : dict item) :
  dict_get key (relocate_dict cuda d) = option_map (relocate cuda) (dict_get key d).
Proof.
  induction d as [| [k v] rest IH]; simpl; [reflexivity |].
  destruct (String.eqb k key); [reflexivity | exact IH].
Qed.

Lemma found_nan_relocate (cuda : bool) (d : dict item) :
  found_nan (relocate_dict cuda d) = found_nan d.
Proof.
  unfold found_nan, relocate_dict.
  induction d as [| [k v] rest IH]; simpl; [reflexivity |].
  rewrite IH. f_equal. unfold relocate.
  destruct v as [t | | |]; destruct cuda; reflexivity.
Qed.

Lemma dict_get_nodup {V : Type} (k : string) (v : V) (d : dict V) :
  NoDup (dict_keys d) -> In (k, v) d -> dict_get k d = Some v.
Proof.
  induction d as [| [k0 v0] rest IH]; intros Hnd Hin; [destruct Hin |].
  simpl in Hnd. inversion Hnd as [| ? ? Hnotin Hnd']; subst.
  simpl. destruct Hin as [E | Hin].
  - injection E as -> ->. rewrite String.eqb_refl. reflexivity.
  - destruct (String.eqb k0 k) eqn:E.
    + apply String.eqb_eq in E. subst k0. exfalso. apply Hnotin.
      apply (in_map fst) in Hin. exact Hin.
    + apply IH; assumption.
Qed.

Lemma relocate_tensor (cuda : bool) (t : Tensor) :
  exists dev, relocate cuda (ITensor t) = ITensor (mkTensor dev (storage t)).
Proof. unfold relocate. destruct cuda; eexists; reflexivity. Qed.


Lemma host_relocate_dict (cuda : bool) (d : dict item) :
  host (relocate_dict cuda d) = host d.
Proof.
  unfold host, relocate_dict. rewrite map_map. apply map_ext.
  intros [k v]. cbn [fst snd]. f_equal. apply relocate_to_cpu.
Qed.

Lemma wrap_int32_in_range (z : Z) :
  INT32_MIN <= z <= INT32_MAX -> wrap_int32 z = z.
Proof.
  unfold wrap_int32, INT32_MIN, INT32_MAX. intros H.
  rewrite Z.mod_small by lia. lia.
Qed.

Lemma same_parameters_keys (live saved : dict item) :
  same_parameters live saved -> dict_keys live = dict_keys saved.
Proof.
  induction 1 as [| a b live saved [Hk _] _ IH]; [reflexivity |].
  unfold dict_keys in *. simpl. rewrite Hk, IH. reflexivity.
Qed.

Lemma keys_expected (l1 l2 : list string) :
  (forall k, In k l1 -> In k l2) ->
  forallb (fun key => existsb (String.eqb key) l2) l1 = true.
Proof.
  intros H. apply forallb_forall. intros k Hk. apply existsb_exists.
  exists k. split; [apply H; exact Hk | apply String.eqb_refl].
Qed.

(** The strict copy succeeds between parameters of the same names and
    sizes, and leaves the values given. *)
Lemma load_entries_same (cuda : bool) (given : dict item) :
  forall live saved : dict item,
    same_parameters live saved ->
    (forall k v, In (k, v) saved -> dict_get k given = Some (relocate cuda v)) ->
    exists params,
      load_entries live given = Ok params
      /\ host params = host saved.
Proof.
  induction 1 as [| [k a] [k' b] live saved [Hk Hab] _ IH]; intros Hgiven.
  - exists []. split; reflexivity.
  - simpl in Hk. subst k'. simpl in Hab.
    destruct a as [p | | |]; try contradiction.
    destruct b as [q | | |]; try contradiction.
    destruct IH as [params [Hload Hhost]].
    { intros k0 v Hin. apply Hgiven. right. exact Hin. }
    destruct (relocate_tensor cuda q) as [dev Hq].
    cbn [load_entries]. rewrite (Hgiven k (ITensor q) (or_introl eq_refl)), Hq.
    assert (Hn : (numel p =? numel (mkTensor dev (storage q)))%nat = true).
    { apply Nat.eqb_eq. exact Hab. }
    rewrite Hn, Hload. cbn [rbind].
    eexists. split; [reflexivity |].
    unfold host in *. cbn [map fst snd]. rewrite Hhost. reflexivity.
Qed.

(** [load_state_dict] on the model state of a record written by
    [save_model], into an entity with the same parameters. *)
Lemma load_state_dict_saved (cuda : bool) (saved live : Vocoder) :
  module_state saved ->
  same_parameters (parameters (net live)) (parameters (net saved)) ->
  exists params,
    load_state_dict live (relocate cuda (state_dict saved))
    = Ok (mkVocoder (global_step saved) (buffer_device live) (training live)
            (mkNet params (optimizers (net live))
               (optimizer_load (net live)) (scheduler_load (net live))))
    /\ host params = host (parameters (net saved)).
Proof.
  intros [Hrange [Hfresh Hnd]] Hsame.
  unfold state_dict. rewrite relocate_IDict.
  unfold relocate_dict at 1. cbn [map fst snd].
  fold (relocate_dict cuda (parameters (net saved))).
  destruct (relocate_tensor cuda
              (mkTensor (buffer_device saved) (IntData [global_step_buffer saved])))
    as [dev Ht].
  rewrite Ht. cbn [storage].
  set (given := (GLOBAL_STEP_BUFFER, ITensor (mkTensor dev (IntData [global_step_buffer saved])))
                  :: relocate_dict cuda (parameters (net saved))).
  destruct (load_entries_same cuda given _ _ Hsame) as [params [Hload Hhost]].
  { intros k v Hin. unfold given. cbn [dict_get].
    destruct (String.eqb GLOBAL_STEP_BUFFER k) eqn:E.
    - apply String.eqb_eq in E. subst k.
      rewrite (dict_get_nodup _ v _ Hnd Hin) in Hfresh. discriminate Hfresh.
    - rewrite dict_get_relocate, (dict_get_nodup k v _ Hnd Hin). reflexivity. }
  exists params. split; [| exact Hhost].
  unfold load_state_dict.
  assert (Hkeys : forallb
                    (fun key => existsb (String.eqb key)
                                  (GLOBAL_STEP_BUFFER :: dict_keys (parameters (net live))))
                    (dict_keys given) = true).
  { apply keys_expected. intros k Hk. unfold given, dict_keys in Hk. cbn [map fst] in Hk.
    fold (dict_keys (relocate_dict cuda (parameters (net saved)))) in Hk.
    rewrite relocate_dict_keys, <- (same_parameters_keys _ _ Hsame) in Hk. exact Hk. }
  cbv zeta. rewrite Hkeys.
  unfold given at 1. cbn [dict_get]. rewrite String.eqb_refl.
  rewrite Hload. cbn [rbind].
  unfold global_step in *. rewrite (wrap_int32_in_range _ Hrange). reflexivity.
Qed.

Lemma torch_load_after_save (m : Vocoder) (dir : string) (fs fs' : FileSystem) :
  save_model m dir fs = Ok fs' ->
  torch_load (checkpoint_path dir (global_step m)) fs'
  = Ok (move_state_dict_to_device (checkpoint_record m) true).
Proof.
  intros Hsave.
  destruct (save_model_writes m dir fs) as [fs1 [Hs [Hget _]]].
  rewrite Hs in Hsave. injection Hsave as <-.
  unfold torch_load, checkpoint_path, os_path_join. cbn [dirname basename].
  rewrite Hget, dict_get_set_same. reflexivity.
Qed.

(** The record [load_model_from_checkpoint] works on after a [save_model]. *)
Lemma relocate_checkpoint_record (cuda : bool) (m : Vocoder) :
  relocate cuda (checkpoint_record m)
  = IDict [("model", relocate cuda (state_dict m));
           ("optimizers", IList (map (saved_optimizer cuda) (get_optimizers m)));
           ("lr_schedulers", IList (map (saved_scheduler cuda) (get_optimizers m)))].
Proof.
  unfold checkpoint_record. rewrite relocate_IDict. unfold relocate_dict at 1.
  cbn [map fst snd]. rewrite !relocate_IList, !map_map.
  rewrite (map_ext (fun os : dict item * option (dict item) => relocate cuda (IDict (fst os)))
             (saved_optimizer cuda))
    by (intros os; apply relocate_IDict).
  rewrite (map_ext (fun os : dict item * option (dict item) =>
                      relocate cuda match snd os with
                                    | Some sched => IDict sched
                                    | None => IOther PyNone
                                    end)
             (saved_scheduler cuda)).
  - reflexivity.
  - intros [opt [sched |]]; unfold saved_scheduler; simpl.
    + apply relocate_IDict.
    + unfold relocate. destruct cuda; reflexivity.
Qed.

(** The loop over the pairs depends on the entity through the classes of
    its optimizers and schedulers only. *)
Lemma restore_optimizers_classes (n1 n2 : Net) :
  optimizer_load n1 = optimizer_load n2 ->
  scheduler_load n1 = scheduler_load n2 ->
  forall (live : list (dict item * option (dict item))) (i : nat)
         (opt_dicts sched_dicts : list item),
    restore_optimizers n1 i live opt_dicts sched_dicts
    = restore_optimizers n2 i live opt_dicts sched_dicts.
Proof.
  intros Hopt Hsched.
  induction live as [| own live' IH]; intros i opt_dicts sched_dicts; [reflexivity |].
  destruct opt_dicts as [| od ods]; [reflexivity |].
  destruct sched_dicts as [| sd sds]; [reflexivity |].
  cbn [restore_optimizers]. unfold restore_pair. rewrite Hopt, Hsched, IH. reflexivity.
Qed.

(** Loading what [save_model] wrote, up to the loop over the optimizers: the
    sanity check passes, the strict load of the model state succeeds, and
    what remains is the restore of the optimizers and schedulers. *)
Lemma load_after_save (cuda : bool) (saved live : Vocoder) (dir : string)
    (fs fs' : FileSystem) :
  module_state saved ->
  found_nan (parameters (net saved)) = false ->
  same_parameters (parameters (net live)) (parameters (net saved)) ->
  save_model saved dir fs = Ok fs' ->
  exists params,
    host params = host (parameters (net saved))
    /\ load_model_from_checkpoint cuda live (checkpoint_path dir (global_step saved)) fs'
       = (restored <-? restore_optimizers (net live) 0 (get_optimizers live)
                         (map (saved_optimizer cuda) (get_optimizers saved))
                         (map (saved_scheduler cuda) (get_optimizers saved));
          Ok (mkVocoder (global_step saved) (buffer_device live) (training live)
                (mkNet params restored
                   (optimizer_load (net live)) (scheduler_load (net live))))).
Proof.
  intros Hstate Hnan Hsame Hsave.
  destruct (load_state_dict_saved cuda saved live Hstate Hsame) as [params [Hload Hhost]].
  exists params. split; [exact Hhost |].
  unfold load_model_from_checkpoint.
  rewrite (torch_load_after_save saved dir fs fs' Hsave). cbn [rbind].
  change (if cuda
          then move_state_dict_to_device
                 (move_state_dict_to_device (checkpoint_record saved) true) false
          else move_state_dict_to_device (checkpoint_record saved) true)
    with (relocate cuda (checkpoint_record saved)).
  rewrite relocate_checkpoint_record.
  cbn [getitem dict_get String.eqb Ascii.eqb Bool.eqb andb rbind].
  rewrite Hload.
  unfold state_dict. rewrite relocate_IDict. cbn [as_dict rbind].
  rewrite found_nan_relocate.
  unfold found_nan at 1. cbn [existsb snd any_isnan storage orb].
  fold (found_nan (parameters (net saved))). rewrite Hnan.
  cbn [rbind as_list get_optimizers net optimizers parameters optimizer_load
         scheduler_load set_net global_step_buffer buffer_device training].
  rewrite (restore_optimizers_classes
             (mkNet params (optimizers (net live)) (optimizer_load (net live))
                (scheduler_load (net live)))
             (net live) eq_refl eq_refl).
  reflexivity.
Qed.

(** The loop over the pairs when every class accepts what it is given: it
    succeeds, and leaves at each position what the classes made of the
    record's states, or the live pair where the record has none. *)
Lemma restore_optimizers_accepted (n : Net) (cuda : bool) :
  forall (live saved : list (dict item * option (dict item))) (i0 : nat),
    (forall k own given,
        nth_error live k = Some own -> nth_error saved k = Some given ->
        exists own',
          restore_pair n (i0 + k) own (saved_optimizer cuda given)
            (saved_scheduler cuda given) = Ok own') ->
    exists restored,
      restore_optimizers n i0 live (map (saved_optimizer cuda) saved)
        (map (saved_scheduler cuda) saved) = Ok restored
      /\ List.length restored = List.length live
      /\ forall k own,
          nth_error live k = Some own ->
          exists own',
            nth_error restored k = Some own'
            /\ match nth_error saved k with
               | Some given =>
                   restore_pair n (i0 + k) own (saved_optimizer cuda given)
                     (saved_scheduler cuda given) = Ok own'
               | None => own' = own
               end.
Proof.
  induction live as [| own0 live' IH]; intros saved i0 Hacc.
  - exists []. split; [reflexivity |]. split; [reflexivity |].
    intros k own Hk. destruct k; discriminate Hk.
  - destruct saved as [| given0 saved'].
    + exists (own0 :: live'). split; [reflexivity |]. split; [reflexivity |].
      intros k own Hk. exists own. split; [exact Hk |]. destruct k; reflexivity.
    + destruct (Hacc 0%nat own0 given0 eq_refl eq_refl) as [own0' Hown0].
      rewrite Nat.add_0_r in Hown0.
      destruct (IH saved' (S i0)) as [rest [Hrest [Hlen Hnth]]].
      { intros k own given Hk Hg. rewrite Nat.add_succ_comm.
        apply (Hacc (S k) own given Hk Hg). }
      exists (own0' :: rest).
      cbn [map restore_optimizers]. rewrite Hown0. cbn [rbind]. rewrite Hrest. cbn [rbind].
      split; [reflexivity |]. split; [simpl; rewrite Hlen; reflexivity |].
      intros [| k] own Hk.
      * injection Hk as <-. exists own0'. split; [reflexivity |].
        cbn [nth_error]. rewrite Nat.add_0_r. exact Hown0.
      * destruct (Hnth k own Hk) as [own' [Hn Hm]].
        exists own'. split; [exact Hn |]. cbn [nth_error].
        rewrite <- Nat.add_succ_comm. exact Hm.
Qed.


(** The loop over the pairs stops at the first class that refuses what it is
    given, with the exception of that class. *)
Lemma restore_optimizers_refused (n : Net) (cuda : bool) (e : exn) :
  forall (k : nat) (live saved : list (dict item * option (dict item))) (i0 : nat)
         (own given : dict item * option (dict item)),
    (forall j own_j given_j,
        (j < k)%nat ->
        nth_error live j = Some own_j -> nth_error saved j = Some given_j ->
        exists own',
          restore_pair n (i0 + j) own_j (saved_optimizer cuda given_j)
            (saved_scheduler cuda given_j) = Ok own') ->
    nth_error live k = Some own ->
    nth_error saved k = Some given ->
    restore_pair n (i0 + k) own (saved_optimizer cuda given) (saved_scheduler cuda given)
    = Raise e ->
    restore_optimizers n i0 live (map (saved_optimizer cuda) saved)
      (map (saved_scheduler cuda) saved) = Raise e.
Proof.
  induction k as [| k IH]; intros live saved i0 own given Hbefore Hl Hs Hraise.
  - destruct live as [| own0 live']; [discriminate Hl |].
    destruct saved as [| given0 saved']; [discriminate Hs |].
    injection Hl as ->. injection Hs as ->. rewrite Nat.add_0_r in Hraise.
    cbn [map restore_optimizers]. rewrite Hraise. reflexivity.
  - destruct live as [| own0 live']; [discriminate Hl |].
    destruct saved as [| given0 saved']; [discriminate Hs |].
    destruct (Hbefore 0%nat own0 given0 (Nat.lt_0_succ k) eq_refl eq_refl) as [own0' Hown0].
    rewrite Nat.add_0_r in Hown0.
    cbn [map restore_optimizers]. rewrite Hown0. cbn [rbind].
    rewrite (IH live' saved' (S i0) own given); [reflexivity | | exact Hl | exact Hs |].
    + intros j own_j given_j Hj Hlj Hsj. rewrite Nat.add_succ_comm.
      apply (Hbefore (S j) own_j given_j); [lia | exact Hlj | exact Hsj].
    + rewrite Nat.add_succ_comm. exact Hraise.
Qed.






(** C5, as amended. Restoring pairs the checkpointed optimizer and scheduler
    states with the entity's current pairs by position and stops at the
    shorter sequence; the counts are never compared. Whatever the two counts
    are, loading a saved record into an entity of the same parameters
    succeeds when the class at each position both have accepts the state kept
    for it: each such pair holds what its [load_state_dict] made of that
    state, and the pairs beyond the record keep theirs. *)
Theorem load_pairs_by_position (cuda : bool) (saved live : Vocoder) (dir : string)
    (fs fs' : FileSystem) :
  module_state saved ->
  found_nan (parameters (net saved)) = false ->
  same_parameters (parameters (net live)) (parameters (net saved)) ->
  accepted cuda live saved ->
  save_model saved dir fs = Ok fs' ->
  exists restored,
    load_model_from_checkpoint cuda live
      (checkpoint_path dir (global_step saved)) fs' = Ok restored
    /\ List.length (get_optimizers restored) = List.length (get_optimizers live)
    /\ forall i own,
        nth_error (get_optimizers live) i = Some own ->
        exists own',
          nth_error (get_optimizers restored) i = Some own'
          /\ match nth_error (get_optimizers saved) i with
             | Some given =>
                 restore_pair (net live) i own (saved_optimizer cuda given)
                   (saved_scheduler cuda given) = Ok own'
             | None => own' = own
             end.
Proof.
  intros Hstate Hnan Hsame Hacc Hsave.
  destruct (load_after_save cuda saved live dir fs fs' Hstate Hnan Hsame Hsave)
    as [params [_ Hload]].
  destruct (restore_optimizers_accepted (net live) cuda (get_optimizers live)
              (get_optimizers saved) 0 Hacc) as [restored [Hres [Hlen Hnth]]].
  rewrite Hres in Hload. cbn [rbind] in Hload.
  eexists. split; [exact Hload |]. split; [exact Hlen | exact Hnth].
Qed.

Lemma load_pairs_by_position_witness :
  List.length (get_optimizers (new_vocoder Demo.two_optimizers))
  <> List.length (get_optimizers (Demo.at_step 5000 Demo.gan_net))
  /\ exists fs',
      save_model (Demo.at_step 5000 Demo.gan_net) Demo.checkpoints [] = Ok fs'
      /\ exists restored,
          load_model_from_checkpoint false (new_vocoder Demo.two_optimizers)
            (checkpoint_path Demo.checkpoints 5000) fs' = Ok restored
          /\ List.length (get_optimizers restored) = 2%nat
          /\ forall i own,
              nth_error (get_optimizers (new_vocoder Demo.two_optimizers)) i = Some own ->
              exists own',
                nth_error (get_optimizers restored) i = Some own'
                /\ match nth_error (get_optimizers (Demo.at_step 5000 Demo.gan_net)) i with
                   | Some given =>
                       restore_pair (net (new_vocoder Demo.two_optimizers)) i own
                         (saved_optimizer false given) (saved_scheduler false given)
                       = Ok own'
                   | None => own' = own
                   end.
Proof.
  split; [discriminate |].
  eexists. split; [vm_compute; reflexivity |].
  apply (load_pairs_by_position false (Demo.at_step 5000 Demo.gan_net)
           (new_vocoder Demo.two_optimizers) Demo.checkpoints []).
  - split; [vm_compute; split; discriminate |].
    split; [reflexivity |]. constructor; [intros [] | constructor].
  - reflexivity.
  - constructor; [split; reflexivity | constructor].
  - intros [| [| i]] own given Hown Hgiven; try discriminate Hgiven.
    injection Hown as <-. injection Hgiven as <-.
    eexists. vm_compute. reflexivity.
  - vm_compute. reflexivity.
Defined.

(** A record with one optimizer state loads into an entity with two
    optimizers: the count mismatch raises nothing. *)
Lemma load_count_mismatch_succeeds :
  exists fs' restored,
    save_model (Demo.at_step 5000 Demo.gan_net) Demo.checkpoints [] = Ok fs'
    /\ List.length (get_optimizers (new_vocoder Demo.two_optimizers)) = 2%nat
    /\ List.length (get_optimizers (Demo.at_step 5000 Demo.gan_net)) = 1%nat
    /\ load_model_from_checkpoint false (new_vocoder Demo.two_optimizers)
         (checkpoint_path Demo.checkpoints 5000) fs' = Ok restored
    /\ get_optimizers restored
       = [(relocate_dict false Demo.adam, Some Demo.step_lr); (Demo.adam, None)].
Proof.
  eexists. eexists.
  split; [vm_compute; reflexivity |].
  split; [reflexivity |]. split; [reflexivity |].
  split; vm_compute; reflexivity.
Qed.


(** ** The body of the loop *)

Lemma for_each_emit {A : Type} (f : A -> event) (l : list A) (s : State) :
  for_each l (fun x => emit (f x)) s = Next tt (push (rev (map f l)) s).
Proof.
  revert s. induction l as [| x rest IH]; intros s.
  - destruct s. reflexivity.
  - cbn [for_each]. unfold bind at 1. unfold emit at 1. rewrite IH.
    unfold push. cbn [model fs train_iterator started num_iterations trace map rev].
    rewrite <- app_assoc. reflexivity.
Qed.

Lemma push_push (a b : list event) (s : State) :
  push a (push b s) = push (a ++ b) s.
Proof. unfold push. simpl. rewrite app_assoc. reflexivity. Qed.

Lemma emit_push (e : event) (s : State) : emit e s = Next tt (push [e] s).
Proof. reflexivity. Qed.

Lemma bind_emit {B : Type} (e : event) (k : unit -> M B) (s : State) :
  bind (emit e) k s = k tt (push [e] s).
Proof. reflexivity. Qed.

Lemma bind_next {A B : Type} (c : M A) (k : A -> M B) (s s' : State) (a : A) :
  c s = Next a s' -> bind c k s = k a s'.
Proof. intros H. unfold bind. rewrite H. reflexivity. Qed.

Lemma bind_halt {A B : Type} (c : M A) (k : A -> M B) (s s' : State) (x : exit) :
  c s = Halt x s' -> bind c k s = Halt x s'.
Proof. intros H. unfold bind. rewrite H. reflexivity. Qed.

Lemma bind_ret {A B : Type} (a : A) (k : A -> M B) (s : State) :
  bind (ret a) k s = k a s.
Proof. reflexivity. Qed.

Lemma push_nil (s : State) : push [] s = s.
Proof. destruct s. reflexivity. Qed.

Lemma after_step_eq (env : Env) (dir : string) (valid_set : list Batch)
    (loss : float) (tb_logs : dict float) (m : Vocoder) (s : State) :
  (emit (Print (IterationLine (global_step m) loss)) ;;
   when (global_step m mod 50 =? 0) (emit (Print AverageDataLoadingTime)) ;;
   emit (SignalAlarm 0) ;;
   when (global_step m mod LOG_FREQUENCY =? 0)
     (emit (AddScalar "train/loss" loss (global_step m)) ;;
      for_each tb_logs
        (fun kv => emit (AddScalar ("train/" ++ fst kv)%string (snd kv) (global_step m)))) ;;
   when (is_nan loss) (emit (Print DetectedNaNLoss) ;; hard_exit 1) ;;
   when (global_step m mod EVAL_FREQUENCY =? 0)
     (put_model (eval m) ;;
      compute_validation_metrics env valid_set ;;
      m <- get_model ;;
      put_model (train m) ;;
      do_save_model dir) ;;
   when (global_step m mod GENERATE_FREQUENCY =? 0)
     (generate_tensorboard_samples env valid_set GENERATE_NUM_SAMPLES)) s
  = after_step env dir valid_set loss tb_logs m s.
Proof.
  unfold after_step, report_events, periodic.
  rewrite bind_emit.
  assert (H50 : forall (B : Type) (k : unit -> M B) (s0 : State),
             bind (when (global_step m mod 50 =? 0) (emit (Print AverageDataLoadingTime))) k s0
             = k tt (push (if global_step m mod 50 =? 0
                           then [Print AverageDataLoadingTime] else []) s0)).
  { intros B k s0. destruct (global_step m mod 50 =? 0); simpl when.
    - apply bind_emit.
    - rewrite bind_ret, push_nil. reflexivity. }
  rewrite H50, bind_emit.
  assert (Hlog : forall (B : Type) (k : unit -> M B) (s0 : State),
             bind (when (global_step m mod LOG_FREQUENCY =? 0)
                     (emit (AddScalar "train/loss" loss (global_step m)) ;;
                      for_each tb_logs
                        (fun kv => emit (AddScalar ("train/" ++ fst kv)%string (snd kv)
                                           (global_step m))))) k s0
             = k tt (push (if global_step m mod LOG_FREQUENCY =? 0
                           then rev (map (fun kv => AddScalar ("train/" ++ fst kv)%string
                                                      (snd kv) (global_step m)) tb_logs)
                                  ++ [AddScalar "train/loss" loss (global_step m)]
                           else []) s0)).
  { intros B k s0. destruct (global_step m mod LOG_FREQUENCY =? 0); simpl when.
    - apply bind_next. rewrite bind_emit, for_each_emit, push_push. reflexivity.
    - rewrite bind_ret, push_nil. reflexivity. }
  rewrite Hlog, !push_push.
  destruct (is_nan loss); simpl when.
  - rewrite (bind_halt _ _ _ _ (HardExit 1)
               (bind_emit (Print DetectedNaNLoss) (fun _ => hard_exit 1) _)).
    unfold hard_exit. rewrite ?push_push, <- ?app_assoc. reflexivity.
  - rewrite bind_ret. rewrite <- ?app_assoc. reflexivity.
Qed.

Lemma next_train_batch_eq (train_set : list Batch) (s : State) :
  next_train_batch train_set s
  = match draw_batch train_set (train_iterator s) with
    | None =>
        Halt (HardExit 1) (push [Print IterationTookTooLong; Print CompletedEpoch] s)
    | Some (b, rest, lapped) =>
        Next b (mkState (model s) (fs s) rest (started s) (num_iterations s)
                  ((if lapped then [Print CompletedEpoch] else []) ++ trace s))
    end.
Proof.
  destruct s as [md f it st n tr]. unfold next_train_batch, draw_batch.
  cbn [train_iterator]. destruct it as [| b rest]; [| reflexivity].
  destruct train_set as [| b rest]; reflexivity.
Qed.

(** The body of the loop, case by case: a training set that yields nothing
    ends in the alarm; a step the int32 buffer cannot hold is refused; else
    the step is taken and the rest of the body runs. *)
Lemma iteration_eq (env : Env) (dir : string) (train_set valid_set : list Batch)
    (s : State) :
  iteration env dir train_set valid_set s
  = match draw_batch train_set (train_iterator s) with
    | None =>
        Halt (HardExit 1)
          (push [Print IterationTookTooLong; Print CompletedEpoch;
                 SignalAlarm (deadline s)] s)
    | Some (b, rest, lapped) =>
        let b' := on_device env b in
        let '(loss, tb_logs, net') :=
          train_step (vocoder env) (model s) (fst b') (snd b') in
        match set_global_step (global_step (model s) + 1) (set_net net' (model s)) with
        | Raise e =>
            Halt (Uncaught e)
              (mkState (set_net net' (model s)) (fs s) rest (started s)
                 (num_iterations s + 1) (head_events s b' lapped ++ trace s))
        | Ok m1 =>
            after_step env dir valid_set loss tb_logs m1
              (mkState m1 (fs s) rest true (num_iterations s + 1)
                 (head_events s b' lapped ++ trace s))
        end
    end.
Proof.
  unfold iteration.
  rewrite (bind_next is_started _ s s (started s) eq_refl), bind_emit.
  fold (deadline s).
  unfold bind at 1. rewrite next_train_batch_eq.
  cbn [push train_iterator model fs started num_iterations trace].
  destruct (draw_batch train_set (train_iterator s)) as [[[b rest] lapped] |];
    [| reflexivity].
  cbv zeta.
  match goal with
  | |- bind get_model ?k ?s0 = _ => rewrite (bind_next get_model k s0 s0 (model s) eq_refl)
  end.
  rewrite bind_emit.
  destruct (train_step (vocoder env) (model s) (fst (on_device env b))
              (snd (on_device env b))) as [[loss tb_logs] net'].
  unfold bind at 1, put_model at 1. unfold bind at 1, incr_num_iterations at 1.
  unfold bind at 1, get_model at 1.
  cbn [push train_iterator model fs started num_iterations trace].
  unfold bind at 1.
  unfold global_step at 1. unfold set_net at 1. cbn [global_step_buffer].
  fold (global_step (model s)). fold (set_net net' (model s)).
  unfold head_events.
  destruct (set_global_step (global_step (model s) + 1) (set_net net' (model s)))
    as [m1 | e]; cbn [lift]; unfold ret at 1 || unfold raise at 1.
  - unfold bind at 1, put_model at 1. unfold bind at 1, set_started at 1.
    cbn [push train_iterator model fs started num_iterations trace].
    rewrite after_step_eq. cbn [app]. rewrite <- app_assoc. reflexivity.
  - cbn [app]. rewrite <- app_assoc. reflexivity.
Qed.

(** ** Computations that only add events *)

Section Quiet.
Variable m : Vocoder.
Variable P : event -> Prop.

Lemma quiet_ret {A : Type} (a : A) : quiet m P (ret a).
Proof.
  intros s _. exists []. split; [constructor |]. left. exists a.
  rewrite push_nil. reflexivity.
Qed.

Lemma quiet_emit (e : event) : P e -> quiet m P (emit e).
Proof.
  intros He s _. exists [e]. split; [repeat constructor; exact He |].
  left. exists tt. reflexivity.
Qed.

Lemma quiet_raise {A : Type} (e : exn) : quiet m P (@raise A e).
Proof.
  intros s _. exists []. split; [constructor |]. right. exists e.
  rewrite push_nil. reflexivity.
Qed.

Lemma quiet_lift {A : Type} (r : result A) : quiet m P (lift r).
Proof. destruct r; [apply quiet_ret | apply quiet_raise]. Qed.

Lemma quiet_get_model (k : Vocoder -> M unit) :
  quiet m P (k m) -> quiet m P (bind get_model k).
Proof.
  intros Hk s Hs. unfold bind, get_model. rewrite Hs. apply Hk. exact Hs.
Qed.

Lemma quiet_bind {A B : Type} (c : M A) (k : A -> M B) :
  quiet m P c -> (forall a, quiet m P (k a)) -> quiet m P (bind c k).
Proof.
  intros Hc Hk s Hs. destruct (Hc s Hs) as [new [Hnew [[a Ha] | [e He]]]].
  - destruct (Hk a (push new s)) as [new' [Hnew' Hres]]; [exact Hs |].
    exists (new' ++ new). split; [apply Forall_app; split; assumption |].
    rewrite (bind_next c k s (push new s) a Ha), <- push_push. exact Hres.
  - exists new. split; [exact Hnew |]. right. exists e.
    apply bind_halt. exact He.
Qed.

Lemma quiet_when (b : bool) (c : M unit) : quiet m P c -> quiet m P (when b c).
Proof. destruct b; [auto | intros _; apply quiet_ret]. Qed.

Lemma quiet_for_each {A : Type} (l : list A) (body : A -> M unit) :
  (forall x, quiet m P (body x)) -> quiet m P (for_each l body).
Proof.
  intros Hbody. induction l as [| x rest IH]; simpl.
  - apply quiet_ret.
  - apply quiet_bind; [apply Hbody | intros _; exact IH].
Qed.
End Quiet.

Lemma substring_skip_more (a b : string) (k n : nat) :
  substring (String.length a + k) n (a ++ b)%string = substring k n b.
Proof. induction a as [| c a IH]; simpl; [reflexivity | exact IH]. Qed.

Lemma ends_with_app_long (suffix a b : string) :
  (String.length suffix <= String.length b)%nat ->
  ends_with suffix (a ++ b)%string = ends_with suffix b.
Proof.
  intros Hlen. unfold ends_with. rewrite string_length_app.
  replace (String.length a + String.length b - String.length suffix)%nat
    with (String.length a + (String.length b - String.length suffix))%nat by lia.
  rewrite substring_skip_more.
  replace (String.length suffix <=? String.length a + String.length b)%nat
    with true by (symmetry; apply Nat.leb_le; lia).
  replace (String.length suffix <=? String.length b)%nat
    with true by (symmetry; apply Nat.leb_le; lia).
  reflexivity.
Qed.

Lemma synthesized_tag_not_real (idx : nat) :
  ends_with "_real" (synthesized_tag idx) = false.
Proof.
  unfold synthesized_tag.
  rewrite ends_with_app_long by (rewrite string_length_app; simpl; lia).
  rewrite ends_with_app_long by (simpl; lia).
  reflexivity.
Qed.

Lemma write_samples_quiet (m : Vocoder) (samples : list (Batch * Tensor)) :
  forall idx, quiet m (periodic_event (global_step m)) (write_samples m idx samples).
Proof.
  induction samples as [| [b wav] rest IH]; intros idx; simpl.
  - apply quiet_ret.
  - apply quiet_bind.
    + destruct (global_step m =? 0) eqn:E; simpl.
      * apply quiet_emit. simpl. split; [reflexivity |].
        apply Z.eqb_eq in E. intros Hne. contradiction.
      * apply quiet_ret.
    + intros _. apply quiet_bind.
      * apply quiet_emit. simpl. split; [reflexivity |].
        intros _. apply synthesized_tag_not_real.
      * intros _. apply IH.
Qed.

Lemma generate_tensorboard_samples_quiet (env : Env) (m : Vocoder)
    (dataloader : list Batch) (n_samples : nat) :
  quiet m (periodic_event (global_step m))
    (generate_tensorboard_samples env dataloader n_samples).
Proof.
  unfold generate_tensorboard_samples.
  apply quiet_bind; [apply quiet_lift |]. intros data.
  apply quiet_get_model. apply write_samples_quiet.
Qed.

Lemma compute_validation_metrics_quiet (env : Env) (m : Vocoder)
    (dataloader : list Batch) :
  quiet m (periodic_event (global_step m))
    (compute_validation_metrics env dataloader).
Proof.
  unfold compute_validation_metrics.
  apply quiet_bind; [apply quiet_emit; exact I |]. intros _.
  apply quiet_get_model.
  destruct (map _ dataloader) as [| first rest].
  - apply quiet_emit. exact I.
  - apply quiet_for_each. intros key.
    apply quiet_bind; [apply quiet_lift |]. intros key_losses.
    apply quiet_bind; [apply quiet_emit; exact I |]. intros _.
    apply quiet_emit. reflexivity.
Qed.

Lemma do_save_model_eq (dir : string) (s : State) :
  exists fs',
    save_model (model s) dir (fs s) = Ok fs'
    /\ do_save_model dir s
       = Next tt (mkState (model s) fs' (train_iterator s) (started s) (num_iterations s)
                    (TorchSave (checkpoint_path dir (global_step (model s))) :: trace s)).
Proof.
  destruct (save_model_writes (model s) dir (fs s)) as [fs' [Hsave _]].
  exists fs'. split; [exact Hsave |].
  unfold do_save_model, bind, get_model. rewrite Hsave. reflexivity.
Qed.
(** ** The periodic phases *)

Lemma periodic_events_silent (g : Z) (l : list event) :
  Forall (periodic_event g) l ->
  saved_paths l = [] /\ fed_batches l = [] /\ iteration_steps l = []
  /\ filter is_lap l = [] /\ filter is_train_step l = []
  /\ (g <> 0 -> filter is_ground_truth l = []).
Proof.
  induction 1 as [| e rest He _ IH].
  - repeat split; reflexivity.
  - destruct IH as [H1 [H2 [H3 [H4 [H5 H6]]]]].
    unfold saved_paths, fed_batches, iteration_steps in *.
    destruct e as [[] | | | | tag wav step |]; simpl in He; try contradiction;
      cbn [flat_map filter is_lap is_train_step is_ground_truth app];
      rewrite ?H1, ?H2, ?H3, ?H4, ?H5; repeat split; try reflexivity; try exact H6.
    intros Hg. destruct He as [_ He]. rewrite (He Hg). apply H6. exact Hg.
Qed.

Lemma periodic_or_save_paths (dir : string) (g : Z) (l : list event) :
  Forall (fun e => periodic_event g e \/ e = TorchSave (checkpoint_path dir g)) l ->
  fed_batches l = [] /\ iteration_steps l = []
  /\ filter is_lap l = [] /\ filter is_train_step l = []
  /\ (g <> 0 -> filter is_ground_truth l = []).
Proof.
  induction 1 as [| e rest He _ IH].
  - repeat split; reflexivity.
  - destruct IH as [H2 [H3 [H4 [H5 H6]]]].
    unfold fed_batches, iteration_steps in *.
    destruct He as [He | ->].
    + destruct e as [[] | | | | tag wav step |]; simpl in He; try contradiction;
        cbn [flat_map filter is_lap is_train_step is_ground_truth app];
        rewrite ?H2, ?H3, ?H4, ?H5; repeat split; try reflexivity; try exact H6.
      intros Hg. destruct He as [_ He]. rewrite (He Hg). apply H6. exact Hg.
    + cbn [flat_map filter is_lap is_train_step is_ground_truth app].
      rewrite ?H2, ?H3, ?H4, ?H5. repeat split; try reflexivity; exact H6.
Qed.


Lemma periodic_spec (env : Env) (dir : string) (valid_set : list Batch)
    (m : Vocoder) (s1 : State) :
  model s1 = m ->
  exists (new : list event) (s' : State) (saved : bool),
    (periodic env dir valid_set m s1 = Next tt s'
     \/ exists e, periodic env dir valid_set m s1 = Halt (Uncaught e) s')
    /\ trace s' = new ++ trace s1
    /\ Forall (fun e => periodic_event (global_step m) e
                        \/ e = TorchSave (checkpoint_path dir (global_step m))) new
    /\ saved_paths new
       = (if saved then [checkpoint_path dir (global_step m)] else [])
    /\ (saved = false -> fs s' = fs s1)
    /\ (global_step m mod EVAL_FREQUENCY <> 0 -> saved = false)
    /\ global_step (model s') = global_step m
    /\ train_iterator s' = train_iterator s1.
Proof.
  intros Hm.
  assert (Hgen : forall s, global_step (model s) = global_step m ->
            exists new,
              Forall (periodic_event (global_step m)) new
              /\ ((when (global_step m mod GENERATE_FREQUENCY =? 0)
                     (generate_tensorboard_samples env valid_set GENERATE_NUM_SAMPLES)) s
                  = Next tt (push new s)
                  \/ exists e,
                      (when (global_step m mod GENERATE_FREQUENCY =? 0)
                         (generate_tensorboard_samples env valid_set GENERATE_NUM_SAMPLES)) s
                      = Halt (Uncaught e) (push new s))).
  { intros s Hs.
    destruct (quiet_when (model s) (periodic_event (global_step (model s)))
                (global_step m mod GENERATE_FREQUENCY =? 0) _
                (generate_tensorboard_samples_quiet env (model s) valid_set
                   GENERATE_NUM_SAMPLES) s eq_refl)
      as [new [Hnew Hres]].
    rewrite Hs in Hnew. exists new. split; [exact Hnew |].
    destruct Hres as [[[] Ha] | He]; [left; exact Ha | right; exact He]. }
  unfold periodic.
  destruct (global_step m mod EVAL_FREQUENCY =? 0) eqn:Heval.
  - (* validation, then the save, then generation *)
    cbn [when].
    set (s2 := mkState (eval m) (fs s1) (train_iterator s1) (started s1)
                 (num_iterations s1) (trace s1)).
    destruct (compute_validation_metrics_quiet env (eval m) valid_set s2 eq_refl)
      as [vnew [Hvnew Hval]].
    change (global_step (eval m)) with (global_step m) in Hvnew.
    destruct Hval as [[[] Hval] | [e Hval]].
    + set (s3 := mkState (train (eval m)) (fs s1) (train_iterator s1) (started s1)
                   (num_iterations s1) (vnew ++ trace s1)).
      destruct (do_save_model_eq dir s3) as [fs' [_ Hsave]].
      cbn [s3 model fs train_iterator started num_iterations trace] in Hsave.
      change (global_step (train (eval m))) with (global_step m) in Hsave.
      set (s4 := mkState (train (eval m)) fs' (train_iterator s1) (started s1)
                   (num_iterations s1)
                   (TorchSave (checkpoint_path dir (global_step m)) :: vnew ++ trace s1))
        in Hsave.
      assert (Hphase :
                (put_model (eval m) ;;
                 compute_validation_metrics env valid_set ;;
                 m0 <- get_model ;;
                 put_model (train m0) ;;
                 do_save_model dir) s1 = Next tt s4).
      { rewrite (bind_next (put_model (eval m)) _ s1 s2 tt eq_refl).
        rewrite (bind_next _ _ s2 (push vnew s2) tt Hval).
        rewrite (bind_next get_model _ (push vnew s2) (push vnew s2) (eval m) eq_refl).
        rewrite (bind_next (put_model (train (eval m))) _ (push vnew s2) s3 tt eq_refl).
        exact Hsave. }
      destruct (Hgen s4 eq_refl) as [gnew [Hgnew Hres]].
      exists (gnew ++ TorchSave (checkpoint_path dir (global_step m)) :: vnew),
        (push gnew s4), true.
      split.
      { rewrite (bind_next _ _ s1 s4 tt Hphase). exact Hres. }
      split; [unfold push, s4; cbn [trace]; rewrite <- app_assoc; reflexivity |].
      split.
      { apply Forall_app. split.
        - eapply Forall_impl; [| exact Hgnew]. intros e He. left. exact He.
        - constructor; [right; reflexivity |].
          eapply Forall_impl; [| exact Hvnew]. intros e He. left. exact He. }
      split.
      { destruct (periodic_events_silent _ _ Hgnew) as [Hg0 _].
        destruct (periodic_events_silent _ _ Hvnew) as [Hv0 _].
        unfold saved_paths in *. rewrite flat_map_app. cbn [flat_map app].
        rewrite Hg0, Hv0. reflexivity. }
      split; [discriminate |].
      split; [intros Hne; apply Z.eqb_eq in Heval; contradiction |].
      split; reflexivity.
    + exists vnew, (push vnew s2), false.
      split.
      { right. exists e.
        rewrite (bind_halt _ _ s1 (push vnew s2) (Uncaught e)); [reflexivity |].
        rewrite (bind_next (put_model (eval m)) _ s1 s2 tt eq_refl).
        apply bind_halt. exact Hval. }
      split; [reflexivity |].
      split; [eapply Forall_impl; [| exact Hvnew]; intros e0 He0; left; exact He0 |].
      split; [apply (periodic_events_silent _ _ Hvnew) |].
      split; [reflexivity |].
      split; [reflexivity |].
      split; reflexivity.
  - cbn [when]. rewrite bind_ret.
    destruct (Hgen s1 (f_equal global_step Hm)) as [gnew [Hgnew Hres]].
    exists gnew, (push gnew s1), false.
    split; [exact Hres |].
    split; [reflexivity |].
    split; [eapply Forall_impl; [| exact Hgnew]; intros e0 He0; left; exact He0 |].
    split; [apply (periodic_events_silent _ _ Hgnew) |].
    split; [reflexivity |].
    split; [reflexivity |].
    split; [cbn [push model]; rewrite Hm; reflexivity | reflexivity].
Qed.

(** ** Reading the events of one iteration *)

Lemma saved_paths_app (a b : list event) :
  saved_paths (a ++ b) = saved_paths a ++ saved_paths b.
Proof. apply flat_map_app. Qed.

Lemma fed_batches_app (a b : list event) :
  fed_batches (a ++ b) = fed_batches a ++ fed_batches b.
Proof. apply flat_map_app. Qed.

Lemma iteration_steps_app (a b : list event) :
  iteration_steps (a ++ b) = iteration_steps a ++ iteration_steps b.
Proof. apply flat_map_app. Qed.

Lemma train_step_calls_fed (l : list event) :
  train_step_calls l = List.length (fed_batches l).
Proof.
  unfold train_step_calls, fed_batches.
  induction l as [| e rest IH]; [reflexivity |].
  destruct e; simpl; try exact IH. rewrite IH. reflexivity.
Qed.

Lemma silent_events (l : list event) :
  Forall silent l ->
  saved_paths l = [] /\ fed_batches l = [] /\ iteration_steps l = []
  /\ filter is_lap l = [] /\ filter is_ground_truth l = [].
Proof.
  induction 1 as [| e rest He _ IH].
  - repeat split; reflexivity.
  - destruct IH as [H1 [H2 [H3 [H4 H5]]]].
    unfold saved_paths, fed_batches, iteration_steps in *.
    destruct e as [[] | | | | |]; simpl in He; try contradiction;
      cbn [flat_map filter is_lap is_ground_truth app];
      rewrite ?H1, ?H2, ?H3, ?H4, ?H5; repeat split; reflexivity.
Qed.

Lemma report_events_split (loss : float) (tb_logs : dict float) (step : Z) :
  exists quiet_part,
    report_events loss tb_logs step = quiet_part ++ [Print (IterationLine step loss)]
    /\ Forall silent quiet_part.
Proof.
  unfold report_events.
  eexists. split; [rewrite !app_assoc; reflexivity |].
  repeat (apply Forall_app; split).
  - destruct (step mod LOG_FREQUENCY =? 0); [| constructor].
    apply Forall_app. split; [| repeat constructor].
    apply Forall_rev. apply Forall_map. apply Forall_forall. intros kv _. exact I.
  - repeat constructor.
  - destruct (step mod 50 =? 0); repeat constructor.
Qed.

Lemma report_events_read (loss : float) (tb_logs : dict float) (step : Z) :
  saved_paths (report_events loss tb_logs step) = []
  /\ fed_batches (report_events loss tb_logs step) = []
  /\ iteration_steps (report_events loss tb_logs step) = [step]
  /\ filter is_lap (report_events loss tb_logs step) = []
  /\ filter is_ground_truth (report_events loss tb_logs step) = [].
Proof.
  destruct (report_events_split loss tb_logs step) as [q [-> Hq]].
  destruct (silent_events q Hq) as [H1 [H2 [H3 [H4 H5]]]].
  rewrite saved_paths_app, fed_batches_app, iteration_steps_app, !filter_app.
  rewrite H1, H2, H3, H4, H5. repeat split; reflexivity.
Qed.

Lemma head_events_read (s : State) (b : Batch) (lapped : bool) :
  saved_paths (head_events s b lapped) = []
  /\ fed_batches (head_events s b lapped) = [b]
  /\ iteration_steps (head_events s b lapped) = []
  /\ filter is_lap (head_events s b lapped)
     = (if lapped then [Print CompletedEpoch] else [])
  /\ filter is_ground_truth (head_events s b lapped) = [].
Proof.
  unfold head_events. destruct b as [spectrograms waveforms].
  destruct lapped; repeat split; reflexivity.
Qed.

Lemma set_global_step_ok (value : Z) (m m1 : Vocoder) :
  set_global_step value m = Ok m1 ->
  global_step m1 = value /\ net m1 = net m /\ INT32_MIN <= value <= INT32_MAX.
Proof.
  unfold set_global_step.
  destruct ((INT32_MIN <=? value) && (value <=? INT32_MAX)) eqn:E; [| discriminate].
  intros H. injection H as <-. apply andb_prop in E. destruct E as [E1 E2].
  apply Z.leb_le in E1, E2. repeat split; assumption.
Qed.

(** What one turn of the body does, whichever way it ends: over a training
    set that yields a batch, that batch is the only one fed to [train_step],
    the stream restarts at most once, no ground truth is recorded once the
    step is positive, and at most the checkpoint of the new step is saved; a
    turn that completes has raised the global step by one and announced it. *)
Lemma iteration_effect (env : Env) (dir : string) (train_set valid_set : list Batch)
    (s : State) (b : Batch) (rest : list Batch) (lapped : bool) :
  draw_batch train_set (train_iterator s) = Some (b, rest, lapped) ->
  exists (s' : State) (new : list event),
    ((iteration env dir train_set valid_set s = Next tt s'
      /\ global_step (model s') = global_step (model s) + 1
      /\ iteration_steps new = [global_step (model s) + 1])
     \/ exists x, iteration env dir train_set valid_set s = Halt x s')
    /\ trace s' = new ++ trace s
    /\ train_iterator s' = rest
    /\ fed_batches new = [on_device env b]
    /\ filter is_lap new = (if lapped then [Print CompletedEpoch] else [])
    /\ (saved_paths new = []
        \/ saved_paths new = [checkpoint_path dir (global_step (model s) + 1)])
    /\ (0 <= global_step (model s) -> filter is_ground_truth new = []).
Proof.
  intros Hdraw. rewrite iteration_eq, Hdraw. cbv zeta.
  destruct (train_step (vocoder env) (model s) (fst (on_device env b))
              (snd (on_device env b))) as [[loss tb_logs] net'].
  destruct (head_events_read s (on_device env b) lapped) as [Hh1 [Hh2 [Hh3 [Hh4 Hh5]]]].
  destruct (set_global_step (global_step (model s) + 1) (set_net net' (model s)))
    as [m1 | e] eqn:Hset.
  - apply set_global_step_ok in Hset. destruct Hset as [Hg1 _].
    destruct (report_events_read loss tb_logs (global_step m1))
      as [Hr1 [Hr2 [Hr3 [Hr4 Hr5]]]].
    unfold after_step. destruct (is_nan loss).
    + eexists. exists (Print DetectedNaNLoss
                         :: report_events loss tb_logs (global_step m1)
                         ++ head_events s (on_device env b) lapped).
      split; [right; eexists; reflexivity |].
      split; [cbn [push trace app]; rewrite <- app_assoc; reflexivity |].
      split; [reflexivity |].
      change (Print DetectedNaNLoss :: report_events loss tb_logs (global_step m1)
                ++ head_events s (on_device env b) lapped)
        with ([Print DetectedNaNLoss] ++ report_events loss tb_logs (global_step m1)
                ++ head_events s (on_device env b) lapped).
      rewrite !fed_batches_app, !saved_paths_app, !filter_app.
      rewrite Hr1, Hr2, Hr4, Hr5, Hh1, Hh2, Hh4, Hh5.
      repeat split; try reflexivity. left. reflexivity.
    + destruct (periodic_spec env dir valid_set m1
                  (push (report_events loss tb_logs (global_step m1))
                     (mkState m1 (fs s) rest true (num_iterations s + 1)
                        (head_events s (on_device env b) lapped ++ trace s)))
                  eq_refl)
        as [pnew [s' [saved [Hres [Htr [Hev [Hsaved [_ [_ [Hgs Hit]]]]]]]]]].
      destruct (periodic_or_save_paths dir (global_step m1) pnew Hev)
        as [Hp2 [Hp3 [Hp4 [_ Hp6]]]].
      exists s', (pnew ++ report_events loss tb_logs (global_step m1)
                    ++ head_events s (on_device env b) lapped).
      rewrite !fed_batches_app, !saved_paths_app, !iteration_steps_app, !filter_app.
      rewrite Hr1, Hr2, Hr3, Hr4, Hr5, Hh1, Hh2, Hh3, Hh4, Hh5, Hp2, Hp3, Hp4, Hsaved.
      rewrite !app_nil_r. cbn [app].
      split.
      { destruct Hres as [Hres | [e Hres]].
        - left. split; [exact Hres |]. rewrite Hgs, Hg1. split; reflexivity.
        - right. exists (Uncaught e). exact Hres. }
      split; [rewrite Htr; cbn [push trace]; rewrite <- !app_assoc; reflexivity |].
      split; [exact Hit |].
      split; [reflexivity |].
      split; [reflexivity |].
      split; [destruct saved; [right; rewrite Hg1 | left]; reflexivity |].
      intros Hpos. rewrite Hp6; [reflexivity |]. rewrite Hg1. lia.
  - eexists. exists (head_events s (on_device env b) lapped).
    split; [right; eexists; reflexivity |].
    split; [reflexivity |].
    split; [reflexivity |].
    rewrite Hh1, Hh2, Hh4, Hh5. repeat split; try reflexivity. left. reflexivity.
Qed.

(** ** The loop *)

Lemma finish_eq (dir : string) (s : State) :
  exists fs',
    save_model (model s) dir (fs s) = Ok fs'
    /\ finish dir s
       = Next tt (mkState (model s) fs' (train_iterator s) (started s) (num_iterations s)
                    (TorchSave (checkpoint_path dir (global_step (model s)))
                       :: Print CompletedTraining :: trace s)).
Proof.
  unfold finish. rewrite bind_emit.
  destruct (do_save_model_eq dir (push [Print CompletedTraining] s)) as [fs' [Hsave Heq]].
  exists fs'. split; [exact Hsave | exact Heq].
Qed.

Lemma iteration_stall (env : Env) (dir : string) (train_set valid_set : list Batch)
    (s : State) :
  draw_batch train_set (train_iterator s) = None ->
  train_set = []
  /\ iteration env dir train_set valid_set s
     = Halt (HardExit 1)
         (push [Print IterationTookTooLong; Print CompletedEpoch;
                SignalAlarm (deadline s)] s).
Proof.
  intros Hdraw. rewrite iteration_eq, Hdraw. split; [| reflexivity].
  unfold draw_batch in Hdraw.
  destruct (train_iterator s) as [| b rest]; [| discriminate].
  destruct train_set; [reflexivity | discriminate].
Qed.

(** Reasoning about a run by an invariant of the loop. *)
Lemma run_loop_inv (env : Env) (dir : string) (train_set valid_set : list Batch)
    (Inv : State -> Prop) (Post : termination -> State -> Prop) :
  (forall s s', Inv s -> is_done (vocoder env) (model s) = false ->
                iteration env dir train_set valid_set s = Next tt s' -> Inv s') ->
  (forall s x s', Inv s -> is_done (vocoder env) (model s) = false ->
                  iteration env dir train_set valid_set s = Halt x s' ->
                  Post (Exited x) s') ->
  (forall s s', Inv s -> is_done (vocoder env) (model s) = true ->
                finish dir s = Next tt s' -> Post Returned s') ->
  forall (fuel : nat) (s : State) (t : termination) (s' : State),
    Inv s ->
    run_loop env dir train_set valid_set fuel s = Some (t, s') ->
    Post t s'.
Proof.
  intros Hnext Hhalt Hdone. induction fuel as [| fuel IH]; intros s t s' Hinv Hrun.
  - discriminate Hrun.
  - cbn [run_loop] in Hrun.
    destruct (is_done (vocoder env) (model s)) eqn:Hd.
    + destruct (finish_eq dir s) as [fs' [_ Hfin]]. rewrite Hfin in Hrun.
      injection Hrun as <- <-. apply (Hdone s); assumption.
    + destruct (iteration env dir train_set valid_set s) as [[] s1 | x s1] eqn:Hit.
      * apply (IH s1); [| exact Hrun]. apply (Hnext s); assumption.
      * injection Hrun as <- <-. apply (Hhalt s); assumption.
Qed.

Lemma flat_map_rev_small {A B : Type} (f : A -> list B) (l : list A) :
  (forall x, (List.length (f x) <= 1)%nat) ->
  flat_map f (rev l) = rev (flat_map f l).
Proof.
  intros Hsmall. induction l as [| x rest IH]; [reflexivity |].
  simpl. rewrite flat_map_app, IH, rev_app_distr. simpl. rewrite app_nil_r.
  f_equal. specialize (Hsmall x).
  destruct (f x) as [| y [| z more]]; simpl in *; [reflexivity | reflexivity | lia].
Qed.

Lemma iteration_steps_rev (l : list event) :
  iteration_steps (rev l) = rev (iteration_steps l).
Proof.
  apply flat_map_rev_small. intros [[] | | | | |]; simpl; lia.
Qed.

Lemma saved_paths_rev (l : list event) : saved_paths (rev l) = rev (saved_paths l).
Proof. apply flat_map_rev_small. intros [| | | | |]; simpl; lia. Qed.

Lemma fed_batches_rev (l : list event) : fed_batches (rev l) = rev (fed_batches l).
Proof. apply flat_map_rev_small. intros [| | | | |]; simpl; lia. Qed.

Lemma filter_length_rev {A : Type} (f : A -> bool) (l : list A) :
  List.length (filter f (rev l)) = List.length (filter f l).
Proof.
  induction l as [| x rest IH]; [reflexivity |].
  simpl. rewrite filter_app, length_app, IH. simpl.
  destruct (f x); simpl; lia.
Qed.

Lemma train_step_calls_app (a b : list event) :
  train_step_calls (a ++ b) = (train_step_calls a + train_step_calls b)%nat.
Proof. unfold train_step_calls. rewrite filter_app, length_app. reflexivity. Qed.

Lemma initial_global_step (env : Env) (m : Vocoder) (train_set : list Batch)
    (fs0 : FileSystem) :
  global_step (model (initial_state env m train_set fs0)) = global_step m.
Proof. unfold initial_state. destruct (cuda_available env); reflexivity. Qed.

Lemma initial_trace (env : Env) (m : Vocoder) (train_set : list Batch)
    (fs0 : FileSystem) :
  exists line, trace (initial_state env m train_set fs0) = [Print line]
               /\ (line = MovedModelToGPU \/ line = NoGPUDetected).
Proof.
  unfold initial_state. destruct (cuda_available env); eexists; split;
    try reflexivity; auto.
Qed.

(** The loop's count of steps, as an invariant: the global step is the
    number of calls of [train_step] so far, and the steps announced so far
    are that many, counting down to 1. *)
Lemma counting_invariant (env : Env) (dir : string) (train_set valid_set : list Batch)
    (s s' : State) :
  global_step (model s) = Z.of_nat (train_step_calls (trace s)) ->
  iteration_steps (trace s) = rev (map Z.of_nat (seq 1 (train_step_calls (trace s)))) ->
  iteration env dir train_set valid_set s = Next tt s' ->
  global_step (model s') = Z.of_nat (train_step_calls (trace s'))
  /\ iteration_steps (trace s')
     = rev (map Z.of_nat (seq 1 (train_step_calls (trace s')))).
Proof.
  intros Hg Hsteps Hit.
  destruct (draw_batch train_set (train_iterator s)) as [[[b rest] lapped] |] eqn:Hdraw.
  - destruct (iteration_effect env dir train_set valid_set s b rest lapped Hdraw)
      as [s1 [new [Hres [Htr [_ [Hfed _]]]]]].
    destruct Hres as [[Hres [Hg1 Hst1]] | [x Hres]]; [| congruence].
    rewrite Hit in Hres. injection Hres as <-.
    assert (Hcalls : train_step_calls (trace s') = S (train_step_calls (trace s))).
    { rewrite Htr, train_step_calls_app, (train_step_calls_fed new), Hfed. reflexivity. }
    rewrite Hcalls. split.
    + rewrite Hg1, Hg. lia.
    + rewrite Htr, iteration_steps_app, Hst1, Hsteps, Hg.
      rewrite seq_S, map_app, rev_app_distr. simpl.
      f_equal. f_equal. lia.
  - destruct (iteration_stall env dir train_set valid_set s Hdraw) as [_ Hstall].
    congruence.
Qed.

(** ** A NaN loss *)

(** The turn of the body in which [train_step] returns a NaN loss: the step
    is counted and announced, the scalars of [LOG_FREQUENCY] are written if
    the step calls for them, and then the process exits with status 1. *)
Lemma nan_iteration (env : Env) (dir : string) (train_set valid_set : list Batch)
    (s : State) (b : Batch) (rest : list Batch) (lapped : bool)
    (loss : float) (tb_logs : dict float) (net' : Net) :
  draw_batch train_set (train_iterator s) = Some (b, rest, lapped) ->
  train_step (vocoder env) (model s) (fst (on_device env b)) (snd (on_device env b))
  = (loss, tb_logs, net') ->
  is_nan loss = true ->
  INT32_MIN <= global_step (model s) + 1 <= INT32_MAX ->
  iteration env dir train_set valid_set s
  = Halt (HardExit 1)
      (mkState (mkVocoder (global_step (model s) + 1) (buffer_device (model s))
                  (training (model s)) net')
         (fs s) rest true (num_iterations s + 1)
         (Print DetectedNaNLoss
            :: report_events loss tb_logs (global_step (model s) + 1)
            ++ head_events s (on_device env b) lapped ++ trace s)).
Proof.
  intros Hdraw Hstep Hnan Hrange.
  rewrite iteration_eq, Hdraw. cbv zeta. rewrite Hstep.
  unfold set_global_step.
  replace ((INT32_MIN <=? global_step (model s) + 1)
           && (global_step (model s) + 1 <=? INT32_MAX)) with true
    by (symmetry; apply andb_true_intro; split; apply Z.leb_le; lia).
  unfold after_step. rewrite Hnan.
  cbn [push model fs train_iterator started num_iterations trace set_net
         buffer_device training net global_step global_step_buffer app].
  reflexivity.
Qed.

(** C2. When the loss an iteration gets from [train_step] is NaN, the loop
    ends there: the process exits with the non-zero status 1, with the global
    step one above what it was (the increment of that iteration, and no
    other), after the one call of [train_step] (no retry), and with the file
    system and the list of saved checkpoints as they were. *)
Theorem nan_loss_exits (env : Env) (dir : string) (train_set valid_set : list Batch)
    (fuel : nat) (s : State) (b : Batch) (rest : list Batch) (lapped : bool)
    (loss : float) (tb_logs : dict float) (net' : Net) :
  is_done (vocoder env) (model s) = false ->
  draw_batch train_set (train_iterator s) = Some (b, rest, lapped) ->
  train_step (vocoder env) (model s) (fst (on_device env b)) (snd (on_device env b))
  = (loss, tb_logs, net') ->
  is_nan loss = true ->
  INT32_MIN <= global_step (model s) + 1 <= INT32_MAX ->
  exists s',
    run_loop env dir train_set valid_set (S fuel) s = Some (Exited (HardExit 1), s')
    /\ 1 <> 0
    /\ global_step (model s') = global_step (model s) + 1
    /\ fed_batches (trace s') = on_device env b :: fed_batches (trace s)
    /\ fs s' = fs s
    /\ saved_paths (trace s') = saved_paths (trace s).
Proof.
  intros Hdone Hdraw Hstep Hnan Hrange.
  eexists. split.
  - cbn [run_loop]. rewrite Hdone.
    rewrite (nan_iteration env dir train_set valid_set s b rest lapped loss tb_logs net'
               Hdraw Hstep Hnan Hrange).
    reflexivity.
  - cbn [model fs trace].
    destruct (report_events_read loss tb_logs (global_step (model s) + 1))
      as [Hr1 [Hr2 _]].
    destruct (head_events_read s (on_device env b) lapped) as [Hh1 [Hh2 _]].
    change (Print DetectedNaNLoss
              :: report_events loss tb_logs (global_step (model s) + 1)
              ++ head_events s (on_device env b) lapped ++ trace s)
      with ([Print DetectedNaNLoss]
              ++ report_events loss tb_logs (global_step (model s) + 1)
              ++ head_events s (on_device env b) lapped ++ trace s).
    rewrite !fed_batches_app, !saved_paths_app, Hr1, Hr2, Hh1, Hh2.
    repeat split; try reflexivity. lia.
Qed.

Lemma report_events_metrics (loss : float) (tb_logs : dict float) (step : Z) :
  metrics (report_events loss tb_logs step)
  = if step mod LOG_FREQUENCY =? 0
    then rev (map (fun kv => AddScalar ("train/" ++ fst kv)%string (snd kv) step) tb_logs)
           ++ [AddScalar "train/loss" loss step]
    else [].
Proof.
  unfold report_events, metrics. rewrite !filter_app.
  assert (Hlogs : filter is_metric
                    (rev (map (fun kv : string * float =>
                                 AddScalar ("train/" ++ fst kv)%string (snd kv) step)
                            tb_logs))
                  = rev (map (fun kv : string * float =>
                                AddScalar ("train/" ++ fst kv)%string (snd kv) step)
                           tb_logs)).
  { rewrite <- map_rev. induction (rev tb_logs) as [| kv rest IH]; [reflexivity |].
    cbn [map filter is_metric]. rewrite IH. reflexivity. }
  destruct (step mod LOG_FREQUENCY =? 0); destruct (step mod 50 =? 0);
    rewrite ?filter_app, ?Hlogs; cbn [filter is_metric app];
    rewrite ?app_nil_r; reflexivity.
Qed.

(** C3, as amended. In the body of the loop the emission of [LOG_FREQUENCY]
    comes before the test for a NaN loss: an iteration whose loss is NaN first
    writes, when its step is a multiple of [LOG_FREQUENCY], the scalar loss
    and every entry of the losses to log, and only then prints the NaN line
    and exits; when its step is not such a multiple it writes no metric
    record. *)
Theorem nan_loss_is_logged_first (env : Env) (dir : string)
    (train_set valid_set : list Batch)
    (fuel : nat) (s : State) (b : Batch) (rest : list Batch) (lapped : bool)
    (loss : float) (tb_logs : dict float) (net' : Net) :
  is_done (vocoder env) (model s) = false ->
  draw_batch train_set (train_iterator s) = Some (b, rest, lapped) ->
  train_step (vocoder env) (model s) (fst (on_device env b)) (snd (on_device env b))
  = (loss, tb_logs, net') ->
  is_nan loss = true ->
  INT32_MIN <= global_step (model s) + 1 <= INT32_MAX ->
  let step := global_step (model s) + 1 in
  exists s',
    run_loop env dir train_set valid_set (S fuel) s = Some (Exited (HardExit 1), s')
    /\ trace s'
       = Print DetectedNaNLoss
           :: report_events loss tb_logs step
           ++ head_events s (on_device env b) lapped ++ trace s
    /\ metrics (report_events loss tb_logs step)
       = (if step mod LOG_FREQUENCY =? 0
          then rev (map (fun kv => AddScalar ("train/" ++ fst kv)%string (snd kv) step)
                      tb_logs)
                 ++ [AddScalar "train/loss" loss step]
          else [])
    /\ metrics (head_events s (on_device env b) lapped) = [].
Proof.
  intros Hdone Hdraw Hstep Hnan Hrange step.
  eexists. split.
  - cbn [run_loop]. rewrite Hdone.
    rewrite (nan_iteration env dir train_set valid_set s b rest lapped loss tb_logs net'
               Hdraw Hstep Hnan Hrange).
    reflexivity.
  - split; [reflexivity |]. split; [apply report_events_metrics |].
    unfold head_events. destruct lapped; reflexivity.
Qed.

Lemma nan_loss_exits_witness :
  exists s',
    run_loop (Demo.env 100 1) Demo.checkpoints Demo.train_set Demo.valid_set 1
      (Demo.entry 100 1 0) = Some (Exited (HardExit 1), s')
    /\ 1 <> 0
    /\ global_step (model s') = global_step (model (Demo.entry 100 1 0)) + 1
    /\ fed_batches (trace s')
       = on_device (Demo.env 100 1) (Demo.batch 0)
           :: fed_batches (trace (Demo.entry 100 1 0))
    /\ fs s' = fs (Demo.entry 100 1 0)
    /\ saved_paths (trace s') = saved_paths (trace (Demo.entry 100 1 0)).
Proof.
  apply (nan_loss_exits (Demo.env 100 1) Demo.checkpoints Demo.train_set Demo.valid_set
           0 (Demo.entry 100 1 0) (Demo.batch 0) [Demo.batch 1; Demo.batch 2] false
           nan [("aux", 0.5%float)] Demo.gan_net).
  - reflexivity.
  - reflexivity.
  - reflexivity.
  - reflexivity.
  - vm_compute. split; discriminate.
Defined.

Lemma nan_loss_is_logged_first_witness :
  exists s',
    run_loop (Demo.env 100 10) Demo.checkpoints Demo.train_set Demo.valid_set 1
      (Demo.entry 100 10 9) = Some (Exited (HardExit 1), s')
    /\ trace s'
       = Print DetectedNaNLoss
           :: report_events nan [("aux", 0.5%float)] 10
           ++ head_events (Demo.entry 100 10 9)
                (on_device (Demo.env 100 10) (Demo.batch 0)) false
           ++ trace (Demo.entry 100 10 9)
    /\ metrics (report_events nan [("aux", 0.5%float)] 10)
       = [AddScalar "train/aux" 0.5 10; AddScalar "train/loss" nan 10]
    /\ metrics (head_events (Demo.entry 100 10 9)
                  (on_device (Demo.env 100 10) (Demo.batch 0)) false) = [].
Proof.
  apply (nan_loss_is_logged_first (Demo.env 100 10) Demo.checkpoints Demo.train_set
           Demo.valid_set 0 (Demo.entry 100 10 9) (Demo.batch 0)
           [Demo.batch 1; Demo.batch 2] false nan [("aux", 0.5%float)] Demo.gan_net).
  - reflexivity.
  - reflexivity.
  - reflexivity.
  - reflexivity.
  - vm_compute. split; discriminate.
Defined.

(** A fresh model whose tenth loss is NaN: the scalars of step 10, the NaN
    loss among them, are written before the process exits. *)
Lemma nan_loss_reaches_the_metrics_sink :
  exists s',
    train_loop (Demo.env 100 10) (new_vocoder Demo.gan_net) Demo.checkpoints
      Demo.train_set Demo.valid_set [] 20 = Some (Exited (HardExit 1), s')
    /\ firstn 3 (trace s')
       = [Print DetectedNaNLoss; AddScalar "train/aux" 0.5 10;
          AddScalar "train/loss" nan 10]
    /\ is_nan nan = true.
Proof.
  eexists. split; [vm_compute; reflexivity |].
  split; vm_compute; reflexivity.
Qed.

(** ** Saves *)

Lemma sorted_gt_rev (l : list Z) :
  StronglySorted Z.gt l -> StronglySorted Z.lt (rev l).
Proof.
  induction 1 as [| x rest Hs IH Hall]; [constructor |].
  simpl. clear Hs. induction (rev rest) as [| y more IHm] eqn:E.
  - repeat constructor.
  - assert (Hin : forall z, In z (y :: more) -> z < x).
    { intros z Hz. rewrite <- E in Hz. apply in_rev in Hz.
      rewrite Forall_forall in Hall. specialize (Hall z Hz). lia. }
    clear E Hall IHm. revert IH Hin. generalize (y :: more). intros l0 Hsorted Hin.
    induction Hsorted as [| a l1 Hs1 IH1 Ha]; simpl.
    + repeat constructor.
    + constructor.
      * apply IH1. intros z Hz. apply Hin. right. exact Hz.
      * apply Forall_app. split; [exact Ha |].
        constructor; [apply Hin; left; reflexivity | constructor].
Qed.

Lemma sorted_lt_nodup (l : list Z) : StronglySorted Z.lt l -> NoDup l.
Proof.
  induction 1 as [| x rest Hs IH Hall]; constructor; [| exact IH].
  intros Hin. rewrite Forall_forall in Hall. specialize (Hall x Hin). lia.
Qed.

Lemma nodup_map_on {A B : Type} (f : A -> B) (l : list A) :
  (forall a b, In a l -> In b l -> f a = f b -> a = b) ->
  NoDup l -> NoDup (map f l).
Proof.
  intros Hinj Hnd. induction Hnd as [| x rest Hx Hnd IH]; simpl; constructor.
  - intros Hin. apply in_map_iff in Hin. destruct Hin as [y [Hy Hin]].
    apply Hinj in Hy; [subst y; contradiction | right; exact Hin | left; reflexivity].
  - apply IH. intros a b Ha Hb. apply Hinj; right; assumption.
Qed.

Lemma saves_so_far_next (env : Env) (dir : string) (train_set valid_set : list Batch)
    (g0 : Z) (s s' : State) :
  saves_so_far dir g0 s ->
  iteration env dir train_set valid_set s = Next tt s' ->
  saves_so_far dir g0 s'.
Proof.
  intros [Hg0 [dsteps [Hpaths [Hsorted Hall]]]] Hit.
  destruct (draw_batch train_set (train_iterator s)) as [[[b rest] lapped] |] eqn:Hdraw.
  - destruct (iteration_effect env dir train_set valid_set s b rest lapped Hdraw)
      as [s1 [new [Hres [Htr [_ [_ [_ [Hsaved _]]]]]]]].
    destruct Hres as [[Hres [Hg1 _]] | [x Hres]]; [| congruence].
    rewrite Hit in Hres. injection Hres as <-.
    split; [lia |].
    assert (Hall' : Forall (fun k => g0 < k <= global_step (model s')) dsteps).
    { eapply Forall_impl; [| exact Hall]. intros k Hk. simpl in Hk. lia. }
    rewrite Htr, saved_paths_app, Hpaths.
    destruct Hsaved as [-> | ->].
    + exists dsteps. repeat split; assumption.
    + exists ((global_step (model s) + 1) :: dsteps). split; [reflexivity |]. split.
      * constructor; [exact Hsorted |].
        eapply Forall_impl; [| exact Hall]. intros k Hk. simpl in Hk. lia.
      * constructor; [lia | exact Hall'].
  - destruct (iteration_stall env dir train_set valid_set s Hdraw) as [_ Hstall].
    congruence.
Qed.

Lemma saves_so_far_halt (env : Env) (dir : string) (train_set valid_set : list Batch)
    (g0 : Z) (s s' : State) (x : exit) :
  saves_so_far dir g0 s ->
  iteration env dir train_set valid_set s = Halt x s' ->
  exists dsteps,
    saved_paths (trace s') = map (checkpoint_path dir) dsteps
    /\ StronglySorted Z.gt dsteps
    /\ Forall (fun k => g0 < k) dsteps.
Proof.
  intros [Hg0 [dsteps [Hpaths [Hsorted Hall]]]] Hit.
  assert (Hall' : Forall (fun k => g0 < k) dsteps).
  { eapply Forall_impl; [| exact Hall]. intros k Hk. simpl in Hk. lia. }
  destruct (draw_batch train_set (train_iterator s)) as [[[b rest] lapped] |] eqn:Hdraw.
  - destruct (iteration_effect env dir train_set valid_set s b rest lapped Hdraw)
      as [s1 [new [Hres [Htr [_ [_ [_ [Hsaved _]]]]]]]].
    destruct Hres as [[Hres _] | [x1 Hres]]; [congruence |].
    rewrite Hit in Hres. injection Hres as <- <-.
    rewrite Htr, saved_paths_app, Hpaths.
    destruct Hsaved as [-> | ->].
    + exists dsteps. repeat split; assumption.
    + exists ((global_step (model s) + 1) :: dsteps). split; [reflexivity |]. split.
      * constructor; [exact Hsorted |].
        eapply Forall_impl; [| exact Hall]. intros k Hk. simpl in Hk. lia.
      * constructor; [lia | exact Hall'].
  - destruct (iteration_stall env dir train_set valid_set s Hdraw) as [_ Hstall].
    rewrite Hit in Hstall. injection Hstall as _ Hs'. subst s'.
    exists dsteps. cbn [push trace app saved_paths flat_map].
    split; [exact Hpaths |]. split; assumption.
Qed.

(** C7, as amended. In a run of the training loop no save made inside the loop
    rewrites a file written earlier in the run: the saves inside the loop are
    made at strictly increasing steps, all above the step the run started from,
    so to pairwise distinct files. The save that follows the loop writes the
    file of the final step, which no step of a save inside the loop exceeds
    (it is the file of the last of them when the final step is a multiple of
    [EVAL_FREQUENCY]). *)
Theorem saves_in_loop_are_new (env : Env) (m : Vocoder) (dir : string)
    (train_set valid_set : list Batch) (fs0 : FileSystem) (fuel : nat)
    (t : termination) (s' : State) :
  0 <= global_step m ->
  train_loop env m dir train_set valid_set fs0 fuel = Some (t, s') ->
  exists steps,
    saved_paths (history s')
    = map (checkpoint_path dir) steps
        ++ match t with
           | Returned => [checkpoint_path dir (global_step (model s'))]
           | Exited _ => []
           end
    /\ StronglySorted Z.lt steps
    /\ Forall (fun k => global_step m < k) steps
    /\ NoDup (map (checkpoint_path dir) steps)
    /\ (t = Returned -> Forall (fun k => k <= global_step (model s')) steps).
Proof.
  intros Hpos Hrun. unfold train_loop in Hrun.
  assert (Hpost :
            exists dsteps,
              saved_paths (trace s')
              = match t with
                | Returned => [checkpoint_path dir (global_step (model s'))]
                | Exited _ => []
                end ++ map (checkpoint_path dir) dsteps
              /\ StronglySorted Z.gt dsteps
              /\ Forall (fun k => global_step m < k) dsteps
              /\ (t = Returned -> Forall (fun k => k <= global_step (model s')) dsteps)).
  { apply (run_loop_inv env dir train_set valid_set
             (saves_so_far dir (global_step m))
             (fun t s' =>
                exists dsteps,
                  saved_paths (trace s')
                  = match t with
                    | Returned => [checkpoint_path dir (global_step (model s'))]
                    | Exited _ => []
                    end ++ map (checkpoint_path dir) dsteps
                  /\ StronglySorted Z.gt dsteps
                  /\ Forall (fun k => global_step m < k) dsteps
                  /\ (t = Returned ->
                      Forall (fun k => k <= global_step (model s')) dsteps))
             ) with (fuel := fuel) (s := initial_state env m train_set fs0).
    - intros s s1 Hinv _ Hit.
      apply (saves_so_far_next env dir train_set valid_set _ s s1 Hinv Hit).
    - intros s x s1 Hinv _ Hit.
      destruct (saves_so_far_halt env dir train_set valid_set _ s s1 x Hinv Hit)
        as [dsteps [H1 [H2 H3]]].
      exists dsteps. repeat split; try assumption. discriminate.
    - intros s s1 [Hg0 [dsteps [Hpaths [Hsorted Hall]]]] _ Hfin.
      destruct (finish_eq dir s) as [fs' [_ Heq]]. rewrite Heq in Hfin.
      injection Hfin as <-. cbn [model trace].
      exists dsteps. split.
      + change (saved_paths (TorchSave (checkpoint_path dir (global_step (model s)))
                               :: Print CompletedTraining :: trace s))
          with (checkpoint_path dir (global_step (model s)) :: saved_paths (trace s)).
        rewrite Hpaths. reflexivity.
      + split; [exact Hsorted |]. split.
        * eapply Forall_impl; [| exact Hall]. intros k Hk. simpl in Hk. lia.
        * intros _. eapply Forall_impl; [| exact Hall]. intros k Hk. simpl in Hk. lia.
    - split; [rewrite initial_global_step; lia |].
      exists []. destruct (initial_trace env m train_set fs0) as [line [-> _]].
      repeat split; constructor.
    - exact Hrun. }
  destruct Hpost as [dsteps [Hpaths [Hsorted [Habove Hbelow]]]].
  exists (rev dsteps). unfold history.
  assert (Hlt : StronglySorted Z.lt (rev dsteps)) by (apply sorted_gt_rev; exact Hsorted).
  split.
  - rewrite saved_paths_rev, Hpaths, rev_app_distr, map_rev.
    destruct t; reflexivity.
  - split; [exact Hlt |]. split; [apply Forall_rev; exact Habove |]. split.
    + apply nodup_map_on; [| apply sorted_lt_nodup; exact Hlt].
      intros a b Ha Hb. apply checkpoint_path_inj.
      * apply in_rev in Ha. rewrite Forall_forall in Habove.
        specialize (Habove a Ha). lia.
      * apply in_rev in Hb. rewrite Forall_forall in Habove.
        specialize (Habove b Hb). lia.
    + intros Ht. apply Forall_rev. apply Hbelow. exact Ht.
Qed.


Lemma saves_in_loop_are_new_witness :
  exists s',
    train_loop (Demo.env 5003 0) (Demo.at_step 4998 Demo.gan_net) Demo.checkpoints
      Demo.train_set Demo.valid_set [] 6 = Some (Returned, s')
    /\ saved_paths (history s')
       = [checkpoint_path Demo.checkpoints 5000; checkpoint_path Demo.checkpoints 5003]
    /\ exists steps,
        saved_paths (history s')
        = map (checkpoint_path Demo.checkpoints) steps
            ++ [checkpoint_path Demo.checkpoints (global_step (model s'))]
        /\ StronglySorted Z.lt steps
        /\ Forall (fun k => global_step (Demo.at_step 4998 Demo.gan_net) < k) steps
        /\ NoDup (map (checkpoint_path Demo.checkpoints) steps)
        /\ (Returned = Returned -> Forall (fun k => k <= global_step (model s')) steps).
Proof.
  eexists. split; [vm_compute; reflexivity |].
  split; [vm_compute; reflexivity |].
  apply (saves_in_loop_are_new (Demo.env 5003 0) (Demo.at_step 4998 Demo.gan_net)
           Demo.checkpoints Demo.train_set Demo.valid_set [] 6 Returned).
  - vm_compute. discriminate.
  - vm_compute. reflexivity.
Defined.

(** A fresh model that is done at step 5000: the checkpoint of step 5000 is
    saved inside the loop, and the save that follows the loop writes the
    same file again. *)
Lemma final_save_rewrites_checkpoint :
  option_map
    (fun r => (fst r, global_step (model (snd r)), saved_paths (trace (snd r)),
               dict_keys (listing (fs (snd r)) Demo.checkpoints)))
    (train_loop (Demo.env 5000 0) (new_vocoder Demo.gan_net) Demo.checkpoints
       Demo.train_set Demo.valid_set [] (Z.to_nat 5001))
  = Some (Returned, 5000,
          [checkpoint_path Demo.checkpoints 5000; checkpoint_path Demo.checkpoints 5000],
          [checkpoint_name 5000]).
Proof. vm_compute. reflexivity. Qed.

(** ** Recycling the training stream *)

Lemma skipn_cons_inv {A : Type} (p : nat) (l : list A) (b : A) (r : list A) :
  skipn p l = b :: r ->
  (p < List.length l)%nat /\ skipn (S p) l = r /\ firstn (S p) l = firstn p l ++ [b].
Proof.
  revert l. induction p as [| p IH]; intros l H.
  - destruct l as [| x rest]; [discriminate |]. simpl in H. injection H as -> ->.
    simpl. repeat split; try reflexivity. lia.
  - destruct l as [| x rest]; [discriminate |]. simpl in H.
    destruct (IH rest H) as [Hlt [Hs Hf]]. repeat split.
    + simpl. lia.
    + exact Hs.
    + change (firstn (S (S p)) (x :: rest)) with (x :: firstn (S p) rest).
      rewrite Hf. reflexivity.
Qed.

Lemma concat_repeat_snoc {A : Type} (l : list A) (n : nat) :
  List.concat (repeat l n) ++ l = List.concat (repeat l (S n)).
Proof.
  induction n as [| n IH]; simpl.
  - rewrite app_nil_r. reflexivity.
  - rewrite <- app_assoc. simpl in IH. rewrite IH. reflexivity.
Qed.

Lemma length_concat_repeat {A : Type} (l : list A) (n : nat) :
  List.length (List.concat (repeat l n)) = (n * List.length l)%nat.
Proof. induction n as [| n IH]; simpl; [reflexivity | rewrite length_app, IH; reflexivity]. Qed.

Lemma laps_app (a b : list event) : laps (a ++ b) = (laps a + laps b)%nat.
Proof. unfold laps. rewrite filter_app, length_app. reflexivity. Qed.

Lemma stream_position_step (env : Env) (train_set : list Batch) (s s' : State)
    (b : Batch) (rest : list Batch) (lapped : bool) (new : list event) :
  stream_position env train_set s ->
  draw_batch train_set (train_iterator s) = Some (b, rest, lapped) ->
  trace s' = new ++ trace s ->
  train_iterator s' = rest ->
  fed_batches new = [on_device env b] ->
  filter is_lap new = (if lapped then [Print CompletedEpoch] else []) ->
  stream_position env train_set s'.
Proof.
  intros [p [Hp [Hit Hfed]]] Hdraw Htr Hit' Hnew Hlap.
  assert (Hfed' : rev (fed_batches (trace s'))
                  = rev (fed_batches (trace s)) ++ [on_device env b]).
  { rewrite Htr, fed_batches_app, Hnew, rev_app_distr. reflexivity. }
  assert (Hlaps : laps (trace s')
                  = ((if lapped then 1 else 0) + laps (trace s))%nat).
  { rewrite Htr, laps_app. unfold laps at 1. rewrite Hlap. destruct lapped; reflexivity. }
  unfold draw_batch in Hdraw. rewrite Hit in Hdraw.
  destruct (skipn p train_set) as [| b1 rest1] eqn:Hskip.
  - destruct train_set as [| b1 rest1] eqn:Hts; [discriminate |].
    injection Hdraw as <- <- <-.
    exists 1%nat. split; [simpl; lia |]. split; [rewrite Hit'; reflexivity |].
    rewrite Hfed', Hfed, Hlaps.
    assert (Hfull : firstn p (b1 :: rest1) = b1 :: rest1).
    { apply firstn_all2.
      destruct (Nat.le_gt_cases (List.length (b1 :: rest1)) p) as [Hle | Hgt];
        [exact Hle |].
      pose proof (length_skipn p (b1 :: rest1)) as Hl. rewrite Hskip in Hl.
      cbn [List.length] in Hl, Hgt. lia. }
    rewrite Hfull, concat_repeat_snoc.
    change (firstn 1 (b1 :: rest1)) with [b1].
    rewrite <- map_last. reflexivity.
  - injection Hdraw as <- <- <-.
    destruct (skipn_cons_inv p train_set b1 rest1 Hskip) as [Hlt [Hs Hf]].
    exists (S p). split; [lia |]. split; [rewrite Hit', Hs; reflexivity |].
    rewrite Hfed', Hfed, Hlaps, Hf. cbn [Nat.add].
    rewrite app_assoc, !map_app. reflexivity.
Qed.

Lemma stream_position_iteration (env : Env) (dir : string)
    (train_set valid_set : list Batch) (s s' : State) :
  train_set <> [] ->
  stream_position env train_set s ->
  (iteration env dir train_set valid_set s = Next tt s'
   \/ exists x, iteration env dir train_set valid_set s = Halt x s') ->
  stream_position env train_set s'.
Proof.
  intros Hne Hinv Hit.
  destruct (draw_batch train_set (train_iterator s)) as [[[b rest] lapped] |] eqn:Hdraw.
  - destruct (iteration_effect env dir train_set valid_set s b rest lapped Hdraw)
      as [s1 [new [Hres [Htr [Hrest [Hfed [Hlap _]]]]]]].
    assert (Hs : s1 = s').
    { destruct Hres as [[Hres _] | [x1 Hres]]; destruct Hit as [Hit | [x Hit]];
        rewrite Hit in Hres; try discriminate; injection Hres; intros; subst; reflexivity. }
    subst s1.
    apply (stream_position_step env train_set s s' b rest lapped new); assumption.
  - destruct (iteration_stall env dir train_set valid_set s Hdraw) as [Hempty _].
    contradiction.
Qed.

(** C8, as amended. A run of the training loop over a training stream of
    three batches that makes ten training steps feeds the batches of three
    full passes and then the first batch of a fourth pass; the stream has
    restarted three times, a lap-completion line being printed each time, and
    two batches of the fourth pass are left. *)
Theorem ten_steps_over_three_batches (env : Env) (m : Vocoder) (dir : string)
    (b0 b1 b2 : Batch) (valid_set : list Batch) (fs0 : FileSystem) (fuel : nat)
    (t : termination) (s' : State) :
  train_loop env m dir [b0; b1; b2] valid_set fs0 fuel = Some (t, s') ->
  train_step_calls (history s') = 10%nat ->
  laps (history s') = 3%nat
  /\ fed_batches (history s')
     = map (on_device env) ([b0; b1; b2] ++ [b0; b1; b2] ++ [b0; b1; b2] ++ [b0])
  /\ train_iterator s' = [b1; b2].
Proof.
  intros Hrun Hcalls. unfold train_loop in Hrun.
  assert (Hinv : stream_position env [b0; b1; b2] s').
  { apply (run_loop_inv env dir [b0; b1; b2] valid_set
             (stream_position env [b0; b1; b2])
             (fun _ s => stream_position env [b0; b1; b2] s))
      with (fuel := fuel) (s := initial_state env m [b0; b1; b2] fs0) (t := t).
    - intros s s1 Hinv _ Hit.
      apply (stream_position_iteration env dir [b0; b1; b2] valid_set s s1);
        [discriminate | exact Hinv | left; exact Hit].
    - intros s x s1 Hinv _ Hit.
      apply (stream_position_iteration env dir [b0; b1; b2] valid_set s s1);
        [discriminate | exact Hinv | right; exists x; exact Hit].
    - intros s s1 [p [Hp [Hit Hfed]]] _ Hfin.
      destruct (finish_eq dir s) as [fs' [_ Heq]]. rewrite Heq in Hfin.
      injection Hfin as <-. exists p. cbn [trace train_iterator].
      split; [exact Hp |]. split; [exact Hit | exact Hfed].
    - exists 0%nat. split; [simpl; lia |]. split; [reflexivity |].
      destruct (initial_trace env m [b0; b1; b2] fs0) as [line [-> [-> | ->]]];
        reflexivity.
    - exact Hrun. }
  destruct Hinv as [p [Hp [Hit Hfed]]].
  unfold history in *.
  assert (Hlapsrev : laps (rev (trace s')) = laps (trace s')) by apply filter_length_rev.
  assert (Hcallsrev : train_step_calls (rev (trace s'))
                      = List.length (rev (fed_batches (trace s')))).
  { rewrite train_step_calls_fed, fed_batches_rev. reflexivity. }
  rewrite Hcallsrev, Hfed, length_map, length_app, length_concat_repeat, length_firstn
    in Hcalls.
  simpl List.length in Hcalls, Hp.
  assert (Hpl : p = 1%nat /\ laps (trace s') = 3%nat) by lia.
  destruct Hpl as [-> Hl].
  rewrite Hlapsrev, fed_batches_rev, Hfed, Hl, Hit.
  repeat split; reflexivity.
Qed.

Lemma ten_steps_over_three_batches_witness :
  exists s',
    train_loop (Demo.env 10 0) (new_vocoder Demo.gan_net) Demo.checkpoints
      [Demo.batch 0; Demo.batch 1; Demo.batch 2] Demo.valid_set [] 11
    = Some (Returned, s')
    /\ train_step_calls (history s') = 10%nat
    /\ laps (history s') = 3%nat
    /\ fed_batches (history s')
       = map (on_device (Demo.env 10 0))
           ([Demo.batch 0; Demo.batch 1; Demo.batch 2]
              ++ [Demo.batch 0; Demo.batch 1; Demo.batch 2]
              ++ [Demo.batch 0; Demo.batch 1; Demo.batch 2] ++ [Demo.batch 0])
    /\ train_iterator s' = [Demo.batch 1; Demo.batch 2].
Proof.
  eexists. split; [vm_compute; reflexivity |].
  split; [vm_compute; reflexivity |].
  apply (ten_steps_over_three_batches (Demo.env 10 0) (new_vocoder Demo.gan_net)
           Demo.checkpoints (Demo.batch 0) (Demo.batch 1) (Demo.batch 2)
           Demo.valid_set [] 11 Returned).
  - vm_compute. reflexivity.
  - vm_compute. reflexivity.
Defined.

(** Ten training steps over a stream of three batches: the stream restarts
    three times, not twice. *)
Lemma stream_restarts_three_times :
  option_map (fun r => (fst r, train_step_calls (history (snd r)), laps (history (snd r))))
    (train_loop (Demo.env 10 0) (new_vocoder Demo.gan_net) Demo.checkpoints
       Demo.train_set Demo.valid_set [] 11)
  = Some (Returned, 10%nat, 3%nat)
  /\ List.length Demo.train_set = 3%nat
  /\ 3%nat <> 2%nat.
Proof. split; [vm_compute; reflexivity |]. split; [reflexivity | discriminate]. Qed.


(** ** The sample generator *)

(** What the sample generator writes from a validation set of at least two
    batches: it draws the first two; at global step 0 each synthesized record
    comes with the ground truth, at any other step alone. *)
Lemma generate_tensorboard_samples_records (env : Env) (s : State)
    (b1 b2 : Batch) (rest : list Batch) :
  let m := model s in
  let g := global_step m in
  generate_tensorboard_samples env (b1 :: b2 :: rest) GENERATE_NUM_SAMPLES s
  = Next tt
      (push
         (rev (if g =? 0
               then [AddAudio (real_tag 0) (snd b1) g;
                     AddAudio (synthesized_tag 0) (generate (vocoder env) m (fst b1)) g;
                     AddAudio (real_tag 1) (snd b2) g;
                     AddAudio (synthesized_tag 1) (generate (vocoder env) m (fst b2)) g]
               else [AddAudio (synthesized_tag 0) (generate (vocoder env) m (fst b1)) g;
                     AddAudio (synthesized_tag 1) (generate (vocoder env) m (fst b2)) g]))
         s).
Proof.
  intros m g. unfold generate_tensorboard_samples, GENERATE_NUM_SAMPLES.
  cbn [draw rbind lift]. rewrite bind_ret.
  rewrite (bind_next get_model _ s s m eq_refl).
  cbn [map combine write_samples]. fold g.
  destruct (g =? 0); cbn [when]; rewrite ?bind_ret, ?bind_emit; unfold ret;
    rewrite ?push_push; reflexivity.
Qed.

(** The sample generator raises [StopIteration] on a validation set of fewer
    batches than it is to draw. *)
Lemma generate_tensorboard_samples_short (env : Env) (s : State) (dataloader : list Batch) :
  (List.length dataloader < GENERATE_NUM_SAMPLES)%nat ->
  generate_tensorboard_samples env dataloader GENERATE_NUM_SAMPLES s
  = Halt (Uncaught StopIteration) s.
Proof.
  unfold generate_tensorboard_samples, GENERATE_NUM_SAMPLES. intros Hlen.
  destruct dataloader as [| b1 [| b2 rest]]; simpl in Hlen; try lia; reflexivity.
Qed.

(** The training loop calls the sample generator only after the global step
    was raised: whatever the model, the data and the way the run ends, a run
    that starts at a step that is not negative writes no ground-truth audio
    record. *)
Theorem training_never_records_ground_truth (env : Env) (m : Vocoder) (dir : string)
    (train_set valid_set : list Batch) (fs0 : FileSystem) (fuel : nat)
    (t : termination) (s' : State) :
  0 <= global_step m ->
  train_loop env m dir train_set valid_set fs0 fuel = Some (t, s') ->
  filter is_ground_truth (trace s') = [].
Proof.
  intros Hpos Hrun. unfold train_loop in Hrun.
  apply (run_loop_inv env dir train_set valid_set
           (fun s => 0 <= global_step (model s)
                     /\ filter is_ground_truth (trace s) = [])
           (fun _ s => filter is_ground_truth (trace s) = []))
    with (fuel := fuel) (s := initial_state env m train_set fs0) (t := t).
  - intros s s1 [Hg Hnone] _ Hit.
    destruct (draw_batch train_set (train_iterator s)) as [[[b rest] lapped] |] eqn:Hdraw.
    + destruct (iteration_effect env dir train_set valid_set s b rest lapped Hdraw)
        as [s2 [new [Hres [Htr [_ [_ [_ [_ Hgt]]]]]]]].
      destruct Hres as [[Hres [Hg1 _]] | [x Hres]]; [| congruence].
      rewrite Hit in Hres. injection Hres as <-.
      split; [lia |]. rewrite Htr, filter_app, (Hgt Hg), Hnone. reflexivity.
    + destruct (iteration_stall env dir train_set valid_set s Hdraw) as [_ Hstall].
      congruence.
  - intros s x s1 [Hg Hnone] _ Hit.
    destruct (draw_batch train_set (train_iterator s)) as [[[b rest] lapped] |] eqn:Hdraw.
    + destruct (iteration_effect env dir train_set valid_set s b rest lapped Hdraw)
        as [s2 [new [Hres [Htr [_ [_ [_ [_ Hgt]]]]]]]].
      destruct Hres as [[Hres _] | [x1 Hres]]; [congruence |].
      rewrite Hit in Hres. injection Hres as _ <-.
      rewrite Htr, filter_app, (Hgt Hg), Hnone. reflexivity.
    + destruct (iteration_stall env dir train_set valid_set s Hdraw) as [_ Hstall].
      rewrite Hit in Hstall. injection Hstall as _ ->. exact Hnone.
  - intros s s1 [_ Hnone] _ Hfin.
    destruct (finish_eq dir s) as [fs' [_ Heq]]. rewrite Heq in Hfin.
    injection Hfin as <-. exact Hnone.
  - rewrite initial_global_step. split; [exact Hpos |].
    destruct (initial_trace env m train_set fs0) as [line [-> _]]. reflexivity.
  - exact Hrun.
Qed.

Lemma training_never_records_ground_truth_witness :
  exists s',
    train_loop (Demo.env 100000 0) (Demo.at_step 99999 Demo.gan_net) Demo.checkpoints
      Demo.train_set Demo.valid_set [] 2 = Some (Returned, s')
    /\ audio_records (trace s')
       = [AddAudio (synthesized_tag 0) (Demo.scalar 7) 100000;
          AddAudio (synthesized_tag 1) (Demo.scalar 8) 100000]
    /\ filter is_ground_truth (trace s') = [].
Proof.
  eexists. split; [vm_compute; reflexivity |].
  split; [vm_compute; reflexivity |].
  apply (training_never_records_ground_truth (Demo.env 100000 0)
           (Demo.at_step 99999 Demo.gan_net) Demo.checkpoints
           Demo.train_set Demo.valid_set [] 2 Returned).
  - vm_compute. discriminate.
  - vm_compute. reflexivity.
Defined.

Lemma draw_firstn (n_samples : nat) :
  forall data_iter : list Batch,
    (n_samples <= List.length data_iter)%nat ->
    draw n_samples data_iter = Ok (firstn n_samples data_iter).
Proof.
  induction n_samples as [| n IH]; intros data_iter Hlen; [reflexivity |].
  destruct data_iter as [| b rest]; [simpl in Hlen; lia |].
  cbn [draw firstn]. rewrite IH by (simpl in Hlen; lia). reflexivity.
Qed.

(** What the loop over [enumerate(wavs)] writes for the batches [data],
    numbered from [idx]. *)
Lemma write_samples_records (env : Env) (m : Vocoder) :
  forall (data : list Batch) (idx : nat) (s : State),
    write_samples m idx
      (combine data (map (fun b => generate (vocoder env) m (fst b)) data)) s
    = Next tt
        (push
           (rev (flat_map
                   (fun ib : nat * Batch =>
                      (if global_step m =? 0
                       then [AddAudio (real_tag (fst ib)) (snd (snd ib)) (global_step m)]
                       else [])
                        ++ [AddAudio (synthesized_tag (fst ib))
                              (generate (vocoder env) m (fst (snd ib))) (global_step m)])
                   (combine (seq idx (List.length data)) data)))
           s).
Proof.
  induction data as [| b rest IH]; intros idx s.
  - cbn. unfold ret. rewrite push_nil. reflexivity.
  - cbn [combine map write_samples List.length seq flat_map fst snd].
    destruct (global_step m =? 0); cbn [when];
      rewrite ?bind_ret, ?bind_emit, IH, ?push_push;
      rewrite rev_app_distr; cbn [rev app]; rewrite <- ?app_assoc; reflexivity.
Qed.

(** C9. The sample generator draws exactly the first [n_samples] batches of
    the validation data, whatever [n_samples] is (the loop calls it with
    [GENERATE_NUM_SAMPLES], 2), and writes for each of them, in order: at
    global step 0 the ground-truth waveform of the batch and then the
    synthesized one, at any other global step the synthesized one alone. It
    changes nothing else. *)
Theorem generate_tensorboard_samples_draws (env : Env) (s : State)
    (dataloader : list Batch) (n_samples : nat) :
  (n_samples <= List.length dataloader)%nat ->
  let m := model s in
  let g := global_step m in
  let data := firstn n_samples dataloader in
  draw n_samples dataloader = Ok data
  /\ List.length data = n_samples
  /\ generate_tensorboard_samples env dataloader n_samples s
     = Next tt
         (push
            (rev (flat_map
                    (fun ib : nat * Batch =>
                       (if g =? 0
                        then [AddAudio (real_tag (fst ib)) (snd (snd ib)) g]
                        else [])
                         ++ [AddAudio (synthesized_tag (fst ib))
                               (generate (vocoder env) m (fst (snd ib))) g])
                    (combine (seq 0 n_samples) data)))
            s).
Proof.
  intros Hlen m g data.
  assert (Hdata : List.length data = n_samples).
  { unfold data. apply firstn_length_le. exact Hlen. }
  split; [apply draw_firstn; exact Hlen |]. split; [exact Hdata |].
  unfold generate_tensorboard_samples.
  rewrite (draw_firstn n_samples dataloader Hlen). fold data.
  cbn [lift]. rewrite bind_ret.
  rewrite (bind_next get_model _ s s m eq_refl).
  rewrite (write_samples_records env m data 0 s), Hdata. reflexivity.
Qed.

Lemma generate_tensorboard_samples_draws_witness :
  generate_tensorboard_samples (Demo.env 10 0)
    [Demo.batch 7; Demo.batch 8; Demo.batch 9; Demo.batch 10] 3 (Demo.entry 10 0 0)
  = Next tt
      (push (rev [AddAudio (real_tag 0) (Demo.scalar 107) 0;
                  AddAudio (synthesized_tag 0) (Demo.scalar 7) 0;
                  AddAudio (real_tag 1) (Demo.scalar 108) 0;
                  AddAudio (synthesized_tag 1) (Demo.scalar 8) 0;
                  AddAudio (real_tag 2) (Demo.scalar 109) 0;
                  AddAudio (synthesized_tag 2) (Demo.scalar 9) 0])
         (Demo.entry 10 0 0))
  /\ generate_tensorboard_samples (Demo.env 10 0)
       [Demo.batch 7; Demo.batch 8; Demo.batch 9; Demo.batch 10] 3 (Demo.entry 10 0 5)
     = Next tt
         (push (rev [AddAudio (synthesized_tag 0) (Demo.scalar 7) 5;
                     AddAudio (synthesized_tag 1) (Demo.scalar 8) 5;
                     AddAudio (synthesized_tag 2) (Demo.scalar 9) 5])
            (Demo.entry 10 0 5)).
Proof.
  split.
  - refine (proj2 (proj2 (generate_tensorboard_samples_draws (Demo.env 10 0)
                            (Demo.entry 10 0 0)
                            [Demo.batch 7; Demo.batch 8; Demo.batch 9; Demo.batch 10]
                            3 _))).
    simpl. lia.
  - refine (proj2 (proj2 (generate_tensorboard_samples_draws (Demo.env 10 0)
                            (Demo.entry 10 0 5)
                            [Demo.batch 7; Demo.batch 8; Demo.batch 9; Demo.batch 10]
                            3 _))).
    simpl. lia.
Defined.

(** ** The validation runner *)

Lemma key_losses_of_total (key : string) (losses : list (dict float)) :
  (forall d, In d losses -> In key (dict_keys d)) ->
  exists xs,
    key_losses_of key losses = Ok xs
    /\ Forall2 (fun d x => dict_get key d = Some x) losses xs.
Proof.
  induction losses as [| d rest IH]; intros Hkeys.
  - exists []. split; [reflexivity | constructor].
  - destruct IH as [xs [Hxs Hall]]; [intros d' Hd'; apply Hkeys; right; exact Hd' |].
    assert (Hd : dict_get key d <> None).
    { apply dict_get_in_keys. apply Hkeys. left. reflexivity. }
    destruct (dict_get key d) as [x |] eqn:E; [| congruence].
    exists (x :: xs). split.
    + cbn [key_losses_of]. rewrite E, Hxs. reflexivity.
    + constructor; assumption.
Qed.

Lemma Forall2_of_map {A B C : Type} (R : B -> C -> Prop) (f : A -> B)
    (l : list A) (xs : list C) :
  Forall2 R (map f l) xs -> Forall2 (fun a x => R (f a) x) l xs.
Proof.
  revert xs. induction l as [| a rest IH]; intros xs H; inversion H; subst.
  - constructor.
  - constructor; [assumption | apply IH; assumption].
Qed.

Lemma bind_assoc {A B C : Type} (c : M A) (k1 : A -> M B) (k2 : B -> M C) (s : State) :
  bind (bind c k1) k2 s = bind c (fun a => bind (k1 a) k2) s.
Proof. unfold bind. destruct (c s); reflexivity. Qed.

Lemma sorted_keys_a_b (keys : list string) :
  Permutation keys ["a"; "b"] -> sorted_by (fun k => k) keys = ["a"; "b"].
Proof.
  intros Hperm. apply Permutation_sym in Hperm.
  apply Permutation_length_2_inv in Hperm. destruct Hperm as [-> | ->]; reflexivity.
Qed.

(** C10. For a validation set that is not empty and whose batches all report
    the loss keys "a" and "b", the validation runner writes exactly two
    metric records, valid/a and then valid/b, at the current global step, each
    holding [torch.mean] of the values the batches report under that key, in
    the order of the batches. *)
Theorem validation_metrics_two_keys (env : Env) (dataloader : list Batch) (s : State) :
  dataloader <> [] ->
  (forall b, In b dataloader ->
             Permutation
               (dict_keys (validation_losses (vocoder env) (model s)
                             (fst (on_device env b)) (snd (on_device env b))))
               ["a"; "b"]) ->
  exists xs ys,
    Forall2 (fun b x =>
               dict_get "a" (validation_losses (vocoder env) (model s)
                               (fst (on_device env b)) (snd (on_device env b)))
               = Some x) dataloader xs
    /\ Forall2 (fun b y =>
                  dict_get "b" (validation_losses (vocoder env) (model s)
                                  (fst (on_device env b)) (snd (on_device env b)))
                  = Some y) dataloader ys
    /\ compute_validation_metrics env dataloader s
       = Next tt
           (push [AddScalar "valid/b" (torch_mean env ys) (global_step (model s));
                  Print (ValidationLine "b" (torch_mean env ys));
                  AddScalar "valid/a" (torch_mean env xs) (global_step (model s));
                  Print (ValidationLine "a" (torch_mean env xs));
                  Print ComputingValidationLoss] s)
    /\ metrics (rev [AddScalar "valid/b" (torch_mean env ys) (global_step (model s));
                     Print (ValidationLine "b" (torch_mean env ys));
                     AddScalar "valid/a" (torch_mean env xs) (global_step (model s));
                     Print (ValidationLine "a" (torch_mean env xs));
                     Print ComputingValidationLoss])
       = [AddScalar "valid/a" (torch_mean env xs) (global_step (model s));
          AddScalar "valid/b" (torch_mean env ys) (global_step (model s))].
Proof.
  intros Hne Hkeys.
  set (losses_of := fun b : Batch =>
                      validation_losses (vocoder env) (model s)
                        (fst (on_device env b)) (snd (on_device env b))).
  assert (Hin : forall key, In key ["a"; "b"] ->
                            forall d, In d (map losses_of dataloader) ->
                                      In key (dict_keys d)).
  { intros key Hkey d Hd. apply in_map_iff in Hd. destruct Hd as [b [<- Hb]].
    apply (Permutation_in key (Permutation_sym (Hkeys b Hb))). exact Hkey. }
  destruct (key_losses_of_total "a" (map losses_of dataloader)) as [xs [Hxs Hxall]];
    [apply Hin; left; reflexivity |].
  destruct (key_losses_of_total "b" (map losses_of dataloader)) as [ys [Hys Hyall]];
    [apply Hin; right; left; reflexivity |].
  exists xs, ys.
  split; [apply Forall2_of_map in Hxall; exact Hxall |].
  split; [apply Forall2_of_map in Hyall; exact Hyall |].
  split; [| reflexivity].
  unfold compute_validation_metrics. rewrite bind_emit.
  rewrite (bind_next get_model _ (push [Print ComputingValidationLoss] s)
             (push [Print ComputingValidationLoss] s) (model s) eq_refl).
  fold losses_of.
  change (fun b : Batch =>
            let b0 := on_device env b in
            validation_losses (vocoder env) (model s) (fst b0) (snd b0))
    with losses_of.
  destruct dataloader as [| b rest]; [congruence |].
  cbn [map].
  rewrite (sorted_keys_a_b (dict_keys (losses_of b)) (Hkeys b (or_introl eq_refl))).
  cbn [map] in Hxs, Hys.
  cbn [for_each].
  rewrite !bind_assoc, Hxs. cbn [lift]. rewrite bind_ret, !bind_assoc, !bind_emit.
  rewrite !bind_assoc, Hys. cbn [lift]. rewrite bind_ret, !bind_assoc, !bind_emit.
  unfold ret. rewrite !push_push. reflexivity.
Qed.

Lemma validation_metrics_two_keys_witness :
  (exists xs ys,
      Forall2 (fun b x =>
                 dict_get "a" (validation_losses (vocoder (Demo.env 10 0))
                                 (model (Demo.entry 10 0 5000))
                                 (fst (on_device (Demo.env 10 0) b))
                                 (snd (on_device (Demo.env 10 0) b)))
                 = Some x) Demo.valid_set xs
      /\ Forall2 (fun b y =>
                    dict_get "b" (validation_losses (vocoder (Demo.env 10 0))
                                    (model (Demo.entry 10 0 5000))
                                    (fst (on_device (Demo.env 10 0) b))
                                    (snd (on_device (Demo.env 10 0) b)))
                    = Some y) Demo.valid_set ys
      /\ compute_validation_metrics (Demo.env 10 0) Demo.valid_set (Demo.entry 10 0 5000)
         = Next tt
             (push [AddScalar "valid/b" (torch_mean (Demo.env 10 0) ys)
                      (global_step (model (Demo.entry 10 0 5000)));
                    Print (ValidationLine "b" (torch_mean (Demo.env 10 0) ys));
                    AddScalar "valid/a" (torch_mean (Demo.env 10 0) xs)
                      (global_step (model (Demo.entry 10 0 5000)));
                    Print (ValidationLine "a" (torch_mean (Demo.env 10 0) xs));
                    Print ComputingValidationLoss] (Demo.entry 10 0 5000))
      /\ metrics (rev [AddScalar "valid/b" (torch_mean (Demo.env 10 0) ys)
                         (global_step (model (Demo.entry 10 0 5000)));
                       Print (ValidationLine "b" (torch_mean (Demo.env 10 0) ys));
                       AddScalar "valid/a" (torch_mean (Demo.env 10 0) xs)
                         (global_step (model (Demo.entry 10 0 5000)));
                       Print (ValidationLine "a" (torch_mean (Demo.env 10 0) xs));
                       Print ComputingValidationLoss])
         = [AddScalar "valid/a" (torch_mean (Demo.env 10 0) xs)
              (global_step (model (Demo.entry 10 0 5000)));
            AddScalar "valid/b" (torch_mean (Demo.env 10 0) ys)
              (global_step (model (Demo.entry 10 0 5000)))])
  /\ compute_validation_metrics (Demo.env 10 0) Demo.valid_set (Demo.entry 10 0 5000)
     = Next tt
         (push [AddScalar "valid/b" 3 5000; Print (ValidationLine "b" 3);
                AddScalar "valid/a" 2 5000; Print (ValidationLine "a" 2);
                Print ComputingValidationLoss] (Demo.entry 10 0 5000)).
Proof.
  split.
  - apply (validation_metrics_two_keys (Demo.env 10 0) Demo.valid_set
             (Demo.entry 10 0 5000)).
    + discriminate.
    + intros b [<- | [<- | []]]; vm_compute; apply perm_swap.
  - vm_compute. reflexivity.
Defined.

(** ** Further properties *)

(** A validation set of zero batches raises nothing and writes no metric
    record: the runner prints that no data is available. *)
Lemma validation_of_nothing (env : Env) (s : State) :
  compute_validation_metrics env [] s
  = Next tt (push [Print NoValidationData; Print ComputingValidationLoss] s)
  /\ metrics [Print NoValidationData; Print ComputingValidationLoss] = [].
Proof. split; reflexivity. Qed.

(** The loop returns once the model is done: when [n] turns of the body
    complete and the model is done after them, [n + 1] evaluations of the
    loop test are enough for the run to return. *)
Lemma run_loop_returns (env : Env) (dir : string) (train_set valid_set : list Batch)
    (n : nat) :
  forall s s_n,
    iterate env dir train_set valid_set n s = Next tt s_n ->
    is_done (vocoder env) (model s_n) = true ->
    exists s', run_loop env dir train_set valid_set (S n) s = Some (Returned, s').
Proof.
  induction n as [| n IH]; intros s s_n Hiter Hdone.
  - injection Hiter as <-. cbn [run_loop]. rewrite Hdone.
    destruct (finish_eq dir s) as [fs' [_ ->]]. eexists. reflexivity.
  - cbn [iterate] in Hiter. unfold bind in Hiter.
    destruct (iteration env dir train_set valid_set s) as [[] s1 | x s1] eqn:Hit;
      [| discriminate].
    change (run_loop env dir train_set valid_set (S (S n)) s)
      with (if is_done (vocoder env) (model s)
            then match finish dir s with
                 | Next _ s' => Some (Returned, s')
                 | Halt x s' => Some (Exited x, s')
                 end
            else match iteration env dir train_set valid_set s with
                 | Next _ s' => run_loop env dir train_set valid_set (S n) s'
                 | Halt x s' => Some (Exited x, s')
                 end).
    destruct (is_done (vocoder env) (model s)).
    + destruct (finish_eq dir s) as [fs' [_ ->]]. eexists. reflexivity.
    + rewrite Hit. apply (IH s1 s_n Hiter Hdone).
Qed.

(** More fuel does not change the outcome of a run. *)
Lemma run_loop_more_fuel (env : Env) (dir : string) (train_set valid_set : list Batch)
    (fuel extra : nat) :
  forall s r,
    run_loop env dir train_set valid_set fuel s = Some r ->
    run_loop env dir train_set valid_set (fuel + extra) s = Some r.
Proof.
  induction fuel as [| fuel IH]; intros s r Hrun; [discriminate |].
  cbn [run_loop Nat.add] in *.
  destruct (is_done (vocoder env) (model s)); [exact Hrun |].
  destruct (iteration env dir train_set valid_set s) as [[] s1 | x s1];
    [apply IH; exact Hrun | exact Hrun].
Qed.

(** Beyond eight digits the names are not padded to a common width, and the
    character order is no longer the numeric one: after saves at steps
    99999999 and 100000000 the nine-digit name sorts first. *)
Lemma nine_digit_step_sorts_first :
  option_map (fun fs => last_checkpoint_path fs "model")
    match save_models [Demo.at_step 99999999 Demo.gan_net;
                       Demo.at_step 100000000 Demo.gan_net]
            (path_str (os_path_join "model" CHECKPOINT_DIR)) [] with
    | Ok fs => Some fs
    | Raise _ => None
    end
  = Some (Some (checkpoint_path (path_str (os_path_join "model" CHECKPOINT_DIR)) 99999999)).
Proof. vm_compute. reflexivity. Qed.

Lemma run_loop_returns_witness :
  exists s',
    run_loop (Demo.env 3 0) Demo.checkpoints Demo.train_set Demo.valid_set 4
      (Demo.entry 3 0 0) = Some (Returned, s').
Proof.
  eapply (run_loop_returns (Demo.env 3 0) Demo.checkpoints Demo.train_set
            Demo.valid_set 3 (Demo.entry 3 0 0)).
  - vm_compute. reflexivity.
  - vm_compute. reflexivity.
Defined.

(** Distinct steps are saved to distinct files, whatever their number of digits. *)
Theorem distinct_steps_distinct_files (dir : string) (a b : Z) :
  0 <= a -> 0 <= b -> a <> b -> checkpoint_path dir a <> checkpoint_path dir b.
Proof.
  intros Ha Hb Hne E. apply Hne. apply (checkpoint_path_inj dir a b Ha Hb E).
Qed.

Lemma distinct_steps_distinct_files_witness :
  checkpoint_path Demo.checkpoints 99999999 <> checkpoint_path Demo.checkpoints 100000000.
Proof.
  apply (distinct_steps_distinct_files Demo.checkpoints 99999999 100000000).
  - vm_compute. discriminate.
  - vm_compute. discriminate.
  - discriminate.
Defined.

(** * Further properties of the code *)
(** ** Moving a state between devices *)

Lemma map_id_on {A : Type} (f : A -> A) (l : list A) :
  Forall (fun x => f x = x) l -> map f l = l.
Proof.
  induction 1 as [| x rest Hx _ IH]; simpl; [reflexivity |].
  rewrite Hx, IH. reflexivity.
Qed.

(** Moves compose to the last one: whatever device a state was moved to
    before, moving it again leaves it where the second move alone would; in
    particular a second move to the same device changes nothing. *)
Theorem move_state_dict_to_device_last_wins (it : item) (first second : bool) :
  move_state_dict_to_device (move_state_dict_to_device it first) second
  = move_state_dict_to_device it second.
Proof.
  induction it as [t | d IH | l IH | v] using item_nested_ind; simpl.
  - destruct first, second; reflexivity.
  - f_equal. rewrite map_map. induction IH as [| [k v] rest Hv _ IHrest]; simpl.
    + reflexivity.
    + simpl in Hv. rewrite Hv, IHrest. reflexivity.
  - f_equal. rewrite map_map. induction IH as [| v rest Hv _ IHrest]; simpl.
    + reflexivity.
    + rewrite Hv, IHrest. reflexivity.
  - reflexivity.
Qed.

Lemma tensors_on_moved (it : item) (cpu : bool) :
  tensors_on (target_device cpu) (move_state_dict_to_device it cpu) = true.
Proof.
  induction it as [t | d IH | l IH | v] using item_nested_ind; simpl.
  - destruct cpu; reflexivity.
  - rewrite forallb_forall. intros [k v] Hin. apply in_map_iff in Hin.
    destruct Hin as [[k0 v0] [E Hin]]. injection E as <- <-.
    rewrite Forall_forall in IH. apply (IH (k0, v0) Hin).
  - rewrite forallb_forall. intros v Hin. apply in_map_iff in Hin.
    destruct Hin as [v0 [<- Hin]]. rewrite Forall_forall in IH. apply IH. exact Hin.
  - reflexivity.
Qed.

Lemma move_fixed_iff (it : item) (cpu : bool) :
  move_state_dict_to_device it cpu = it <-> tensors_on (target_device cpu) it = true.
Proof.
  split.
  - intros E. rewrite <- E. apply tensors_on_moved.
  - induction it as [t | d IH | l IH | v] using item_nested_ind; simpl; intros H.
    + destruct t as [dev st]. destruct cpu, dev; simpl in H; try discriminate H; reflexivity.
    + f_equal. rewrite forallb_forall in H. apply map_id_on.
      rewrite Forall_forall in *. intros [k v] Hin. f_equal.
      apply (IH (k, v) Hin). apply (H (k, v) Hin).
    + f_equal. rewrite forallb_forall in H. apply map_id_on.
      rewrite Forall_forall in *. intros v Hin. apply (IH v Hin). apply (H v Hin).
    + reflexivity.
Qed.

(** After a move every tensor of the state, at any depth of lists and
    dicts, is on the device moved to; and the move returns a state unchanged
    exactly when all its tensors were there already. *)
Theorem move_state_dict_to_device_places (it : item) (cpu : bool) :
  tensors_on (target_device cpu) (move_state_dict_to_device it cpu) = true
  /\ (move_state_dict_to_device it cpu = it
      <-> tensors_on (target_device cpu) it = true).
Proof. split; [apply tensors_on_moved | apply move_fixed_iff]. Qed.

(** ** What [save_model] writes and what it leaves alone *)



Lemma torch_load_other_file (m : Vocoder) (dir : string) (fs fs' : FileSystem) (p : path) :
  save_model m dir fs = Ok fs' ->
  p <> checkpoint_path dir (global_step m) ->
  torch_load p fs' = torch_load p fs.
Proof.
  intros Hsave Hp.
  destruct (save_model_writes m dir fs) as [fs1 [Hs [Hget Hother]]].
  rewrite Hs in Hsave. injection Hsave as <-.
  destruct p as [d name]. unfold torch_load. cbn [dirname basename].
  destruct (string_dec d dir) as [-> | Hd].
  - rewrite Hget.
    assert (Hname : checkpoint_name (global_step m) <> name).
    { intros E. apply Hp. unfold checkpoint_path, os_path_join. rewrite E. reflexivity. }
    rewrite (dict_get_set_other _ _ _ _ Hname).
    unfold listing. destruct (dict_get dir fs) as [files |]; reflexivity.
  - rewrite (Hother d Hd). reflexivity.
Qed.

(** [save_model] writes one file of the checkpoint directory and leaves
    the others alone: what could be loaded from a file of that directory
    under any other name before the save is loaded from it afterwards, and a
    name that held nothing still holds nothing. *)
Theorem save_model_keeps_other_files (m : Vocoder) (checkpoint_dir : string)
    (fs fs' : FileSystem) (name : string) :
  save_model m checkpoint_dir fs = Ok fs' ->
  plain_name name = true ->
  name <> checkpoint_name (global_step m) ->
  torch_load (os_path_join checkpoint_dir name) fs'
  = torch_load (os_path_join checkpoint_dir name) fs.
Proof.
  intros Hsave _ Hname. apply (torch_load_other_file m checkpoint_dir fs fs' _ Hsave).
  intros E. apply Hname. unfold checkpoint_path, os_path_join in E.
  injection E as E. exact E.
Qed.

Lemma save_model_keeps_other_files_witness :
  exists fs1 fs2,
    save_model (Demo.at_step 100 Demo.gan_net) Demo.checkpoints [] = Ok fs1
    /\ save_model (Demo.at_step 5000 Demo.two_optimizers) Demo.checkpoints fs1 = Ok fs2
    /\ torch_load (os_path_join Demo.checkpoints (checkpoint_name 100)) fs2
       = torch_load (os_path_join Demo.checkpoints (checkpoint_name 100)) fs1.
Proof.
  eexists. eexists.
  split; [vm_compute; reflexivity |].
  split; [vm_compute; reflexivity |].
  apply (save_model_keeps_other_files (Demo.at_step 5000 Demo.two_optimizers)
           Demo.checkpoints).
  - vm_compute. reflexivity.
  - vm_compute. reflexivity.
  - vm_compute. discriminate.
Defined.

(** ** The latest checkpoint of any directory *)

Lemma ascii_compare_trans_lt (a b c : ascii) :
  Ascii.compare a b = Lt -> Ascii.compare b c = Lt -> Ascii.compare a c = Lt.
Proof.
  unfold Ascii.compare. rewrite !N.compare_lt_iff. apply N.lt_trans.
Qed.

Lemma string_compare_trans_lt (a : string) :
  forall b c : string,
    String.compare a b = Lt -> String.compare b c = Lt -> String.compare a c = Lt.
Proof.
  induction a as [| x a IH]; intros [| y b] [| z c]; simpl; try congruence.
  destruct (Ascii.compare x y) eqn:Exy; try discriminate;
    destruct (Ascii.compare y z) eqn:Eyz; try discriminate; intros H1 H2.
  - apply Ascii.compare_eq_iff in Exy, Eyz. subst y z.
    assert (E : Ascii.compare x x = Eq) by (unfold Ascii.compare; apply N.compare_refl).
    rewrite E. apply (IH b c H1 H2).
  - apply Ascii.compare_eq_iff in Exy. subst y. rewrite Eyz. reflexivity.
  - apply Ascii.compare_eq_iff in Eyz. subst z. rewrite Exy. reflexivity.
  - rewrite (ascii_compare_trans_lt x y z Exy Eyz). reflexivity.
Qed.

Lemma string_leb_trans (a b c : string) :
  String.leb a b = true -> String.leb b c = true -> String.leb a c = true.
Proof.
  unfold String.leb.
  destruct (String.compare a b) eqn:Eab; try discriminate;
    destruct (String.compare b c) eqn:Ebc; try discriminate; intros _ _.
  - apply String.compare_eq_iff in Eab, Ebc. subst. rewrite string_compare_refl. reflexivity.
  - apply String.compare_eq_iff in Eab. subst. rewrite Ebc. reflexivity.
  - apply String.compare_eq_iff in Ebc. subst. rewrite Eab. reflexivity.
  - rewrite (string_compare_trans_lt a b c Eab Ebc). reflexivity.
Qed.

Section SortedLast.
Context {A : Type} (le : A -> A -> bool).
Hypothesis le_total : forall x y, le x y = true \/ le y x = true.
Hypothesis le_trans : forall x y z, le x y = true -> le y z = true -> le x z = true.

Lemma insert_with_sorted (x : A) (l : list A) :
  StronglySorted (fun a b => le a b = true) l ->
  StronglySorted (fun a b => le a b = true) (insert_with le x l).
Proof.
  induction 1 as [| y rest Hrest IH Hy]; simpl.
  - constructor; constructor.
  - destruct (le x y) eqn:E.
    + constructor; [constructor; assumption |].
      constructor; [exact E |].
      rewrite Forall_forall in *. intros z Hz. apply (le_trans x y z E). apply Hy. exact Hz.
    + constructor; [exact IH |].
      rewrite Forall_forall in *. intros z Hz.
      apply (Permutation_in z (insert_with_perm le x rest)) in Hz.
      destruct Hz as [<- | Hz]; [| apply Hy; exact Hz].
      destruct (le_total x y) as [H | H]; [congruence | exact H].
Qed.

Lemma sort_with_sorted (l : list A) :
  StronglySorted (fun a b => le a b = true) (sort_with le l).
Proof.
  induction l as [| x rest IH]; simpl; [constructor |].
  apply insert_with_sorted. exact IH.
Qed.

Lemma last_opt_sorted_greatest (l : list A) (z : A) :
  StronglySorted (fun a b => le a b = true) l ->
  last_opt l = Some z ->
  forall x, In x l -> le x z = true.
Proof.
  induction 1 as [| y rest Hrest IH Hy]; intros Hlast x Hx; [destruct Hx |].
  destruct rest as [| y' rest'].
  - simpl in Hlast. injection Hlast as <-. destruct Hx as [<- | []].
    destruct (le_total y y); assumption.
  - change (last_opt (y :: y' :: rest')) with (last_opt (y' :: rest')) in Hlast.
    destruct Hx as [<- | Hx].
    + rewrite Forall_forall in Hy. apply Hy. apply (last_opt_in _ _ Hlast).
    + apply (IH Hlast x Hx).
Qed.
End SortedLast.

Lemma path_str_leb (dir a b : string) :
  String.leb (path_str (os_path_join dir a)) (path_str (os_path_join dir b))
  = String.leb a b.
Proof.
  unfold path_str, os_path_join, String.leb. cbn [dirname basename].
  rewrite string_compare_prefix. reflexivity.
Qed.

Lemma last_checkpoint_path_spec (fs : FileSystem) (model_dir : string) :
  let dir := path_str (os_path_join model_dir CHECKPOINT_DIR) in
  match last_checkpoint_path fs model_dir with
  | Some p =>
      dirname p = dir
      /\ In (basename p) (dict_keys (listing fs dir))
      /\ fnmatch_ckpt (basename p) = true
      /\ forall name, In name (dict_keys (listing fs dir)) ->
                      fnmatch_ckpt name = true ->
                      String.leb name (basename p) = true
  | None =>
      forall name, In name (dict_keys (listing fs dir)) -> fnmatch_ckpt name = false
  end.
Proof.
  intros dir. unfold last_checkpoint_path. fold dir.
  rewrite glob_ckpt_listing.
  set (names := filter fnmatch_ckpt (dict_keys (listing fs dir))).
  set (le := fun x y : path => String.leb (path_str x) (path_str y)).
  change (sorted_by path_str (map (os_path_join dir) names))
    with (sort_with le (map (os_path_join dir) names)).
  destruct (last_opt (sort_with le (map (os_path_join dir) names))) as [p |] eqn:Hlast.
  - assert (Hin : In p (map (os_path_join dir) names)).
    { apply (proj1 (sort_with_in le p _)). apply (last_opt_in _ _ Hlast). }
    apply in_map_iff in Hin. destruct Hin as [n0 [<- Hn0]].
    unfold names in Hn0. apply filter_In in Hn0. destruct Hn0 as [Hk Hm].
    cbn [os_path_join dirname basename].
    repeat split; try assumption.
    intros name Hname Hmatch.
    rewrite <- (path_str_leb dir name n0).
    apply (last_opt_sorted_greatest le) with (l := sort_with le (map (os_path_join dir) names)).
    + intros x y. apply String.leb_total.
    + apply (sort_with_sorted le).
      * intros x y. apply String.leb_total.
      * intros x y z. apply string_leb_trans.
    + exact Hlast.
    + apply (proj2 (sort_with_in le _ _)). apply in_map. unfold names.
      apply filter_In. split; assumption.
  - intros name Hname. destruct (fnmatch_ckpt name) eqn:Hmatch; [| reflexivity].
    exfalso.
    assert (Hne : sort_with le (map (os_path_join dir) names) <> []).
    { intros E.
      assert (Hin : In (os_path_join dir name) (sort_with le (map (os_path_join dir) names))).
      { apply (proj2 (sort_with_in le _ _)). apply in_map. unfold names.
        apply filter_In. split; assumption. }
      rewrite E in Hin. destruct Hin. }
    destruct (last_opt_nonempty _ Hne) as [z Hz]. congruence.
Qed.

(** Whatever files the checkpoint directory holds, when it is all the
    file system holds and the name of the model directory is not read as a
    pattern by [glob]: [last_checkpoint_path] returns a file of that directory
    whose name matches [*.ckpt] and is the greatest such name in character
    order, and it returns [None] exactly when no name of the directory
    matches; the steps play no part. *)
Theorem last_checkpoint_path_greatest (fs : FileSystem) (model_dir : string) :
  let dir := path_str (os_path_join model_dir CHECKPOINT_DIR) in
  has_magic model_dir = false ->
  only_directory fs dir ->
  forallb plain_name (dict_keys (listing fs dir)) = true ->
  match last_checkpoint_path fs model_dir with
  | Some p =>
      dirname p = dir
      /\ In (basename p) (dict_keys (listing fs dir))
      /\ fnmatch_ckpt (basename p) = true
      /\ forall name, In name (dict_keys (listing fs dir)) ->
                      fnmatch_ckpt name = true ->
                      String.leb name (basename p) = true
  | None =>
      forall name, In name (dict_keys (listing fs dir)) -> fnmatch_ckpt name = false
  end.
Proof. intros dir _ _ _. apply last_checkpoint_path_spec. Qed.

Lemma last_checkpoint_path_greatest_witness :
  last_checkpoint_path
    [("model/checkpoints",
      [("b.ckpt", IOther PyNone); (".z.ckpt", IOther PyNone);
       ("a.ckpt", IOther PyNone); ("notes.txt", IOther PyNone)])] "model"
  = Some (os_path_join "model/checkpoints" "b.ckpt")
  /\ match last_checkpoint_path
            [("model/checkpoints",
              [("b.ckpt", IOther PyNone); (".z.ckpt", IOther PyNone);
               ("a.ckpt", IOther PyNone); ("notes.txt", IOther PyNone)])] "model" with
     | Some p =>
         dirname p = path_str (os_path_join "model" CHECKPOINT_DIR)
         /\ In (basename p)
              (dict_keys
                 (listing
                    [("model/checkpoints",
                      [("b.ckpt", IOther PyNone); (".z.ckpt", IOther PyNone);
                       ("a.ckpt", IOther PyNone); ("notes.txt", IOther PyNone)])]
                    (path_str (os_path_join "model" CHECKPOINT_DIR))))
         /\ fnmatch_ckpt (basename p) = true
         /\ forall name,
             In name
               (dict_keys
                  (listing
                     [("model/checkpoints",
                       [("b.ckpt", IOther PyNone); (".z.ckpt", IOther PyNone);
                        ("a.ckpt", IOther PyNone); ("notes.txt", IOther PyNone)])]
                     (path_str (os_path_join "model" CHECKPOINT_DIR)))) ->
             fnmatch_ckpt name = true ->
             String.leb name (basename p) = true
     | None =>
         forall name,
           In name
             (dict_keys
                (listing
                   [("model/checkpoints",
                     [("b.ckpt", IOther PyNone); (".z.ckpt", IOther PyNone);
                      ("a.ckpt", IOther PyNone); ("notes.txt", IOther PyNone)])]
                   (path_str (os_path_join "model" CHECKPOINT_DIR)))) ->
           fnmatch_ckpt name = false
     end.
Proof.
  split; [vm_compute; reflexivity |].
  apply (last_checkpoint_path_greatest
           [("model/checkpoints",
             [("b.ckpt", IOther PyNone); (".z.ckpt", IOther PyNone);
              ("a.ckpt", IOther PyNone); ("notes.txt", IOther PyNone)])] "model").
  - reflexivity.
  - intros d [<- | []]. reflexivity.
  - reflexivity.
Defined.

(** ** A checkpoint of a diverged model *)

(** A model with a NaN in one of its tensors can be saved, and the file
    can never be loaded: whatever entity it is loaded into, with or without
    an accelerator, [load_model_from_checkpoint] fails its sanity check with
    an AssertionError. *)
Theorem nan_checkpoint_never_loads (cuda : bool) (saved live : Vocoder)
    (checkpoint_dir : string) (fs : FileSystem) :
  found_nan (parameters (net saved)) = true ->
  exists fs',
    save_model saved checkpoint_dir fs = Ok fs'
    /\ load_model_from_checkpoint cuda live
         (checkpoint_path checkpoint_dir (global_step saved)) fs'
       = Raise AssertionError.
Proof.
  intros Hnan.
  destruct (save_model_writes saved checkpoint_dir fs) as [fs' [Hsave _]].
  exists fs'. split; [exact Hsave |].
  unfold load_model_from_checkpoint.
  rewrite (torch_load_after_save saved checkpoint_dir fs fs' Hsave). cbn [rbind].
  change (if cuda
          then move_state_dict_to_device
                 (move_state_dict_to_device (checkpoint_record saved) true) false
          else move_state_dict_to_device (checkpoint_record saved) true)
    with (relocate cuda (checkpoint_record saved)).
  rewrite relocate_checkpoint_record.
  cbn [getitem dict_get String.eqb Ascii.eqb Bool.eqb andb rbind].
  unfold state_dict. rewrite relocate_IDict. cbn [as_dict rbind].
  rewrite found_nan_relocate.
  unfold found_nan at 1. cbn [existsb snd any_isnan storage orb].
  fold (found_nan (parameters (net saved))). rewrite Hnan. reflexivity.
Qed.

Lemma nan_checkpoint_never_loads_witness :
  found_nan (parameters (net (Demo.at_step 5000 Demo.diverged))) = true
  /\ exists fs',
      save_model (Demo.at_step 5000 Demo.diverged) Demo.checkpoints [] = Ok fs'
      /\ load_model_from_checkpoint true (new_vocoder Demo.diverged)
           (checkpoint_path Demo.checkpoints
              (global_step (Demo.at_step 5000 Demo.diverged))) fs'
         = Raise AssertionError.
Proof.
  split; [vm_compute; reflexivity |].
  apply (nan_checkpoint_never_loads true (Demo.at_step 5000 Demo.diverged)
           (new_vocoder Demo.diverged) Demo.checkpoints []).
  vm_compute. reflexivity.
Defined.

(** ** The periodic phases, state by state *)

Lemma generation_needs_validation (g : Z) :
  g mod EVAL_FREQUENCY <> 0 -> g mod GENERATE_FREQUENCY <> 0.
Proof.
  unfold EVAL_FREQUENCY, GENERATE_FREQUENCY. intros H E. apply H.
  rewrite (Z.div_mod g 100000) by lia. rewrite E, Z.add_0_r.
  replace (100000 * (g / 100000)) with (20 * (g / 100000) * 5000) by lia.
  apply Z.mod_mul. lia.
Qed.

(** What the two periodic phases make of a state: off the validation
    frequency nothing; on it, the events of validation, then the save of the
    model back in training mode, then the events of sample generation, the
    run being cut where one of them raises. *)
Lemma periodic_shape (env : Env) (dir : string) (valid_set : list Batch)
    (m : Vocoder) (s1 : State) :
  model s1 = m ->
  if global_step m mod EVAL_FREQUENCY =? 0 then
    exists vnew : list event,
      Forall (periodic_event (global_step m)) vnew
      /\ ((exists e,
              periodic env dir valid_set m s1
              = Halt (Uncaught e)
                  (mkState (eval m) (fs s1) (train_iterator s1) (started s1)
                     (num_iterations s1) (vnew ++ trace s1)))
          \/ exists (fs' : FileSystem) (gnew : list event),
              save_model (train (eval m)) dir (fs s1) = Ok fs'
              /\ Forall (periodic_event (global_step m)) gnew
              /\ (global_step m mod GENERATE_FREQUENCY <> 0 -> gnew = [])
              /\ let s4 :=
                   mkState (train (eval m)) fs' (train_iterator s1) (started s1)
                     (num_iterations s1)
                     (gnew ++ TorchSave (checkpoint_path dir (global_step m))
                        :: vnew ++ trace s1) in
                 (periodic env dir valid_set m s1 = Next tt s4
                  \/ exists e, periodic env dir valid_set m s1 = Halt (Uncaught e) s4))
  else periodic env dir valid_set m s1 = Next tt s1.
Proof.
  intros Hm.
  assert (Hgen : forall s, global_step (model s) = global_step m ->
            exists new,
              Forall (periodic_event (global_step m)) new
              /\ (global_step m mod GENERATE_FREQUENCY <> 0 -> new = [])
              /\ ((when (global_step m mod GENERATE_FREQUENCY =? 0)
                     (generate_tensorboard_samples env valid_set GENERATE_NUM_SAMPLES)) s
                  = Next tt (push new s)
                  \/ exists e,
                      (when (global_step m mod GENERATE_FREQUENCY =? 0)
                         (generate_tensorboard_samples env valid_set GENERATE_NUM_SAMPLES)) s
                      = Halt (Uncaught e) (push new s))).
  { intros s Hs. destruct (global_step m mod GENERATE_FREQUENCY =? 0) eqn:Hg.
    - destruct (generate_tensorboard_samples_quiet env (model s) valid_set
                  GENERATE_NUM_SAMPLES s eq_refl) as [new [Hnew Hres]].
      rewrite Hs in Hnew. exists new. split; [exact Hnew |].
      split; [intros Hne; apply Z.eqb_eq in Hg; contradiction |].
      cbn [when]. destruct Hres as [[[] Ha] | He]; [left; exact Ha | right; exact He].
    - exists []. split; [constructor |]. split; [reflexivity |].
      left. cbn [when]. rewrite push_nil. reflexivity. }
  unfold periodic.
  destruct (global_step m mod EVAL_FREQUENCY =? 0) eqn:Heval.
  - cbn [when].
    set (s2 := mkState (eval m) (fs s1) (train_iterator s1) (started s1)
                 (num_iterations s1) (trace s1)).
    destruct (compute_validation_metrics_quiet env (eval m) valid_set s2 eq_refl)
      as [vnew [Hvnew Hval]].
    change (global_step (eval m)) with (global_step m) in Hvnew.
    exists vnew. split; [exact Hvnew |].
    destruct Hval as [[[] Hval] | [e Hval]].
    + right.
      set (s3 := mkState (train (eval m)) (fs s1) (train_iterator s1) (started s1)
                   (num_iterations s1) (vnew ++ trace s1)).
      destruct (do_save_model_eq dir s3) as [fs' [Hsaved Hsave]].
      cbn [s3 model fs train_iterator started num_iterations trace] in Hsave, Hsaved.
      change (global_step (train (eval m))) with (global_step m) in Hsave.
      set (s4 := mkState (train (eval m)) fs' (train_iterator s1) (started s1)
                   (num_iterations s1)
                   (TorchSave (checkpoint_path dir (global_step m)) :: vnew ++ trace s1))
        in Hsave.
      assert (Hphase :
                (put_model (eval m) ;;
                 compute_validation_metrics env valid_set ;;
                 m0 <- get_model ;;
                 put_model (train m0) ;;
                 do_save_model dir) s1 = Next tt s4).
      { rewrite (bind_next (put_model (eval m)) _ s1 s2 tt eq_refl).
        rewrite (bind_next _ _ s2 (push vnew s2) tt Hval).
        rewrite (bind_next get_model _ (push vnew s2) (push vnew s2) (eval m) eq_refl).
        rewrite (bind_next (put_model (train (eval m))) _ (push vnew s2) s3 tt eq_refl).
        exact Hsave. }
      destruct (Hgen s4 eq_refl) as [gnew [Hgnew [Hnone Hres]]].
      exists fs', gnew.
      split; [exact Hsaved |]. split; [exact Hgnew |]. split; [exact Hnone |].
      cbv zeta. rewrite (bind_next _ _ s1 s4 tt Hphase). exact Hres.
    + left. exists e.
      rewrite (bind_halt _ _ s1 (push vnew s2) (Uncaught e)); [reflexivity |].
      rewrite (bind_next (put_model (eval m)) _ s1 s2 tt eq_refl).
      apply bind_halt. exact Hval.
  - cbn [when]. rewrite bind_ret.
    apply Z.eqb_neq in Heval. apply generation_needs_validation in Heval.
    apply Z.eqb_neq in Heval. rewrite Heval. reflexivity.
Qed.

(** ** The watchdog *)

Lemma well_guarded_app (side : bool) (new tr : list event) :
  Forall (fun e => under_alarm e = Some side) new ->
  watchdog_armed tr = side ->
  well_guarded tr = true ->
  well_guarded (new ++ tr) = true /\ watchdog_armed (new ++ tr) = side.
Proof.
  intros Hnew Harmed Hguard. induction Hnew as [| e rest He _ IH]; [auto |].
  destruct IH as [IH1 IH2]. cbn [app well_guarded]. rewrite He, IH1, IH2.
  split; [destruct side; reflexivity |].
  destruct e as [line | secs | | | |]; try exact IH2. discriminate He.
Qed.

Lemma deadline_positive (s : State) : (deadline s =? 0) = false.
Proof. unfold deadline. destruct (started s); reflexivity. Qed.

Lemma head_events_guarded (s : State) (b : Batch) (lapped : bool) (tr : list event) :
  well_guarded tr = true ->
  well_guarded (head_events s b lapped ++ tr) = true
  /\ watchdog_armed (head_events s b lapped ++ tr) = true.
Proof.
  intros Hg. unfold head_events.
  change (TrainStep (fst b) (snd b)
            :: (if lapped then [Print CompletedEpoch] else []) ++ [SignalAlarm (deadline s)])
    with ((TrainStep (fst b) (snd b) :: (if lapped then [Print CompletedEpoch] else []))
            ++ [SignalAlarm (deadline s)]).
  rewrite <- app_assoc.
  apply (well_guarded_app true).
  - destruct lapped; repeat constructor.
  - cbn [app watchdog_armed]. rewrite deadline_positive. reflexivity.
  - cbn [app well_guarded under_alarm andb]. exact Hg.
Qed.

Lemma report_events_guarded (loss : float) (tb_logs : dict float) (step : Z)
    (tr : list event) :
  well_guarded tr = true -> watchdog_armed tr = true ->
  well_guarded (report_events loss tb_logs step ++ tr) = true
  /\ watchdog_armed (report_events loss tb_logs step ++ tr) = false.
Proof.
  intros Hg Ha. unfold report_events. rewrite <- !app_assoc.
  apply (well_guarded_app false).
  - destruct (step mod LOG_FREQUENCY =? 0); [| constructor].
    apply Forall_app. split; [| repeat constructor].
    apply Forall_rev. apply Forall_map. apply Forall_forall. intros kv _. reflexivity.
  - reflexivity.
  - cbn [app well_guarded under_alarm andb].
    apply (well_guarded_app true).
    + destruct (step mod 50 =? 0); repeat constructor.
    + exact Ha.
    + cbn [well_guarded under_alarm]. rewrite Ha, Hg. reflexivity.
Qed.

Lemma periodic_event_disarmed (g : Z) (e : event) :
  periodic_event g e -> under_alarm e = Some false.
Proof. destruct e as [[] | | | | |]; simpl; intros H; try contradiction; reflexivity. Qed.

(** The watchdog through one turn of the body, however the turn ends. *)
Lemma iteration_guarded (env : Env) (dir : string) (train_set valid_set : list Batch)
    (s : State) :
  well_guarded (trace s) = true ->
  match iteration env dir train_set valid_set s with
  | Next _ s' => well_guarded (trace s') = true /\ watchdog_armed (trace s') = false
  | Halt _ s' => well_guarded (trace s') = true
  end.
Proof.
  intros Hg. rewrite iteration_eq.
  destruct (draw_batch train_set (train_iterator s)) as [[[b rest] lapped] |].
  - cbv zeta.
    destruct (train_step (vocoder env) (model s) (fst (on_device env b))
                (snd (on_device env b))) as [[loss tb_logs] net'].
    destruct (head_events_guarded s (on_device env b) lapped (trace s) Hg) as [Hh1 Hh2].
    destruct (set_global_step (global_step (model s) + 1) (set_net net' (model s)))
      as [m1 | e]; [| exact Hh1].
    destruct (report_events_guarded loss tb_logs (global_step m1) _ Hh1 Hh2) as [Hr1 Hr2].
    unfold after_step. destruct (is_nan loss).
    + cbn [push trace app well_guarded under_alarm]. rewrite Hr1, Hr2. reflexivity.
    + set (s1 := push (report_events loss tb_logs (global_step m1))
                   (mkState m1 (fs s) rest true (num_iterations s + 1)
                      (head_events s (on_device env b) lapped ++ trace s))).
      change (well_guarded (trace s1) = true) in Hr1.
      change (watchdog_armed (trace s1) = false) in Hr2.
      pose proof (periodic_shape env dir valid_set m1 s1 eq_refl) as Hshape.
      destruct (global_step m1 mod EVAL_FREQUENCY =? 0).
      * destruct Hshape as [vnew [Hvnew [[e He] | [fs' [gnew [_ [Hgnew [_ Hres]]]]]]]].
        -- rewrite He. cbn [trace].
           apply (well_guarded_app false); [| exact Hr2 | exact Hr1].
           eapply Forall_impl; [| exact Hvnew]. apply periodic_event_disarmed.
        -- cbv zeta in Hres.
           assert (Hall : well_guarded
                            (gnew ++ TorchSave (checkpoint_path dir (global_step m1))
                               :: vnew ++ trace s1) = true
                          /\ watchdog_armed
                               (gnew ++ TorchSave (checkpoint_path dir (global_step m1))
                                  :: vnew ++ trace s1) = false).
           { replace (gnew ++ TorchSave (checkpoint_path dir (global_step m1))
                        :: vnew ++ trace s1)
               with ((gnew ++ TorchSave (checkpoint_path dir (global_step m1)) :: vnew)
                       ++ trace s1)
               by (rewrite <- app_assoc; reflexivity).
             apply (well_guarded_app false); [| exact Hr2 | exact Hr1].
             apply Forall_app. split.
             - eapply Forall_impl; [| exact Hgnew]. apply periodic_event_disarmed.
             - constructor; [reflexivity |].
               eapply Forall_impl; [| exact Hvnew]. apply periodic_event_disarmed. }
           destruct Hres as [Hres | [e Hres]]; rewrite Hres; cbn [trace];
             [exact Hall | apply Hall].
      * rewrite Hshape. split; assumption.
  - cbn [push trace app well_guarded under_alarm watchdog_armed andb].
    rewrite deadline_positive. exact Hg.
Qed.

(** A turn of the body that completes, in full: the batch drawn, the step
    taken, the events added, and the state left. *)
Lemma iteration_next (env : Env) (dir : string) (train_set valid_set : list Batch)
    (s s' : State) :
  iteration env dir train_set valid_set s = Next tt s' ->
  exists (b : Batch) (rest : list Batch) (lapped : bool)
         (loss : float) (tb_logs : dict float) (net' : Net) (m1 : Vocoder)
         (pnew : list event),
    draw_batch train_set (train_iterator s) = Some (b, rest, lapped)
    /\ train_step (vocoder env) (model s) (fst (on_device env b)) (snd (on_device env b))
       = (loss, tb_logs, net')
    /\ set_global_step (global_step (model s) + 1) (set_net net' (model s)) = Ok m1
    /\ is_nan loss = false
    /\ trace s'
       = pnew ++ report_events loss tb_logs (global_step m1)
           ++ head_events s (on_device env b) lapped ++ trace s
    /\ started s' = true
    /\ train_iterator s' = rest
    /\ num_iterations s' = num_iterations s + 1
    /\ if global_step m1 mod EVAL_FREQUENCY =? 0 then
         exists vnew gnew : list event,
           pnew = gnew ++ TorchSave (checkpoint_path dir (global_step m1)) :: vnew
           /\ Forall (periodic_event (global_step m1)) vnew
           /\ Forall (periodic_event (global_step m1)) gnew
           /\ (global_step m1 mod GENERATE_FREQUENCY <> 0 -> gnew = [])
           /\ model s' = train (eval m1)
           /\ save_model (train (eval m1)) dir (fs s) = Ok (fs s')
       else pnew = [] /\ model s' = m1 /\ fs s' = fs s.
Proof.
  rewrite iteration_eq.
  destruct (draw_batch train_set (train_iterator s)) as [[[b rest] lapped] |];
    [| discriminate].
  cbv zeta.
  destruct (train_step (vocoder env) (model s) (fst (on_device env b))
              (snd (on_device env b))) as [[loss tb_logs] net'] eqn:Hstep.
  destruct (set_global_step (global_step (model s) + 1) (set_net net' (model s)))
    as [m1 | e] eqn:Hset; [| discriminate].
  unfold after_step. destruct (is_nan loss) eqn:Hnan; [discriminate |].
  set (s1 := push (report_events loss tb_logs (global_step m1))
               (mkState m1 (fs s) rest true (num_iterations s + 1)
                  (head_events s (on_device env b) lapped ++ trace s))).
  intros Hper.
  pose proof (periodic_shape env dir valid_set m1 s1 eq_refl) as Hshape.
  destruct (global_step m1 mod EVAL_FREQUENCY =? 0) eqn:Heval.
  - destruct Hshape as [vnew [Hvnew [[e He] | [fs' [gnew [Hsave [Hgnew [Hnone Hres]]]]]]]];
      [congruence |].
    cbv zeta in Hres. destruct Hres as [Hres | [e Hres]]; [| congruence].
    rewrite Hres in Hper. injection Hper as <-.
    exists b, rest, lapped, loss, tb_logs, net', m1,
      (gnew ++ TorchSave (checkpoint_path dir (global_step m1)) :: vnew).
    repeat (split; [first [reflexivity | assumption] |]).
    split; [unfold s1, push; cbn [trace]; rewrite <- (app_assoc gnew); reflexivity |].
    repeat (split; [first [reflexivity | assumption] |]).
    rewrite Heval.
    exists vnew, gnew. repeat (split; try assumption; try reflexivity).
  - rewrite Hshape in Hper. injection Hper as <-.
    exists b, rest, lapped, loss, tb_logs, net', m1, [].
    repeat (split; [first [reflexivity | assumption] |]).
    rewrite Heval. repeat split; reflexivity.
Qed.

(** ** The steps of a run *)

Lemma iteration_losses_app (a b : list event) :
  iteration_losses (a ++ b) = iteration_losses a ++ iteration_losses b.
Proof. apply flat_map_app. Qed.

Lemma iteration_losses_rev (l : list event) :
  iteration_losses (rev l) = rev (iteration_losses l).
Proof. apply flat_map_rev_small. intros [[] | | | | |]; simpl; lia. Qed.

Lemma iteration_losses_silent (l : list event) :
  Forall silent l -> iteration_losses l = [].
Proof.
  induction 1 as [| e rest He _ IH]; [reflexivity |].
  unfold iteration_losses in *.
  destruct e as [[] | | | | |]; simpl in He; try contradiction;
    cbn [flat_map app]; exact IH.
Qed.

Lemma iteration_losses_periodic (g : Z) (l : list event) :
  Forall (periodic_event g) l -> iteration_losses l = [].
Proof.
  induction 1 as [| e rest He _ IH]; [reflexivity |].
  unfold iteration_losses in *.
  destruct e as [[] | | | | |]; simpl in He; try contradiction;
    cbn [flat_map app]; exact IH.
Qed.

(** A turn of the body that completes has called [train_step] once, on the
    model it found and the batch it drew, has kept what the call returned for
    the subclass's part, and has raised the global step by one; the line it
    printed gives the new step and the loss the call returned. *)
Lemma iteration_takes_step (env : Env) (dir : string) (train_set valid_set : list Batch)
    (s s' : State) :
  training (model s) = true ->
  iteration env dir train_set valid_set s = Next tt s' ->
  exists (b : Batch) (loss : float) (tb_logs : dict float) (net' : Net),
    train_step (vocoder env) (model s) (fst b) (snd b) = (loss, tb_logs, net')
    /\ model s'
       = mkVocoder (global_step (model s) + 1) (buffer_device (model s))
           (training (model s)) net'
    /\ fed_batches (trace s') = b :: fed_batches (trace s)
    /\ iteration_steps (trace s') = (global_step (model s) + 1) :: iteration_steps (trace s)
    /\ iteration_losses (trace s') = loss :: iteration_losses (trace s).
Proof.
  intros Htrain Hit.
  destruct (iteration_next env dir train_set valid_set s s' Hit)
    as (b & rest & lapped & loss & tb_logs & net' & m1 & pnew
        & _ & Hstep & Hset & _ & Htr & _ & _ & _ & Hper).
  assert (Hm1 : m1 = mkVocoder (global_step (model s) + 1) (buffer_device (model s))
                       (training (model s)) net').
  { unfold set_global_step in Hset.
    destruct ((INT32_MIN <=? global_step (model s) + 1)
              && (global_step (model s) + 1 <=? INT32_MAX)); [| discriminate Hset].
    injection Hset as <-. reflexivity. }
  assert (Hg1 : global_step m1 = global_step (model s) + 1) by (rewrite Hm1; reflexivity).
  assert (Hmode : train (eval m1) = m1).
  { rewrite Hm1, Htrain. reflexivity. }
  assert (Hp : fed_batches pnew = [] /\ iteration_steps pnew = []
               /\ iteration_losses pnew = [] /\ model s' = m1).
  { destruct (global_step m1 mod EVAL_FREQUENCY =? 0).
    - destruct Hper as (vnew & gnew & -> & Hv & Hg & _ & Hmodel & _).
      destruct (periodic_events_silent _ _ Hv) as (_ & Hv2 & Hv3 & _).
      destruct (periodic_events_silent _ _ Hg) as (_ & Hg2 & Hg3 & _).
      rewrite fed_batches_app, iteration_steps_app, iteration_losses_app.
      change (fed_batches (TorchSave (checkpoint_path dir (global_step m1)) :: vnew))
        with (fed_batches vnew).
      change (iteration_steps (TorchSave (checkpoint_path dir (global_step m1)) :: vnew))
        with (iteration_steps vnew).
      change (iteration_losses (TorchSave (checkpoint_path dir (global_step m1)) :: vnew))
        with (iteration_losses vnew).
      rewrite Hv2, Hv3, Hg2, Hg3.
      rewrite (iteration_losses_periodic _ _ Hv), (iteration_losses_periodic _ _ Hg).
      rewrite Hmodel, Hmode. repeat split; reflexivity.
    - destruct Hper as (-> & Hmodel & _). repeat split; try reflexivity. exact Hmodel. }
  destruct Hp as (Hp1 & Hp2 & Hp3 & Hmodel).
  destruct (report_events_read loss tb_logs (global_step m1)) as (_ & Hr2 & Hr3 & _).
  destruct (head_events_read s (on_device env b) lapped) as (_ & Hh2 & Hh3 & _).
  assert (Hr4 : iteration_losses (report_events loss tb_logs (global_step m1)) = [loss]).
  { destruct (report_events_split loss tb_logs (global_step m1)) as [q [-> Hq]].
    rewrite iteration_losses_app, (iteration_losses_silent q Hq). reflexivity. }
  assert (Hh4 : iteration_losses (head_events s (on_device env b) lapped) = []).
  { unfold head_events. destruct lapped; reflexivity. }
  exists (on_device env b), loss, tb_logs, net'.
  split; [exact Hstep |]. split; [rewrite Hmodel; exact Hm1 |].
  rewrite Htr, !fed_batches_app, !iteration_steps_app, !iteration_losses_app.
  rewrite Hp1, Hp2, Hp3, Hr2, Hr3, Hr4, Hh2, Hh3, Hh4, Hg1.
  repeat split; reflexivity.
Qed.

Lemma steps_taken_global_step (cls : VocoderClass) (batches : list Batch) :
  forall m, global_step (steps_taken cls m batches)
            = global_step m + Z.of_nat (List.length batches).
Proof.
  induction batches as [| b rest IH]; intros m.
  - simpl. lia.
  - cbn [steps_taken].
    destruct (train_step cls m (fst b) (snd b)) as [[loss tb_logs] net'].
    rewrite IH. cbn [global_step global_step_buffer List.length].
    unfold global_step. lia.
Qed.

(** [n] turns of the body, from any state in training mode. *)
Lemma iterate_steps (env : Env) (dir : string) (train_set valid_set : list Batch)
    (n : nat) :
  forall s s',
    training (model s) = true ->
    iterate env dir train_set valid_set n s = Next tt s' ->
    exists batches,
      List.length batches = n
      /\ fed_batches (trace s') = rev batches ++ fed_batches (trace s)
      /\ iteration_steps (trace s')
         = rev (map (fun i => global_step (model s) + Z.of_nat i) (seq 1 n))
             ++ iteration_steps (trace s)
      /\ iteration_losses (trace s')
         = rev (step_losses (vocoder env) (model s) batches) ++ iteration_losses (trace s)
      /\ model s' = steps_taken (vocoder env) (model s) batches.
Proof.
  induction n as [| n IH]; intros s s' Htrain Hrun.
  - injection Hrun as <-. exists []. repeat split; reflexivity.
  - cbn [iterate] in Hrun. unfold bind in Hrun.
    destruct (iteration env dir train_set valid_set s) as [[] s1 | x s1] eqn:Hit;
      [| discriminate Hrun].
    destruct (iteration_takes_step env dir train_set valid_set s s1 Htrain Hit)
      as (b & loss & tb_logs & net' & Hstep & Hmodel & Hfed & Hsteps & Hlosses).
    assert (Htrain1 : training (model s1) = true) by (rewrite Hmodel; exact Htrain).
    destruct (IH s1 s' Htrain1 Hrun) as (batches & Hlen & Hf & Hs & Hl & Hm).
    exists (b :: batches).
    split; [simpl; rewrite Hlen; reflexivity |].
    split; [rewrite Hf, Hfed; simpl; rewrite <- app_assoc; reflexivity |].
    split.
    { rewrite Hs, Hsteps.
      assert (Hg : global_step (model s1) = global_step (model s) + 1)
        by (rewrite Hmodel; reflexivity).
      rewrite Hg. cbn [seq map rev]. rewrite <- app_assoc. cbn [app].
      rewrite <- (seq_shift n 1), map_map.
      rewrite (map_ext (fun i : nat => global_step (model s) + 1 + Z.of_nat i)
                 (fun x : nat => global_step (model s) + Z.of_nat (S x)))
        by (intros i; lia).
      reflexivity. }
    split.
    { rewrite Hl, Hlosses. cbn [step_losses]. rewrite Hstep, <- Hmodel.
      cbn [rev]. rewrite <- app_assoc. reflexivity. }
    rewrite Hm. cbn [steps_taken]. rewrite Hstep, <- Hmodel. reflexivity.
Qed.

(** Every run of the loop that ends has first completed some number of
    turns of the body: it then returned, after the final save, or the next
    turn ended the process. *)
Lemma run_loop_turns (env : Env) (dir : string) (train_set valid_set : list Batch)
    (fuel : nat) :
  forall (s : State) (t : termination) (s_end : State),
    run_loop env dir train_set valid_set fuel s = Some (t, s_end) ->
    exists (n : nat) (s_n : State),
      (n < fuel)%nat
      /\ iterate env dir train_set valid_set n s = Next tt s_n
      /\ ((t = Returned
           /\ is_done (vocoder env) (model s_n) = true
           /\ finish dir s_n = Next tt s_end)
          \/ (exists x, t = Exited x
                        /\ is_done (vocoder env) (model s_n) = false
                        /\ iteration env dir train_set valid_set s_n = Halt x s_end)).
Proof.
  induction fuel as [| fuel IH]; intros s t s_end Hrun; [discriminate Hrun |].
  cbn [run_loop] in Hrun.
  destruct (is_done (vocoder env) (model s)) eqn:Hdone.
  - destruct (finish_eq dir s) as [fs' [_ Hfin]]. rewrite Hfin in Hrun.
    injection Hrun as <- <-.
    exists 0%nat, s. split; [lia |]. split; [reflexivity |].
    left. repeat split; assumption.
  - destruct (iteration env dir train_set valid_set s) as [[] s1 | x s1] eqn:Hit.
    + destruct (IH s1 t s_end Hrun) as (n & s_n & Hn & Hiter & Hend).
      exists (S n), s_n. split; [lia |]. split; [| exact Hend].
      cbn [iterate]. unfold bind. rewrite Hit. exact Hiter.
    + injection Hrun as <- <-.
      exists 0%nat, s. split; [lia |]. split; [reflexivity |].
      right. exists x. repeat split; assumption.
Qed.

(** [n] turns of the body from the state the loop is entered in. *)
Lemma iterate_counts (env : Env) (m : Vocoder) (dir : string)
    (train_set valid_set : list Batch) (fs0 : FileSystem) (n : nat) (s' : State) :
  global_step m = 0 ->
  training m = true ->
  iterate env dir train_set valid_set n (initial_state env m train_set fs0) = Next tt s' ->
  global_step (model s') = Z.of_nat n
  /\ train_step_calls (history s') = n
  /\ model s'
     = steps_taken (vocoder env) (model (initial_state env m train_set fs0))
         (fed_batches (history s'))
  /\ iteration_steps (history s') = map Z.of_nat (seq 1 n)
  /\ iteration_losses (history s')
     = step_losses (vocoder env) (model (initial_state env m train_set fs0))
         (fed_batches (history s')).
Proof.
  intros Hfresh Htrain Hrun.
  set (start := model (initial_state env m train_set fs0)).
  set (batches := fed_batches (history s')).
  assert (Hmode : training (model (initial_state env m train_set fs0)) = true).
  { unfold initial_state. destruct (cuda_available env); exact Htrain. }
  destruct (iterate_steps env dir train_set valid_set n _ s' Hmode Hrun)
    as (bs & Hlen & Hf & Hs & Hl & Hm).
  fold start in Hs, Hl, Hm.
  assert (Hg0 : global_step start = 0).
  { unfold start. rewrite initial_global_step. exact Hfresh. }
  assert (Hquiet : fed_batches (trace (initial_state env m train_set fs0)) = []
                   /\ iteration_steps (trace (initial_state env m train_set fs0)) = []
                   /\ iteration_losses (trace (initial_state env m train_set fs0)) = []).
  { destruct (initial_trace env m train_set fs0) as [line [-> [-> | ->]]];
      repeat split; reflexivity. }
  destruct Hquiet as (Hq1 & Hq2 & Hq3).
  rewrite Hq1 in Hf. rewrite Hq2 in Hs. rewrite Hq3 in Hl.
  rewrite app_nil_r in Hf, Hs, Hl.
  assert (Hbatches : batches = bs).
  { unfold batches, history. rewrite fed_batches_rev, Hf. apply rev_involutive. }
  rewrite Hbatches.
  split; [rewrite Hm, steps_taken_global_step, Hg0, Hlen; lia |].
  split.
  { unfold history, train_step_calls. rewrite filter_length_rev.
    fold (train_step_calls (trace s')).
    rewrite train_step_calls_fed, Hf, length_rev. exact Hlen. }
  split; [exact Hm |].
  split.
  { unfold history. rewrite iteration_steps_rev, Hs, rev_involutive, Hg0.
    apply map_ext. intros i. lia. }
  unfold history. rewrite iteration_losses_rev, Hl. apply rev_involutive.
Qed.

(** C1. The training loop entered with a freshly constructed model (global
    step 0, training mode). Once it has completed [n] turns of its body,
    whatever it does next, and likewise when it has returned after [n] calls:
    [train_step] was called exactly [n] times, each call on the model the
    call before it left and followed by one increment of the global step; the
    model is what these [n] calls made of the one the loop was entered with;
    the global step is [n]; and the lines printed announce the steps
    1, 2, ..., [n], each with the loss its call returned. *)
Theorem train_loop_counts_steps (env : Env) (m : Vocoder) (dir : string)
    (train_set valid_set : list Batch) (fs0 : FileSystem) :
  global_step m = 0 ->
  training m = true ->
  let start := model (initial_state env m train_set fs0) in
  let counted (n : nat) (s' : State) :=
    global_step (model s') = Z.of_nat n
    /\ train_step_calls (history s') = n
    /\ model s' = steps_taken (vocoder env) start (fed_batches (history s'))
    /\ iteration_steps (history s') = map Z.of_nat (seq 1 n)
    /\ iteration_losses (history s')
       = step_losses (vocoder env) start (fed_batches (history s')) in
  (forall (n : nat) (s' : State),
      iterate env dir train_set valid_set n (initial_state env m train_set fs0)
      = Next tt s' ->
      counted n s')
  /\ (forall (fuel : nat) (s' : State),
        train_loop env m dir train_set valid_set fs0 fuel = Some (Returned, s') ->
        counted (train_step_calls (history s')) s').
Proof.
  intros Hfresh Htrain start counted. split.
  - intros n s' Hrun.
    apply (iterate_counts env m dir train_set valid_set fs0 n s' Hfresh Htrain Hrun).
  - intros fuel s' Hrun. unfold train_loop in Hrun.
    destruct (run_loop_turns env dir train_set valid_set fuel _ _ _ Hrun)
      as (n & s_n & _ & Hiter & [(_ & _ & Hfin) | (x & Habs & _)]);
      [| discriminate Habs].
    destruct (iterate_counts env m dir train_set valid_set fs0 n s_n Hfresh Htrain Hiter)
      as (H1 & H2 & H3 & H4 & H5).
    destruct (finish_eq dir s_n) as [fs' [_ Heq]]. rewrite Heq in Hfin.
    injection Hfin as <-.
    assert (Hhist : history
                      (mkState (model s_n) fs' (train_iterator s_n) (started s_n)
                         (num_iterations s_n)
                         (TorchSave (checkpoint_path dir (global_step (model s_n)))
                            :: Print CompletedTraining :: trace s_n))
                    = history s_n
                        ++ [Print CompletedTraining;
                            TorchSave (checkpoint_path dir (global_step (model s_n)))]).
    { unfold history. cbn [trace rev]. rewrite <- app_assoc. reflexivity. }
    unfold counted. rewrite Hhist. cbn [model].
    rewrite train_step_calls_app, fed_batches_app, iteration_steps_app,
      iteration_losses_app.
    change (train_step_calls
              [Print CompletedTraining;
               TorchSave (checkpoint_path dir (global_step (model s_n)))])
      with 0%nat.
    cbn [fed_batches iteration_steps iteration_losses flat_map app].
    rewrite !app_nil_r, Nat.add_0_r, H2.
    repeat split; assumption.
Qed.

Lemma train_loop_counts_steps_witness :
  exists s_n s',
    iterate (Demo.learning_env 4) Demo.checkpoints Demo.train_set Demo.valid_set 4
      (initial_state (Demo.learning_env 4) (new_vocoder (Demo.counter 0))
         Demo.train_set [])
    = Next tt s_n
    /\ train_loop (Demo.learning_env 4) (new_vocoder (Demo.counter 0)) Demo.checkpoints
         Demo.train_set Demo.valid_set [] 5
       = Some (Returned, s')
    /\ parameters (net (model s'))
       = [("weight", ITensor (mkTensor CPU (IntData [7])))]
    /\ iteration_losses (history s') = [1%float; 2%float; 2%float; 1%float]
    /\ (global_step (model s_n) = Z.of_nat 4
        /\ train_step_calls (history s_n) = 4%nat
        /\ model s_n
           = steps_taken (Demo.learning 4) (new_vocoder (Demo.counter 0))
               (fed_batches (history s_n))
        /\ iteration_steps (history s_n) = map Z.of_nat (seq 1 4)
        /\ iteration_losses (history s_n)
           = step_losses (Demo.learning 4) (new_vocoder (Demo.counter 0))
               (fed_batches (history s_n)))
    /\ (global_step (model s') = Z.of_nat (train_step_calls (history s'))
        /\ train_step_calls (history s') = train_step_calls (history s')
        /\ model s'
           = steps_taken (Demo.learning 4) (new_vocoder (Demo.counter 0))
               (fed_batches (history s'))
        /\ iteration_steps (history s')
           = map Z.of_nat (seq 1 (train_step_calls (history s')))
        /\ iteration_losses (history s')
           = step_losses (Demo.learning 4) (new_vocoder (Demo.counter 0))
               (fed_batches (history s'))).
Proof.
  eexists. eexists.
  split; [vm_compute; reflexivity |].
  split; [vm_compute; reflexivity |].
  split; [vm_compute; reflexivity |].
  split; [vm_compute; reflexivity |].
  split.
  - apply (proj1 (train_loop_counts_steps (Demo.learning_env 4)
                    (new_vocoder (Demo.counter 0)) Demo.checkpoints Demo.train_set
                    Demo.valid_set [] eq_refl eq_refl) 4%nat).
    vm_compute. reflexivity.
  - apply (proj2 (train_loop_counts_steps (Demo.learning_env 4)
                    (new_vocoder (Demo.counter 0)) Demo.checkpoints Demo.train_set
                    Demo.valid_set [] eq_refl eq_refl) 5%nat).
    vm_compute. reflexivity.
Defined.

Lemma alarms_app (a b : list event) : alarms (a ++ b) = alarms a ++ alarms b.
Proof. apply flat_map_app. Qed.

Lemma alarms_rev (l : list event) : alarms (rev l) = rev (alarms l).
Proof. apply flat_map_rev_small. intros [| | | | |]; simpl; lia. Qed.

Lemma alarms_periodic (g : Z) (l : list event) :
  Forall (periodic_event g) l -> alarms l = [].
Proof.
  induction 1 as [| e rest He _ IH]; [reflexivity |].
  destruct e as [[] | | | | |]; simpl in He; try contradiction; exact IH.
Qed.

Lemma alarms_report_events (loss : float) (tb_logs : dict float) (step : Z) :
  alarms (report_events loss tb_logs step) = [0].
Proof.
  unfold report_events. rewrite !alarms_app.
  assert (H1 : alarms (if step mod LOG_FREQUENCY =? 0
                       then rev (map (fun kv : string * float =>
                                        AddScalar ("train/" ++ fst kv)%string (snd kv) step)
                                   tb_logs)
                              ++ [AddScalar "train/loss" loss step]
                       else []) = []).
  { destruct (step mod LOG_FREQUENCY =? 0); [| reflexivity].
    rewrite alarms_app, alarms_rev. simpl. rewrite app_nil_r.
    induction tb_logs as [| kv rest IH]; [reflexivity | exact IH]. }
  rewrite H1. destruct (step mod 50 =? 0); reflexivity.
Qed.

Lemma alarms_head_events (s : State) (b : Batch) (lapped : bool) :
  alarms (head_events s b lapped) = [deadline s].
Proof. unfold head_events. destruct lapped; reflexivity. Qed.

Lemma train_step_calls_periodic (g : Z) (l : list event) :
  Forall (periodic_event g) l -> train_step_calls l = 0%nat.
Proof.
  intros H. unfold train_step_calls.
  destruct (periodic_events_silent g l H) as [_ [_ [_ [_ [H5 _]]]]].
  rewrite H5. reflexivity.
Qed.

(** What a completed turn adds to the alarms and to the count of steps. *)
Lemma iteration_alarms (env : Env) (dir : string) (train_set valid_set : list Batch)
    (s s' : State) :
  iteration env dir train_set valid_set s = Next tt s' ->
  alarms (trace s') = 0 :: deadline s :: alarms (trace s)
  /\ train_step_calls (trace s') = S (train_step_calls (trace s))
  /\ started s' = true.
Proof.
  intros Hit.
  destruct (iteration_next env dir train_set valid_set s s' Hit)
    as (b & rest & lapped & loss & tb_logs & net' & m1 & pnew
        & _ & _ & _ & _ & Htr & Hst & _ & _ & Hper).
  assert (Hp : alarms pnew = [] /\ train_step_calls pnew = 0%nat).
  { destruct (global_step m1 mod EVAL_FREQUENCY =? 0).
    - destruct Hper as (vnew & gnew & -> & Hv & Hg & _).
      change (gnew ++ TorchSave (checkpoint_path dir (global_step m1)) :: vnew)
        with (gnew ++ [TorchSave (checkpoint_path dir (global_step m1))] ++ vnew).
      rewrite !alarms_app, !train_step_calls_app.
      rewrite (alarms_periodic _ _ Hv), (alarms_periodic _ _ Hg).
      rewrite (train_step_calls_periodic _ _ Hv), (train_step_calls_periodic _ _ Hg).
      split; reflexivity.
    - destruct Hper as (-> & _). split; reflexivity. }
  destruct Hp as [Hp1 Hp2].
  rewrite Htr, !alarms_app, !train_step_calls_app, Hp1, Hp2.
  rewrite alarms_report_events, alarms_head_events.
  destruct (report_events_read loss tb_logs (global_step m1)) as [_ [Hr2 _]].
  destruct (head_events_read s (on_device env b) lapped) as [_ [Hh2 _]].
  rewrite (train_step_calls_fed (report_events _ _ _)), Hr2.
  rewrite (train_step_calls_fed (head_events _ _ _)), Hh2.
  split; [reflexivity |]. split; [reflexivity | exact Hst].
Qed.

(** Throughout any run of the training loop, however it ends, the batch
    is fetched and [train_step] is called only while an alarm is pending, and
    every metric record, every validation, every save and every sample
    generation happens while none is; a run that returns leaves no alarm
    pending. *)
Theorem watchdog_discipline (env : Env) (m : Vocoder) (dir : string)
    (train_set valid_set : list Batch) (fs0 : FileSystem) (fuel : nat)
    (t : termination) (s' : State) :
  train_loop env m dir train_set valid_set fs0 fuel = Some (t, s') ->
  well_guarded (trace s') = true
  /\ (t = Returned -> watchdog_armed (trace s') = false).
Proof.
  unfold train_loop.
  apply (run_loop_inv env dir train_set valid_set
           (fun s => well_guarded (trace s) = true /\ watchdog_armed (trace s) = false)
           (fun t s => well_guarded (trace s) = true
                       /\ (t = Returned -> watchdog_armed (trace s) = false))).
  - intros s s1 [Hg _] _ Hit.
    pose proof (iteration_guarded env dir train_set valid_set s Hg) as H.
    rewrite Hit in H. exact H.
  - intros s x s1 [Hg _] _ Hit.
    pose proof (iteration_guarded env dir train_set valid_set s Hg) as H.
    rewrite Hit in H. split; [exact H | discriminate].
  - intros s s1 [Hg Ha] _ Hfin.
    destruct (finish_eq dir s) as [fs' [_ Heq]]. rewrite Heq in Hfin.
    injection Hfin as <-. cbn [trace well_guarded under_alarm watchdog_armed].
    rewrite Ha, Hg. split; [reflexivity | intros _; reflexivity].
  - destruct (initial_trace env m train_set fs0) as [line [-> [-> | ->]]];
      split; reflexivity.
Qed.

Lemma watchdog_discipline_witness :
  exists s',
    train_loop (Demo.env 5003 0) (Demo.at_step 4998 Demo.gan_net) Demo.checkpoints
      Demo.train_set Demo.valid_set [] 6 = Some (Returned, s')
    /\ well_guarded (trace s') = true
    /\ (Returned = Returned -> watchdog_armed (trace s') = false).
Proof.
  eexists. split; [vm_compute; reflexivity |].
  apply (watchdog_discipline (Demo.env 5003 0) (Demo.at_step 4998 Demo.gan_net)
           Demo.checkpoints Demo.train_set Demo.valid_set [] 6).
  vm_compute. reflexivity.
Defined.

Lemma deadlines_succ (n : nat) :
  deadlines (S n)
  = deadlines n ++ [if (n =? 0)%nat then MAX_FIRST_ITERATION_DELAY
                    else MAX_TRAINING_ITERATION_DELAY; 0].
Proof.
  unfold deadlines. rewrite seq_S, flat_map_app. simpl. reflexivity.
Qed.

(** A run of the training loop that returns has armed the alarm once per
    training step, with the long delay of 600 seconds for the first step of
    the run and 60 seconds for every later one, and has cancelled it after
    each step before arming it again. *)
Theorem watchdog_deadlines (env : Env) (m : Vocoder) (dir : string)
    (train_set valid_set : list Batch) (fs0 : FileSystem) (fuel : nat) (s' : State) :
  train_loop env m dir train_set valid_set fs0 fuel = Some (Returned, s') ->
  alarms (history s') = deadlines (train_step_calls (history s')).
Proof.
  intros Hrun. unfold train_loop in Hrun.
  assert (Hgoal : alarms (trace s') = rev (deadlines (train_step_calls (trace s')))).
  { apply (run_loop_inv env dir train_set valid_set
             (fun s => alarms (trace s) = rev (deadlines (train_step_calls (trace s)))
                       /\ started s = negb (train_step_calls (trace s) =? 0)%nat)
             (fun t s => t = Returned ->
                         alarms (trace s) = rev (deadlines (train_step_calls (trace s))))
          ) with (fuel := fuel) (s := initial_state env m train_set fs0)
                 (t := Returned); try reflexivity; try assumption.
    - intros s s1 [Ha Hs] _ Hit.
      destruct (iteration_alarms env dir train_set valid_set s s1 Hit) as [Ha1 [Hc1 Hs1]].
      rewrite Ha1, Hc1, deadlines_succ, rev_app_distr, Ha. split; [| exact Hs1].
      unfold deadline. rewrite Hs.
      destruct (train_step_calls (trace s) =? 0)%nat; reflexivity.
    - intros s x s1 _ _ _ Habs. discriminate Habs.
    - intros s s1 [Ha _] _ Hfin _.
      destruct (finish_eq dir s) as [fs' [_ Heq]]. rewrite Heq in Hfin.
      injection Hfin as <-. exact Ha.
    - destruct (initial_trace env m train_set fs0) as [line [Htr _]].
      rewrite Htr. split; reflexivity. }
  unfold history. rewrite alarms_rev, Hgoal, rev_involutive.
  unfold train_step_calls. rewrite filter_length_rev. reflexivity.
Qed.

Lemma watchdog_deadlines_witness :
  exists s',
    train_loop (Demo.env 3 0) (new_vocoder Demo.gan_net) Demo.checkpoints
      Demo.train_set Demo.valid_set [] 4 = Some (Returned, s')
    /\ alarms (history s') = deadlines (train_step_calls (history s'))
    /\ alarms (history s') = [600; 0; 60; 0; 60; 0].
Proof.
  eexists. split; [vm_compute; reflexivity |]. split.
  - apply (watchdog_deadlines (Demo.env 3 0) (new_vocoder Demo.gan_net)
             Demo.checkpoints Demo.train_set Demo.valid_set [] 4).
    vm_compute. reflexivity.
  - vm_compute. reflexivity.
Defined.

(** ** Runs that make no training step *)

(** A model that is already done when the loop is entered is not trained:
    [train_loop] calls [train_step] not once, arms no alarm, prints that
    training is completed and still saves the checkpoint of the current step,
    leaving the global step as it was. *)
Theorem train_loop_done_at_entry (env : Env) (m : Vocoder) (dir : string)
    (train_set valid_set : list Batch) (fs0 : FileSystem) (fuel : nat) :
  is_done (vocoder env) (model (initial_state env m train_set fs0)) = true ->
  exists s',
    train_loop env m dir train_set valid_set fs0 (S fuel) = Some (Returned, s')
    /\ train_step_calls (history s') = 0%nat
    /\ alarms (history s') = []
    /\ saved_paths (history s') = [checkpoint_path dir (global_step m)]
    /\ global_step (model s') = global_step m
    /\ save_model (model (initial_state env m train_set fs0)) dir fs0 = Ok (fs s').
Proof.
  intros Hdone. unfold train_loop. cbn [run_loop]. rewrite Hdone.
  destruct (finish_eq dir (initial_state env m train_set fs0)) as [fs' [Hsave Hfin]].
  rewrite Hfin. eexists. split; [reflexivity |].
  unfold history. cbn [trace model fs].
  rewrite initial_global_step.
  destruct (initial_trace env m train_set fs0) as [line [-> _]].
  repeat split; try reflexivity. exact Hsave.
Qed.

Lemma train_loop_done_at_entry_witness :
  is_done (vocoder (Demo.env 5000 0))
    (model (initial_state (Demo.env 5000 0) (Demo.at_step 5000 Demo.gan_net)
              Demo.train_set []))
  = true
  /\ exists s',
      train_loop (Demo.env 5000 0) (Demo.at_step 5000 Demo.gan_net) Demo.checkpoints
        Demo.train_set Demo.valid_set [] 1 = Some (Returned, s')
      /\ train_step_calls (history s') = 0%nat
      /\ alarms (history s') = []
      /\ saved_paths (history s')
         = [checkpoint_path Demo.checkpoints (global_step (Demo.at_step 5000 Demo.gan_net))]
      /\ global_step (model s') = global_step (Demo.at_step 5000 Demo.gan_net)
      /\ save_model
           (model (initial_state (Demo.env 5000 0) (Demo.at_step 5000 Demo.gan_net)
                     Demo.train_set []))
           Demo.checkpoints [] = Ok (fs s').
Proof.
  split; [vm_compute; reflexivity |].
  apply (train_loop_done_at_entry (Demo.env 5000 0) (Demo.at_step 5000 Demo.gan_net)
           Demo.checkpoints Demo.train_set Demo.valid_set [] 0).
  vm_compute. reflexivity.
Defined.

(** Over an empty training set a model that is not done is never
    trained: the generator restarts without yielding, the alarm armed with the
    first-iteration delay goes off, and the process exits with status 1 without
    a call of [train_step], a metric record or a checkpoint. *)
Theorem train_loop_empty_training_set (env : Env) (m : Vocoder) (dir : string)
    (valid_set : list Batch) (fs0 : FileSystem) (fuel : nat) :
  is_done (vocoder env) (model (initial_state env m [] fs0)) = false ->
  exists s',
    train_loop env m dir [] valid_set fs0 (S fuel) = Some (Exited (HardExit 1), s')
    /\ alarms (history s') = [MAX_FIRST_ITERATION_DELAY]
    /\ In (Print IterationTookTooLong) (history s')
    /\ train_step_calls (history s') = 0%nat
    /\ metrics (history s') = []
    /\ saved_paths (history s') = []
    /\ fs s' = fs0.
Proof.
  intros Hdone. unfold train_loop. cbn [run_loop]. rewrite Hdone.
  rewrite iteration_eq. cbn [initial_state train_iterator draw_batch].
  eexists. split; [reflexivity |].
  unfold history. cbn [push trace fs deadline started initial_state app rev].
  repeat split; try reflexivity.
  right. right. right. left. reflexivity.
Qed.

Lemma train_loop_empty_training_set_witness :
  is_done (vocoder (Demo.env 10 0))
    (model (initial_state (Demo.env 10 0) (new_vocoder Demo.gan_net) [] [])) = false
  /\ exists s',
      train_loop (Demo.env 10 0) (new_vocoder Demo.gan_net) Demo.checkpoints []
        Demo.valid_set [] 1 = Some (Exited (HardExit 1), s')
      /\ alarms (history s') = [MAX_FIRST_ITERATION_DELAY]
      /\ In (Print IterationTookTooLong) (history s')
      /\ train_step_calls (history s') = 0%nat
      /\ metrics (history s') = []
      /\ saved_paths (history s') = []
      /\ fs s' = [].
Proof.
  split; [vm_compute; reflexivity |].
  apply (train_loop_empty_training_set (Demo.env 10 0) (new_vocoder Demo.gan_net)
           Demo.checkpoints Demo.valid_set [] 0).
  vm_compute. reflexivity.
Defined.

(** ** When scalars are logged *)

Lemma validation_on_log_frequency (g : Z) :
  g mod EVAL_FREQUENCY = 0 -> g mod LOG_FREQUENCY = 0.
Proof.
  unfold EVAL_FREQUENCY, LOG_FREQUENCY. intros E.
  rewrite (Z.div_mod g 5000) by lia. rewrite E, Z.add_0_r.
  replace (5000 * (g / 5000)) with (500 * (g / 5000) * 10) by lia.
  apply Z.mod_mul. lia.
Qed.

Lemma report_events_scalars (loss : float) (tb_logs : dict float) (step : Z) :
  In (Print (IterationLine step loss)) (report_events loss tb_logs step)
  /\ (step mod LOG_FREQUENCY = 0 ->
      In (AddScalar "train/loss" loss step) (report_events loss tb_logs step))
  /\ forall tag value k,
      In (AddScalar tag value k) (report_events loss tb_logs step) ->
      k = step /\ step mod LOG_FREQUENCY = 0.
Proof.
  unfold report_events. split; [| split].
  - rewrite !in_app_iff. right. right. right. left. reflexivity.
  - intros E. apply Z.eqb_eq in E. rewrite E.
    rewrite !in_app_iff. left. right. left. reflexivity.
  - intros tag value k. rewrite !in_app_iff.
    intros [H | [H | [H | H]]].
    + destruct (step mod LOG_FREQUENCY =? 0) eqn:E; [| destruct H].
      apply Z.eqb_eq in E. split; [| exact E].
      apply in_app_iff in H. destruct H as [H | [H | []]].
      * apply in_rev in H. apply in_map_iff in H. destruct H as [kv [H _]].
        injection H as _ _ <-. reflexivity.
      * injection H as _ _ <-. reflexivity.
    + destruct H as [H | []]. discriminate H.
    + destruct (step mod 50 =? 0); [destruct H as [H | []]; discriminate H | destruct H].
    + destruct H as [H | []]. discriminate H.
Qed.

Lemma head_events_no_scalar (s : State) (b : Batch) (lapped : bool)
    (tag : string) (value : float) (k : Z) :
  ~ In (AddScalar tag value k) (head_events s b lapped).
Proof.
  unfold head_events. destruct lapped; simpl; intros H;
    repeat (destruct H as [H | H]; [discriminate H |]); exact H.
Qed.

Lemma periodic_event_scalar (g : Z) (l : list event) (tag : string) (value : float)
    (k : Z) :
  Forall (periodic_event g) l -> In (AddScalar tag value k) l -> k = g.
Proof.
  intros Hall Hin. rewrite Forall_forall in Hall. apply (Hall _ Hin).
Qed.

(** The scalars logged so far, as an invariant of the loop. *)
Lemma logging_invariant (env : Env) (dir : string) (train_set valid_set : list Batch)
    (g0 : Z) (s s' : State) :
  g0 <= global_step (model s) ->
  (forall k, g0 < k <= global_step (model s) -> k mod LOG_FREQUENCY = 0 ->
             exists loss, In (Print (IterationLine k loss)) (trace s)
                          /\ In (AddScalar "train/loss" loss k) (trace s)) ->
  (forall tag value k, In (AddScalar tag value k) (trace s) ->
                       g0 < k <= global_step (model s) /\ k mod LOG_FREQUENCY = 0) ->
  iteration env dir train_set valid_set s = Next tt s' ->
  g0 <= global_step (model s')
  /\ (forall k, g0 < k <= global_step (model s') -> k mod LOG_FREQUENCY = 0 ->
                exists loss, In (Print (IterationLine k loss)) (trace s')
                             /\ In (AddScalar "train/loss" loss k) (trace s'))
  /\ (forall tag value k, In (AddScalar tag value k) (trace s') ->
                          g0 < k <= global_step (model s') /\ k mod LOG_FREQUENCY = 0).
Proof.
  intros Hg0 Hlogged Honly Hit.
  destruct (iteration_next env dir train_set valid_set s s' Hit)
    as (b & rest & lapped & loss & tb_logs & net' & m1 & pnew
        & _ & _ & Hset & _ & Htr & _ & _ & _ & Hper).
  apply set_global_step_ok in Hset. destruct Hset as [Hg1 _].
  destruct (report_events_scalars loss tb_logs (global_step m1)) as [Hline [Hloss Hrep]].
  assert (Hstep : global_step (model s') = global_step m1
                  /\ forall tag value k, In (AddScalar tag value k) pnew ->
                                         k = global_step m1
                                         /\ global_step m1 mod LOG_FREQUENCY = 0).
  { destruct (global_step m1 mod EVAL_FREQUENCY =? 0) eqn:Heval.
    - destruct Hper as (vnew & gnew & -> & Hv & Hg & _ & -> & _).
      split; [reflexivity |]. intros tag value k Hin.
      apply Z.eqb_eq in Heval. split; [| apply validation_on_log_frequency; exact Heval].
      apply in_app_iff in Hin. destruct Hin as [Hin | [Hin | Hin]].
      + apply (periodic_event_scalar _ _ _ _ _ Hg Hin).
      + discriminate Hin.
      + apply (periodic_event_scalar _ _ _ _ _ Hv Hin).
    - destruct Hper as (-> & -> & _). split; [reflexivity |].
      intros tag value k []. }
  destruct Hstep as [Hgs Hpnew]. rewrite Hgs, Hg1.
  split; [lia |]. split.
  - intros k Hk Hmod.
    destruct (Z.eq_dec k (global_step (model s) + 1)) as [-> | Hne].
    + exists loss. rewrite Htr, !in_app_iff. rewrite <- Hg1. split.
      * right. left. exact Hline.
      * right. left. apply Hloss. rewrite Hg1. exact Hmod.
    + destruct (Hlogged k) as [v [Hv1 Hv2]]; [lia | exact Hmod |].
      exists v. rewrite Htr, !in_app_iff. split; right; right; right; assumption.
  - intros tag value k Hin. rewrite Htr, !in_app_iff in Hin.
    destruct Hin as [Hin | [Hin | [Hin | Hin]]].
    + destruct (Hpnew _ _ _ Hin) as [-> Hmod]. rewrite Hg1 in *. split; [lia | exact Hmod].
    + destruct (Hrep _ _ _ Hin) as [-> Hmod]. rewrite Hg1 in *. split; [lia | exact Hmod].
    + exfalso. apply (head_events_no_scalar _ _ _ _ _ _ Hin).
    + destruct (Honly _ _ _ Hin) as [Hk Hmod]. split; [lia | exact Hmod].
Qed.

(** In a run of the training loop that returns, every step that is a
    multiple of [LOG_FREQUENCY] has its scalar [train/loss], holding the loss
    printed in the line of that step, and no scalar at all, of training or of
    validation, is written for a step that is not such a multiple or that
    the run did not make. *)
Theorem scalars_follow_log_frequency (env : Env) (m : Vocoder) (dir : string)
    (train_set valid_set : list Batch) (fs0 : FileSystem) (fuel : nat) (s' : State) :
  train_loop env m dir train_set valid_set fs0 fuel = Some (Returned, s') ->
  (forall k, global_step m < k <= global_step (model s') ->
             k mod LOG_FREQUENCY = 0 ->
             exists loss, In (Print (IterationLine k loss)) (history s')
                          /\ In (AddScalar "train/loss" loss k) (history s'))
  /\ (forall tag value k, In (AddScalar tag value k) (history s') ->
                          global_step m < k <= global_step (model s')
                          /\ k mod LOG_FREQUENCY = 0).
Proof.
  intros Hrun. unfold train_loop in Hrun.
  set (Inv := fun s : State =>
                global_step m <= global_step (model s)
                /\ (forall k, global_step m < k <= global_step (model s) ->
                              k mod LOG_FREQUENCY = 0 ->
                              exists loss, In (Print (IterationLine k loss)) (trace s)
                                           /\ In (AddScalar "train/loss" loss k) (trace s))
                /\ (forall tag value k, In (AddScalar tag value k) (trace s) ->
                                        global_step m < k <= global_step (model s)
                                        /\ k mod LOG_FREQUENCY = 0)).
  assert (Hgoal : Inv s').
  { apply (run_loop_inv env dir train_set valid_set Inv (fun t s => t = Returned -> Inv s))
      with (fuel := fuel) (s := initial_state env m train_set fs0) (t := Returned);
      try reflexivity; try assumption.
    - intros s s1 [H1 [H2 H3]] _ Hit.
      apply (logging_invariant env dir train_set valid_set (global_step m) s s1 H1 H2 H3 Hit).
    - intros s x s1 _ _ _ Habs. discriminate Habs.
    - intros s s1 [H1 [H2 H3]] _ Hfin _.
      destruct (finish_eq dir s) as [fs' [_ Heq]]. rewrite Heq in Hfin.
      injection Hfin as <-. unfold Inv. cbn [model trace].
      split; [exact H1 |]. split.
      + intros k Hk Hmod. destruct (H2 k Hk Hmod) as [v [Hv1 Hv2]].
        exists v. split; right; right; assumption.
      + intros tag value k [Hin | [Hin | Hin]]; try discriminate Hin.
        apply (H3 _ _ _ Hin).
    - unfold Inv. rewrite initial_global_step.
      destruct (initial_trace env m train_set fs0) as [line [-> _]].
      split; [lia |]. split.
      + intros k Hk. lia.
      + intros tag value k [Hin | []]. discriminate Hin. }
  destruct Hgoal as [_ [H2 H3]]. unfold history. split.
  - intros k Hk Hmod. destruct (H2 k Hk Hmod) as [v [Hv1 Hv2]].
    exists v. split; apply (proj1 (in_rev _ _)); assumption.
  - intros tag value k Hin. apply (proj2 (in_rev _ _)) in Hin. apply (H3 _ _ _ Hin).
Qed.

Lemma scalars_follow_log_frequency_witness :
  exists s',
    train_loop (Demo.env 5003 0) (Demo.at_step 4998 Demo.gan_net) Demo.checkpoints
      Demo.train_set Demo.valid_set [] 6 = Some (Returned, s')
    /\ ((forall k, global_step (Demo.at_step 4998 Demo.gan_net) < k <= global_step (model s') ->
                   k mod LOG_FREQUENCY = 0 ->
                   exists loss, In (Print (IterationLine k loss)) (history s')
                                /\ In (AddScalar "train/loss" loss k) (history s'))
        /\ (forall tag value k, In (AddScalar tag value k) (history s') ->
                                global_step (Demo.at_step 4998 Demo.gan_net) < k
                                <= global_step (model s')
                                /\ k mod LOG_FREQUENCY = 0))
    /\ metrics (history s')
       = [AddScalar "train/loss" 1 5000; AddScalar "train/aux" 0.5 5000;
          AddScalar "valid/a" 2 5000; AddScalar "valid/b" 3 5000].
Proof.
  eexists. split; [vm_compute; reflexivity |]. split.
  - apply (scalars_follow_log_frequency (Demo.env 5003 0) (Demo.at_step 4998 Demo.gan_net)
             Demo.checkpoints Demo.train_set Demo.valid_set [] 6).
    vm_compute. reflexivity.
  - vm_compute. reflexivity.
Defined.

(** ** The checkpoints a run leaves behind *)

Lemma saved_step_record (m : Vocoder) :
  saved_step (move_state_dict_to_device (checkpoint_record m) true)
  = Some (global_step m).
Proof. reflexivity. Qed.

(** What a save adds to the records that can be loaded. *)
Lemma save_model_loadable (m : Vocoder) (dir : string) (fs fs' : FileSystem) (k : Z) :
  0 <= k -> 0 <= global_step m ->
  save_model m dir fs = Ok fs' ->
  (k = global_step m
   \/ exists record, torch_load (checkpoint_path dir k) fs = Ok record
                     /\ saved_step record = Some k
                     /\ tensors_on CPU record = true) ->
  exists record, torch_load (checkpoint_path dir k) fs' = Ok record
                 /\ saved_step record = Some k
                 /\ tensors_on CPU record = true.
Proof.
  intros Hk Hg Hsave H.
  destruct (Z.eq_dec k (global_step m)) as [-> | Hne].
  - exists (move_state_dict_to_device (checkpoint_record m) true).
    split; [apply (torch_load_after_save m dir fs fs' Hsave) |].
    split; [apply saved_step_record | apply (tensors_on_moved (checkpoint_record m) true)].
  - destruct H as [H | [record [Hload Hrec]]]; [contradiction |].
    exists record. split; [| exact Hrec].
    rewrite (torch_load_other_file m dir fs fs' (checkpoint_path dir k) Hsave);
      [exact Hload |].
    intros E. apply Hne. apply (checkpoint_path_inj dir k (global_step m) Hk Hg E).
Qed.

(** A run of the training loop that starts at a non-negative step and
    returns leaves a loadable checkpoint for every multiple of
    [EVAL_FREQUENCY] it passed and for its final step: at the end each of
    these files holds a record of its own step, on the host; no later save of
    the run has replaced it with the record of another step. *)
Theorem checkpoints_persist (env : Env) (m : Vocoder) (dir : string)
    (train_set valid_set : list Batch) (fs0 : FileSystem) (fuel : nat) (s' : State) :
  0 <= global_step m ->
  train_loop env m dir train_set valid_set fs0 fuel = Some (Returned, s') ->
  forall k,
    (global_step m < k <= global_step (model s') /\ k mod EVAL_FREQUENCY = 0)
    \/ k = global_step (model s') ->
    exists record,
      torch_load (checkpoint_path dir k) (fs s') = Ok record
      /\ saved_step record = Some k
      /\ tensors_on CPU record = true.
Proof.
  intros Hpos Hrun. unfold train_loop in Hrun.
  set (Inv := fun s : State =>
                global_step m <= global_step (model s)
                /\ forall k, global_step m < k <= global_step (model s) ->
                             k mod EVAL_FREQUENCY = 0 ->
                             exists record,
                               torch_load (checkpoint_path dir k) (fs s) = Ok record
                               /\ saved_step record = Some k
                               /\ tensors_on CPU record = true).
  apply (run_loop_inv env dir train_set valid_set Inv
           (fun t s =>
              t = Returned ->
              forall k,
                (global_step m < k <= global_step (model s) /\ k mod EVAL_FREQUENCY = 0)
                \/ k = global_step (model s) ->
                exists record,
                  torch_load (checkpoint_path dir k) (fs s) = Ok record
                  /\ saved_step record = Some k
                  /\ tensors_on CPU record = true))
    with (fuel := fuel) (s := initial_state env m train_set fs0) (t := Returned);
    try reflexivity; try assumption.
  - intros s s1 [Hg0 Hfiles] _ Hit.
    destruct (iteration_next env dir train_set valid_set s s1 Hit)
      as (b & rest & lapped & loss & tb_logs & net' & m1 & pnew
          & _ & _ & Hset & _ & _ & _ & _ & _ & Hper).
    apply set_global_step_ok in Hset. destruct Hset as [Hg1 _].
    destruct (global_step m1 mod EVAL_FREQUENCY =? 0) eqn:Heval.
    + destruct Hper as (vnew & gnew & _ & _ & _ & _ & Hmodel & Hsave).
      unfold Inv. rewrite Hmodel.
      change (global_step (train (eval m1))) with (global_step m1). rewrite Hg1.
      split; [lia |]. intros k Hk Hmod.
      apply (save_model_loadable (train (eval m1)) dir (fs s) (fs s1) k);
        [lia | change (global_step (train (eval m1))) with (global_step m1); lia
         | exact Hsave |].
      change (global_step (train (eval m1))) with (global_step m1). rewrite Hg1.
      destruct (Z.eq_dec k (global_step (model s) + 1)) as [-> | Hne];
        [left; reflexivity | right; apply Hfiles; [lia | exact Hmod]].
    + destruct Hper as (_ & Hmodel & Hfs). unfold Inv. rewrite Hmodel, Hfs, Hg1.
      split; [lia |]. intros k Hk Hmod.
      destruct (Z.eq_dec k (global_step (model s) + 1)) as [-> | Hne].
      * apply Z.eqb_neq in Heval. rewrite Hg1 in Heval. contradiction.
      * apply Hfiles; [lia | exact Hmod].
  - intros s x s1 _ _ _ Habs. discriminate Habs.
  - intros s s1 [Hg0 Hfiles] _ Hfin _ k Hk.
    destruct (finish_eq dir s) as [fs' [Hsave Heq]]. rewrite Heq in Hfin.
    injection Hfin as <-. cbn [model fs] in *.
    apply (save_model_loadable (model s) dir (fs s) fs' k); [lia | lia | exact Hsave |].
    destruct Hk as [[Hk Hmod] | ->]; [| left; reflexivity].
    right. apply Hfiles; assumption.
  - unfold Inv. rewrite initial_global_step. split; [lia |]. intros k Hk. lia.
Qed.

Lemma checkpoints_persist_witness :
  exists s',
    train_loop (Demo.env 5003 0) (Demo.at_step 4998 Demo.gan_net) Demo.checkpoints
      Demo.train_set Demo.valid_set [] 6 = Some (Returned, s')
    /\ (forall k,
          (global_step (Demo.at_step 4998 Demo.gan_net) < k <= global_step (model s')
           /\ k mod EVAL_FREQUENCY = 0)
          \/ k = global_step (model s') ->
          exists record,
            torch_load (checkpoint_path Demo.checkpoints k) (fs s') = Ok record
            /\ saved_step record = Some k
            /\ tensors_on CPU record = true)
    /\ dict_keys (listing (fs s') Demo.checkpoints)
       = [checkpoint_name 5000; checkpoint_name 5003].
Proof.
  eexists. split; [vm_compute; reflexivity |]. split.
  - apply (checkpoints_persist (Demo.env 5003 0) (Demo.at_step 4998 Demo.gan_net)
             Demo.checkpoints Demo.train_set Demo.valid_set [] 6).
    + vm_compute. discriminate.
    + vm_compute. reflexivity.
  - vm_compute. reflexivity.
Defined.

(** ** Resuming from what a run left *)





(** ** The final save after a save of the loop *)

Lemma dict_set_same_value {V : Type} (k : string) (v : V) (d : dict V) :
  dict_get k d = Some v -> dict_set k v d = d.
Proof.
  induction d as [| [k0 v0] rest IH]; simpl; [discriminate |].
  destruct (String.eqb k0 k) eqn:E.
  - intros H. injection H as ->. reflexivity.
  - intros H. rewrite (IH H). reflexivity.
Qed.

Lemma save_model_again (m : Vocoder) (dir : string) (fs fs' : FileSystem) :
  save_model m dir fs = Ok fs' -> save_model m dir fs' = Ok fs'.
Proof.
  intros Hsave.
  destruct (save_model_writes m dir fs) as [fs1 [Hs [Hget _]]].
  rewrite Hs in Hsave. injection Hsave as <-.
  unfold save_model, torch_save, makedirs. cbn [os_path_join dirname basename].
  rewrite Hget. rewrite Hget. f_equal.
  apply dict_set_same_value. rewrite Hget. f_equal.
  symmetry. apply dict_set_same_value. apply dict_get_set_same.
Qed.

(** When the loop ends right after an iteration whose step is a multiple
    of [EVAL_FREQUENCY], the final save goes to the file that iteration has
    just written and writes the same record again: the file system is left
    exactly as it was. *)
Theorem final_save_after_periodic_save (env : Env) (dir : string)
    (train_set valid_set : list Batch) (s0 s : State) :
  iteration env dir train_set valid_set s0 = Next tt s ->
  global_step (model s) mod EVAL_FREQUENCY = 0 ->
  exists s',
    finish dir s = Next tt s'
    /\ saved_paths (trace s')
       = checkpoint_path dir (global_step (model s))
           :: checkpoint_path dir (global_step (model s)) :: saved_paths (trace s0)
    /\ fs s' = fs s.
Proof.
  intros Hit Hmod.
  destruct (iteration_next env dir train_set valid_set s0 s Hit)
    as (b & rest & lapped & loss & tb_logs & net' & m1 & pnew
        & _ & _ & _ & _ & Htr & _ & _ & _ & Hper).
  destruct (global_step m1 mod EVAL_FREQUENCY =? 0) eqn:Heval.
  - destruct Hper as (vnew & gnew & -> & Hv & Hg & _ & Hmodel & Hsave).
    destruct (finish_eq dir s) as [fs' [Hfinal Hfin]].
    rewrite Hmodel in Hfinal.
    rewrite (save_model_again _ _ _ _ Hsave) in Hfinal. injection Hfinal as <-.
    eexists. split; [exact Hfin |]. split; [| reflexivity].
    cbn [trace saved_paths flat_map app]. fold (saved_paths (trace s)).
    rewrite Htr, !saved_paths_app. cbn [saved_paths flat_map app].
    fold (saved_paths vnew).
    destruct (periodic_events_silent _ _ Hv) as [Hv0 _].
    destruct (periodic_events_silent _ _ Hg) as [Hg0 _].
    destruct (report_events_read loss tb_logs (global_step m1)) as [Hr0 _].
    destruct (head_events_read s0 (on_device env b) lapped) as [Hh0 _].
    rewrite Hv0, Hg0, Hr0, Hh0, Hmodel. reflexivity.
  - destruct Hper as (_ & Hmodel & _). rewrite Hmodel in Hmod.
    apply Z.eqb_neq in Heval. contradiction.
Qed.

Lemma final_save_after_periodic_save_witness :
  exists s s',
    iteration (Demo.env 5000 0) Demo.checkpoints Demo.train_set Demo.valid_set
      (Demo.entry 5000 0 4999) = Next tt s
    /\ global_step (model s) mod EVAL_FREQUENCY = 0
    /\ finish Demo.checkpoints s = Next tt s'
    /\ saved_paths (trace s')
       = checkpoint_path Demo.checkpoints (global_step (model s))
           :: checkpoint_path Demo.checkpoints (global_step (model s))
           :: saved_paths (trace (Demo.entry 5000 0 4999))
    /\ fs s' = fs s.
Proof.
  eexists.
  assert (Hit : iteration (Demo.env 5000 0) Demo.checkpoints Demo.train_set
                  Demo.valid_set (Demo.entry 5000 0 4999)
                = Next tt _) by (vm_compute; reflexivity).
  destruct (final_save_after_periodic_save (Demo.env 5000 0) Demo.checkpoints
              Demo.train_set Demo.valid_set (Demo.entry 5000 0 4999) _ Hit)
    as [s' Hs']; [vm_compute; reflexivity |].
  exists s'. split; [exact Hit |]. split; [vm_compute; reflexivity | exact Hs'].
Defined.

(** ** The training stream, for any length and any number of steps *)

(** The cursor of the stream with what [stream_position] leaves open: a pass
    in which nothing was consumed yet is the first one. *)
Lemma stream_cursor_step (env : Env) (train_set : list Batch) (s s' : State)
    (b : Batch) (rest : list Batch) (lapped : bool) (new : list event) (p : nat) :
  (p <= List.length train_set)%nat ->
  train_iterator s = skipn p train_set ->
  rev (fed_batches (trace s))
  = map (on_device env)
      (List.concat (repeat train_set (laps (trace s))) ++ firstn p train_set) ->
  draw_batch train_set (train_iterator s) = Some (b, rest, lapped) ->
  trace s' = new ++ trace s ->
  train_iterator s' = rest ->
  fed_batches new = [on_device env b] ->
  filter is_lap new = (if lapped then [Print CompletedEpoch] else []) ->
  exists p',
    (1 <= p' <= List.length train_set)%nat
    /\ train_iterator s' = skipn p' train_set
    /\ rev (fed_batches (trace s'))
       = map (on_device env)
           (List.concat (repeat train_set (laps (trace s'))) ++ firstn p' train_set).
Proof.
  intros Hp Hit Hfed Hdraw Htr Hit' Hnew Hlap.
  assert (Hfed' : rev (fed_batches (trace s'))
                  = rev (fed_batches (trace s)) ++ [on_device env b]).
  { rewrite Htr, fed_batches_app, Hnew, rev_app_distr. reflexivity. }
  assert (Hlaps : laps (trace s')
                  = ((if lapped then 1 else 0) + laps (trace s))%nat).
  { rewrite Htr, laps_app. unfold laps at 1. rewrite Hlap. destruct lapped; reflexivity. }
  unfold draw_batch in Hdraw. rewrite Hit in Hdraw.
  destruct (skipn p train_set) as [| b1 rest1] eqn:Hskip.
  - destruct train_set as [| b1 rest1] eqn:Hts; [discriminate |].
    injection Hdraw as <- <- <-.
    exists 1%nat. split; [simpl; lia |]. split; [rewrite Hit'; reflexivity |].
    rewrite Hfed', Hfed, Hlaps.
    assert (Hfull : firstn p (b1 :: rest1) = b1 :: rest1).
    { apply firstn_all2.
      destruct (Nat.le_gt_cases (List.length (b1 :: rest1)) p) as [Hle | Hgt];
        [exact Hle |].
      pose proof (length_skipn p (b1 :: rest1)) as Hl. rewrite Hskip in Hl.
      cbn [List.length] in Hl, Hgt. lia. }
    rewrite Hfull, concat_repeat_snoc.
    change (firstn 1 (b1 :: rest1)) with [b1].
    rewrite <- map_last. reflexivity.
  - injection Hdraw as <- <- <-.
    destruct (skipn_cons_inv p train_set b1 rest1 Hskip) as [Hlt [Hs Hf]].
    exists (S p). split; [lia |]. split; [rewrite Hit', Hs; reflexivity |].
    rewrite Hfed', Hfed, Hlaps, Hf. cbn [Nat.add].
    rewrite app_assoc, !map_app. reflexivity.
Qed.

Lemma firstn_concat_repeat {A : Type} (l : list A) (k p n : nat) :
  (p <= List.length l)%nat -> (k < n)%nat ->
  firstn (k * List.length l + p) (List.concat (repeat l n))
  = List.concat (repeat l k) ++ firstn p l.
Proof.
  revert n. induction k as [| k IH]; intros n Hp Hk.
  - destruct n as [| n]; [lia |]. cbn [Nat.mul Nat.add repeat List.concat app].
    rewrite firstn_app. replace (p - List.length l)%nat with 0%nat by lia.
    cbn [firstn]. rewrite app_nil_r. reflexivity.
  - destruct n as [| n]; [lia |]. cbn [repeat List.concat].
    replace (S k * List.length l + p)%nat
      with (List.length l + (k * List.length l + p))%nat by lia.
    rewrite firstn_app_2, (IH n Hp) by lia. rewrite app_assoc. reflexivity.
Qed.

(** Over a training set of any positive length the loop feeds
    [train_step] the batches of the set in order, again and again: after [n]
    steps the batches fed are the first [n] of the set repeated, the stream
    has restarted [(n - 1) / length] times, once each time a pass was
    exhausted and another batch was asked for, and what is left of the pass
    in progress is the rest of the set. This holds however the run ends. *)
Theorem stream_cycles (env : Env) (m : Vocoder) (dir : string)
    (train_set valid_set : list Batch) (fs0 : FileSystem) (fuel : nat)
    (t : termination) (s' : State) :
  train_set <> [] ->
  train_loop env m dir train_set valid_set fs0 fuel = Some (t, s') ->
  let n := train_step_calls (history s') in
  fed_batches (history s')
  = map (on_device env) (firstn n (List.concat (repeat train_set n)))
  /\ laps (history s') = ((n - 1) / List.length train_set)%nat
  /\ train_iterator s'
     = skipn (n - laps (history s') * List.length train_set) train_set.
Proof.
  intros Hne Hrun. unfold train_loop in Hrun.
  set (Inv := fun s : State =>
                exists p,
                  (p <= List.length train_set)%nat
                  /\ (p = 0%nat -> laps (trace s) = 0%nat)
                  /\ train_iterator s = skipn p train_set
                  /\ rev (fed_batches (trace s))
                     = map (on_device env)
                         (List.concat (repeat train_set (laps (trace s)))
                            ++ firstn p train_set)).
  assert (Hstep : forall s s1,
             Inv s ->
             (iteration env dir train_set valid_set s = Next tt s1
              \/ exists x, iteration env dir train_set valid_set s = Halt x s1) ->
             Inv s1).
  { intros s s1 [p [Hp [_ [Hit Hfed]]]] Hres.
    destruct (draw_batch train_set (train_iterator s)) as [[[b rest] lapped] |] eqn:Hdraw.
    - destruct (iteration_effect env dir train_set valid_set s b rest lapped Hdraw)
        as [s2 [new [Hres2 [Htr [Hrest [Hfed2 [Hlap _]]]]]]].
      assert (Hs : s2 = s1).
      { destruct Hres2 as [[Hres2 _] | [x1 Hres2]]; destruct Hres as [Hres | [x Hres]];
          rewrite Hres in Hres2; try discriminate; injection Hres2; intros; subst;
            reflexivity. }
      subst s2.
      destruct (stream_cursor_step env train_set s s1 b rest lapped new p
                  Hp Hit Hfed Hdraw Htr Hrest Hfed2 Hlap) as [p' [Hp' [Hit' Hfed']]].
      exists p'. split; [lia |]. split; [lia |]. split; assumption.
    - destruct (iteration_stall env dir train_set valid_set s Hdraw) as [Hempty _].
      contradiction. }
  assert (Hinv : Inv s').
  { apply (run_loop_inv env dir train_set valid_set Inv (fun _ s => Inv s))
      with (fuel := fuel) (s := initial_state env m train_set fs0) (t := t).
    - intros s s1 Hinv _ Hit. apply (Hstep s s1 Hinv). left. exact Hit.
    - intros s x s1 Hinv _ Hit. apply (Hstep s s1 Hinv). right. exists x. exact Hit.
    - intros s s1 [p Hp] _ Hfin.
      destruct (finish_eq dir s) as [fs' [_ Heq]]. rewrite Heq in Hfin.
      injection Hfin as <-. exists p. exact Hp.
    - exists 0%nat.
      destruct (initial_trace env m train_set fs0) as [line [Htr Hline]].
      rewrite Htr. split; [lia |].
      split; [intros _; destruct Hline as [-> | ->]; reflexivity |].
      split; [reflexivity |].
      destruct Hline as [-> | ->]; reflexivity.
    - exact Hrun. }
  destruct Hinv as [p [Hp [Hp0 [Hit Hfed]]]].
  cbv zeta. unfold history.
  assert (Hlapsrev : laps (rev (trace s')) = laps (trace s')) by apply filter_length_rev.
  assert (Hcalls : train_step_calls (rev (trace s'))
                   = (laps (trace s') * List.length train_set + p)%nat).
  { rewrite train_step_calls_fed, fed_batches_rev, Hfed, length_map, length_app,
      length_concat_repeat, length_firstn. lia. }
  assert (Hlen : (0 < List.length train_set)%nat).
  { destruct train_set; [contradiction | simpl; lia]. }
  rewrite Hlapsrev, Hcalls, fed_batches_rev, Hfed.
  split; [| split].
  - f_equal. destruct (Nat.eq_dec p 0) as [-> | Hpos].
    + rewrite (Hp0 eq_refl). reflexivity.
    + symmetry. apply firstn_concat_repeat; [exact Hp | nia].
  - destruct (Nat.eq_dec p 0) as [-> | Hpos].
    + rewrite (Hp0 eq_refl).
      replace (0 * List.length train_set + 0 - 1)%nat with 0%nat by lia.
      symmetry. apply Nat.div_small. exact Hlen.
    + apply Nat.div_unique with (r := (p - 1)%nat); [lia | nia].
  - rewrite Hit. f_equal. lia.
Qed.

Lemma stream_cycles_witness :
  exists s',
    train_loop (Demo.env 10 0) (new_vocoder Demo.gan_net) Demo.checkpoints
      Demo.train_set Demo.valid_set [] 11 = Some (Returned, s')
    /\ train_step_calls (history s') = 10%nat
    /\ (let n := train_step_calls (history s') in
        fed_batches (history s')
        = map (on_device (Demo.env 10 0))
            (firstn n (List.concat (repeat Demo.train_set n)))
        /\ laps (history s') = ((n - 1) / List.length Demo.train_set)%nat
        /\ train_iterator s'
           = skipn (n - laps (history s') * List.length Demo.train_set) Demo.train_set).
Proof.
  eexists. split; [vm_compute; reflexivity |].
  split; [vm_compute; reflexivity |].
  apply (stream_cycles (Demo.env 10 0) (new_vocoder Demo.gan_net) Demo.checkpoints
           Demo.train_set Demo.valid_set [] 11 Returned).
  - discriminate.
  - vm_compute. reflexivity.
Defined.

(** ** Validation over any set of loss keys *)

Lemma key_losses_of_column (key : string) (losses : list (dict float)) :
  (forall d, In d losses -> dict_get key d <> None) ->
  key_losses_of key losses = Ok (column key losses).
Proof.
  induction losses as [| d rest IH]; intros Hall; [reflexivity |].
  cbn [key_losses_of column flat_map].
  destruct (dict_get key d) as [v |] eqn:E.
  - fold (column key rest). rewrite IH by (intros d' Hd'; apply Hall; right; exact Hd').
    reflexivity.
  - exfalso. apply (Hall d); [left; reflexivity | exact E].
Qed.

Lemma key_losses_of_missing (key : string) (losses : list (dict float)) :
  (exists d, In d losses /\ dict_get key d = None) ->
  key_losses_of key losses = Raise KeyError.
Proof.
  induction losses as [| d rest IH]; intros [d0 [Hin Hnone]]; [destruct Hin |].
  cbn [key_losses_of].
  destruct (dict_get key d) as [v |] eqn:E; [| reflexivity].
  rewrite IH; [reflexivity |].
  destruct Hin as [-> | Hin]; [congruence |]. exists d0. split; assumption.
Qed.

(** The loop over the keys, as far as every batch reports them. *)
Lemma validation_keys_reported (env : Env) (step : Z) (losses : list (dict float))
    (keys : list string) (k : unit -> M unit) (s : State) :
  (forall key d, In key keys -> In d losses -> dict_get key d <> None) ->
  bind (for_each keys
          (fun key =>
             key_losses <- lift (key_losses_of key losses) ;;
             let mean_loss := torch_mean env key_losses in
             emit (Print (ValidationLine key mean_loss)) ;;
             emit (AddScalar ("valid/" ++ key)%string mean_loss step))) k s
  = k tt (push (rev (flat_map (validation_report env step losses) keys)) s).
Proof.
  revert s. induction keys as [| key rest IH]; intros s Hall.
  - cbn [for_each flat_map rev]. rewrite bind_ret, push_nil. reflexivity.
  - cbn [for_each]. rewrite !bind_assoc.
    rewrite (key_losses_of_column key losses)
      by (intros d Hd; apply (Hall key d); [left; reflexivity | exact Hd]).
    cbn [lift]. rewrite bind_ret. cbv zeta. rewrite !bind_assoc, !bind_emit.
    rewrite IH by (intros key' d Hk Hd; apply Hall; [right; exact Hk | exact Hd]).
    rewrite !push_push. cbn [flat_map validation_report rev app].
    rewrite <- !app_assoc. reflexivity.
Qed.

Lemma bind_ret_r {A : Type} (c : M A) (s : State) : bind c ret s = c s.
Proof. unfold bind. destruct (c s); reflexivity. Qed.

Lemma validation_success (env : Env) (dataloader : list Batch)
    (s : State) (first : dict float) (rest : list (dict float)) :
  collected_losses env (model s) dataloader = first :: rest ->
  (forall key d, In key (dict_keys first) -> In d rest -> dict_get key d <> None) ->
  compute_validation_metrics env dataloader s
  = Next tt
      (push (rev (Print ComputingValidationLoss
                    :: flat_map (validation_report env (global_step (model s))
                                   (first :: rest))
                         (sorted_by (fun k => k) (dict_keys first)))) s).
Proof.
  intros Hlosses Hall. unfold compute_validation_metrics. rewrite bind_emit.
  rewrite (bind_next get_model _ (push [Print ComputingValidationLoss] s)
             (push [Print ComputingValidationLoss] s) (model s) eq_refl).
  cbv zeta. unfold collected_losses in Hlosses. rewrite Hlosses.
  cbn [rev]. rewrite <- push_push.
  rewrite <- (bind_ret_r (for_each _ _)).
  apply (validation_keys_reported env (global_step (model s)) (first :: rest)).
  intros key d Hkey [<- | Hd].
  - apply dict_get_in_keys. apply (proj1 (sort_with_in _ key _) Hkey).
  - apply Hall; [apply (proj1 (sort_with_in _ key _) Hkey) | exact Hd].
Qed.

(** Validation reports the keys of the first batch, whatever they are:
    when every later batch reports at least those keys, it writes for each of
    them, in ascending character order, the line and the scalar [valid/<key>]
    holding [torch.mean] of the values of all batches under that key; keys
    that only later batches report are not reported at all. *)
Theorem validation_reports_first_batch_keys (env : Env) (dataloader : list Batch)
    (s : State) (first : dict float) (rest : list (dict float)) :
  collected_losses env (model s) dataloader = first :: rest ->
  (forall key d, In key (dict_keys first) -> In d rest -> dict_get key d <> None) ->
  compute_validation_metrics env dataloader s
  = Next tt
      (push (rev (Print ComputingValidationLoss
                    :: flat_map (validation_report env (global_step (model s))
                                   (first :: rest))
                         (sorted_by (fun k => k) (dict_keys first)))) s).
Proof. apply validation_success. Qed.

Lemma validation_reports_first_batch_keys_witness :
  collected_losses Demo.uneven_env (model (Demo.entry 10 0 5000)) [Demo.batch 8; Demo.batch 7]
  = [("a", 3%float); ("c", 6%float)]
      :: [[("b", 2%float); ("c", 5%float); ("a", 1%float)]]
  /\ compute_validation_metrics Demo.uneven_env [Demo.batch 8; Demo.batch 7]
       (Demo.entry 10 0 5000)
     = Next tt
         (push [AddScalar "valid/c" 5.5 5000; Print (ValidationLine "c" 5.5);
                AddScalar "valid/a" 2 5000; Print (ValidationLine "a" 2);
                Print ComputingValidationLoss] (Demo.entry 10 0 5000)).
Proof.
  split; [vm_compute; reflexivity |].
  rewrite (validation_reports_first_batch_keys Demo.uneven_env [Demo.batch 8; Demo.batch 7]
             (Demo.entry 10 0 5000) [("a", 3%float); ("c", 6%float)]
             [[("b", 2%float); ("c", 5%float); ("a", 1%float)]]).
  - vm_compute. reflexivity.
  - vm_compute. reflexivity.
  - intros key d Hkey [<- | []].
    destruct Hkey as [<- | [<- | []]]; vm_compute; discriminate.
Defined.

Lemma bind_ext {A B : Type} (c : M A) (k1 k2 : A -> M B) (s : State) :
  (forall a s1, k1 a s1 = k2 a s1) -> bind c k1 s = bind c k2 s.
Proof. intros H. unfold bind. destruct (c s); [apply H | reflexivity]. Qed.

Lemma for_each_app {A : Type} (l1 l2 : list A) (body : A -> M unit) (s : State) :
  for_each (l1 ++ l2) body s
  = bind (for_each l1 body) (fun _ => for_each l2 body) s.
Proof.
  revert s. induction l1 as [| x l1 IH]; intros s; [reflexivity |].
  cbn [app for_each]. rewrite bind_assoc. apply bind_ext. intros _ s1. apply IH.
Qed.

(** When a later batch does not report a key of the first batch,
    validation raises a KeyError at that key: the keys before it in ascending
    order have their lines and scalars written already, the key itself and
    those after it have none. *)
Theorem validation_missing_key (env : Env) (dataloader : list Batch) (s : State)
    (first : dict float) (rest : list (dict float))
    (reported : list string) (key : string) (later : list string) :
  collected_losses env (model s) dataloader = first :: rest ->
  sorted_by (fun k => k) (dict_keys first) = reported ++ key :: later ->
  (forall key' d, In key' reported -> In d rest -> dict_get key' d <> None) ->
  (exists d, In d rest /\ dict_get key d = None) ->
  compute_validation_metrics env dataloader s
  = Halt (Uncaught KeyError)
      (push (rev (Print ComputingValidationLoss
                    :: flat_map (validation_report env (global_step (model s))
                                   (first :: rest)) reported)) s).
Proof.
  intros Hlosses Hsorted Hall [d0 [Hd0 Hnone]].
  unfold compute_validation_metrics. rewrite bind_emit.
  rewrite (bind_next get_model _ (push [Print ComputingValidationLoss] s)
             (push [Print ComputingValidationLoss] s) (model s) eq_refl).
  cbv zeta. unfold collected_losses in Hlosses. rewrite Hlosses, Hsorted.
  rewrite for_each_app.
  rewrite (validation_keys_reported env (global_step (model s)) (first :: rest) reported).
  - cbn [for_each]. rewrite !bind_assoc.
    rewrite (key_losses_of_missing key (first :: rest))
      by (exists d0; split; [right; exact Hd0 | exact Hnone]).
    cbn [lift]. unfold bind at 1, raise. rewrite push_push. cbn [rev]. reflexivity.
  - intros key' d Hkey [<- | Hd].
    + apply dict_get_in_keys.
      apply (proj1 (sort_with_in (fun x y => String.leb x y) key' (dict_keys first))).
      unfold sorted_by in Hsorted. rewrite Hsorted. apply in_or_app. left. exact Hkey.
    + apply Hall; assumption.
Qed.

Lemma validation_missing_key_witness :
  compute_validation_metrics Demo.uneven_env [Demo.batch 7; Demo.batch 8]
    (Demo.entry 10 0 5000)
  = Halt (Uncaught KeyError)
      (push [AddScalar "valid/a" 2 5000; Print (ValidationLine "a" 2);
             Print ComputingValidationLoss] (Demo.entry 10 0 5000)).
Proof.
  rewrite (validation_missing_key Demo.uneven_env [Demo.batch 7; Demo.batch 8]
             (Demo.entry 10 0 5000)
             [("b", 2%float); ("c", 5%float); ("a", 1%float)]
             [[("a", 3%float); ("c", 6%float)]] ["a"] "b" ["c"]).
  - vm_compute. reflexivity.
  - vm_compute. reflexivity.
  - vm_compute. reflexivity.
  - intros key' d [<- | []] [<- | []]. vm_compute. discriminate.
  - exists [("a", 3%float); ("c", 6%float)]. split; [left; reflexivity | reflexivity].
Defined.

(** ** Fewer validation batches than samples to generate *)

Lemma validation_short (env : Env) (valid_set : list Batch) (s : State) :
  (List.length valid_set < GENERATE_NUM_SAMPLES)%nat ->
  exists vnew,
    Forall (fun e => is_audio e = false) vnew
    /\ saved_paths vnew = []
    /\ compute_validation_metrics env valid_set s = Next tt (push vnew s).
Proof.
  unfold GENERATE_NUM_SAMPLES. intros Hlen.
  destruct valid_set as [| b [| b2 rest]]; [| | simpl in Hlen; lia].
  - exists [Print NoValidationData; Print ComputingValidationLoss].
    split; [repeat constructor |]. split; reflexivity.
  - rewrite (validation_success env [b] s
               (validation_losses (vocoder env) (model s) (fst (on_device env b))
                  (snd (on_device env b))) []);
      [| reflexivity | intros key d _ []].
    eexists. split; [| split; [| reflexivity]].
    + apply Forall_rev. constructor; [reflexivity |].
      apply Forall_flat_map. apply Forall_forall. intros key _. repeat constructor.
    + rewrite saved_paths_rev.
      change (saved_paths (Print ComputingValidationLoss :: ?l)) with (saved_paths l).
      match goal with
      | |- rev (saved_paths (flat_map ?f ?keys)) = [] =>
          assert (H : saved_paths (flat_map f keys) = [])
            by (induction keys as [| key keys' IH]; [reflexivity | exact IH]);
          rewrite H; reflexivity
      end.
Qed.

Lemma periodic_short (env : Env) (dir : string) (valid_set : list Batch)
    (m : Vocoder) (s1 : State) :
  model s1 = m ->
  (List.length valid_set < GENERATE_NUM_SAMPLES)%nat ->
  exists (new : list event) (s' : State),
    trace s' = new ++ trace s1
    /\ Forall (fun e => is_audio e = false) new
    /\ global_step (model s') = global_step m
    /\ if global_step m mod GENERATE_FREQUENCY =? 0
       then periodic env dir valid_set m s1 = Halt (Uncaught StopIteration) s'
            /\ exists older, saved_paths new = checkpoint_path dir (global_step m) :: older
       else periodic env dir valid_set m s1 = Next tt s'.
Proof.
  intros Hm Hlen. unfold periodic.
  destruct (global_step m mod EVAL_FREQUENCY =? 0) eqn:Heval.
  - cbn [when].
    set (s2 := mkState (eval m) (fs s1) (train_iterator s1) (started s1)
                 (num_iterations s1) (trace s1)).
    destruct (validation_short env valid_set s2 Hlen) as [vnew [Hvnew [Hvsaved Hval]]].
    set (s3 := mkState (train (eval m)) (fs s1) (train_iterator s1) (started s1)
                 (num_iterations s1) (vnew ++ trace s1)).
    destruct (do_save_model_eq dir s3) as [fs' [_ Hsave]].
    cbn [s3 model fs train_iterator started num_iterations trace] in Hsave.
    change (global_step (train (eval m))) with (global_step m) in Hsave.
    set (s4 := mkState (train (eval m)) fs' (train_iterator s1) (started s1)
                 (num_iterations s1)
                 (TorchSave (checkpoint_path dir (global_step m)) :: vnew ++ trace s1))
      in Hsave.
    assert (Hphase :
              (put_model (eval m) ;;
               compute_validation_metrics env valid_set ;;
               m0 <- get_model ;;
               put_model (train m0) ;;
               do_save_model dir) s1 = Next tt s4).
    { rewrite (bind_next (put_model (eval m)) _ s1 s2 tt eq_refl).
      rewrite (bind_next _ _ s2 (push vnew s2) tt Hval).
      rewrite (bind_next get_model _ (push vnew s2) (push vnew s2) (eval m) eq_refl).
      rewrite (bind_next (put_model (train (eval m))) _ (push vnew s2) s3 tt eq_refl).
      exact Hsave. }
    exists (TorchSave (checkpoint_path dir (global_step m)) :: vnew), s4.
    split; [reflexivity |].
    split; [constructor; [reflexivity | exact Hvnew] |].
    split; [reflexivity |].
    rewrite (bind_next _ _ s1 s4 tt Hphase).
    destruct (global_step m mod GENERATE_FREQUENCY =? 0); cbn [when].
    + split; [apply generate_tensorboard_samples_short; exact Hlen |].
      exists (saved_paths vnew). reflexivity.
    + reflexivity.
  - cbn [when]. rewrite bind_ret.
    apply Z.eqb_neq in Heval. apply generation_needs_validation in Heval.
    apply Z.eqb_neq in Heval. rewrite Heval. cbn [when].
    exists [], s1. repeat split; try reflexivity; try constructor. exact (f_equal global_step Hm).
Qed.

Lemma set_global_step_in_range (value : Z) (m : Vocoder) :
  INT32_MIN <= value <= INT32_MAX ->
  set_global_step value m
  = Ok (mkVocoder value (buffer_device m) (training m) (net m)).
Proof.
  intros [H1 H2]. unfold set_global_step.
  apply Z.leb_le in H1, H2. rewrite H1, H2. reflexivity.
Qed.

Lemma is_audio_app (a b : list event) :
  filter is_audio a = [] -> filter is_audio b = [] -> filter is_audio (a ++ b) = [].
Proof. intros Ha Hb. rewrite filter_app, Ha, Hb. reflexivity. Qed.

Lemma filter_none {A : Type} (f : A -> bool) (l : list A) :
  Forall (fun x => f x = false) l -> filter f l = [].
Proof.
  induction 1 as [| x rest Hx _ IH]; [reflexivity |]. simpl. rewrite Hx. exact IH.
Qed.

Lemma report_events_no_audio (loss : float) (tb_logs : dict float) (step : Z) :
  filter is_audio (report_events loss tb_logs step) = [].
Proof.
  apply filter_none. unfold report_events.
  repeat (apply Forall_app; split).
  - destruct (step mod LOG_FREQUENCY =? 0); [| constructor].
    apply Forall_app. split; [| repeat constructor].
    apply Forall_rev. apply Forall_map. apply Forall_forall. intros kv _. reflexivity.
  - repeat constructor.
  - destruct (step mod 50 =? 0); repeat constructor.
  - repeat constructor.
Qed.

Lemma head_events_no_audio (s : State) (b : Batch) (lapped : bool) :
  filter is_audio (head_events s b lapped) = [].
Proof. unfold head_events. destruct lapped; reflexivity. Qed.

(** One turn of the body with fewer validation batches than samples to
    generate: below the generation frequency it completes, on it the sample
    generator raises. *)
Lemma iteration_short_validation (env : Env) (dir : string)
    (train_set valid_set : list Batch) (s : State) :
  train_set <> [] ->
  (List.length valid_set < GENERATE_NUM_SAMPLES)%nat ->
  0 <= global_step (model s) < GENERATE_FREQUENCY ->
  (forall v x y, 0 <= global_step v ->
                 is_nan (fst (fst (train_step (vocoder env) v x y))) = false) ->
  filter is_audio (trace s) = [] ->
  exists s',
    global_step (model s') = global_step (model s) + 1
    /\ filter is_audio (trace s') = []
    /\ if global_step (model s) + 1 =? GENERATE_FREQUENCY
       then iteration env dir train_set valid_set s = Halt (Uncaught StopIteration) s'
            /\ exists older,
                saved_paths (trace s') = checkpoint_path dir GENERATE_FREQUENCY :: older
       else iteration env dir train_set valid_set s = Next tt s'.
Proof.
  intros Hts Hlen Hg Hnan Haudio. rewrite iteration_eq.
  destruct (draw_batch train_set (train_iterator s)) as [[[b rest] lapped] |] eqn:Hdraw.
  2:{ exfalso. unfold draw_batch in Hdraw.
      destruct (train_iterator s); [| discriminate].
      destruct train_set; [contradiction | discriminate]. }
  cbv zeta.
  pose proof (Hnan (model s) (fst (on_device env b)) (snd (on_device env b))
                (proj1 Hg)) as Hloss.
  destruct (train_step (vocoder env) (model s) (fst (on_device env b))
              (snd (on_device env b))) as [[loss tb_logs] net'].
  cbn [fst] in Hloss.
  rewrite set_global_step_in_range
    by (unfold INT32_MIN, INT32_MAX, GENERATE_FREQUENCY in *; lia).
  set (m1 := mkVocoder (global_step (model s) + 1) (buffer_device (set_net net' (model s)))
               (training (set_net net' (model s))) (net (set_net net' (model s)))).
  unfold after_step. rewrite Hloss.
  set (s1 := push (report_events loss tb_logs (global_step m1))
               (mkState m1 (fs s) rest true (num_iterations s + 1)
                  (head_events s (on_device env b) lapped ++ trace s))).
  destruct (periodic_short env dir valid_set m1 s1 eq_refl Hlen)
    as [new [s' [Htr [Hnew [Hgs Hres]]]]].
  exists s'. split; [exact Hgs |]. split.
  { rewrite Htr. apply is_audio_app; [apply filter_none; exact Hnew |].
    unfold s1, push. cbn [trace].
    apply is_audio_app; [apply report_events_no_audio |].
    apply is_audio_app; [apply head_events_no_audio | exact Haudio]. }
  change (global_step m1) with (global_step (model s) + 1) in Hres.
  destruct (global_step (model s) + 1 =? GENERATE_FREQUENCY) eqn:E.
  - apply Z.eqb_eq in E. rewrite E in Hres. cbn [Z.modulo Z.eqb] in Hres.
    change (GENERATE_FREQUENCY mod GENERATE_FREQUENCY =? 0) with true in Hres.
    destruct Hres as [Hres [older Hsaved]]. split; [exact Hres |].
    rewrite Htr, saved_paths_app, Hsaved. eexists. reflexivity.
  - apply Z.eqb_neq in E.
    replace ((global_step (model s) + 1) mod GENERATE_FREQUENCY =? 0) with false in Hres;
      [exact Hres |].
    symmetry. apply Z.eqb_neq. rewrite Z.mod_small by lia. lia.
Qed.

(** With fewer validation batches than the sample generator draws, a run
    cannot get past the first multiple of [GENERATE_FREQUENCY]: for a model
    that is not done before it and whose losses are not NaN, any run that
    ends has ended there in an uncaught StopIteration, after the checkpoint
    of that step was saved and without a single audio record. *)
Theorem short_validation_set_ends_training (env : Env) (m : Vocoder) (dir : string)
    (train_set valid_set : list Batch) (fs0 : FileSystem) (fuel : nat)
    (t : termination) (s' : State) :
  train_set <> [] ->
  (List.length valid_set < GENERATE_NUM_SAMPLES)%nat ->
  0 <= global_step m < GENERATE_FREQUENCY ->
  (forall v, global_step v < GENERATE_FREQUENCY -> is_done (vocoder env) v = false) ->
  (forall v x y, 0 <= global_step v ->
                 is_nan (fst (fst (train_step (vocoder env) v x y))) = false) ->
  train_loop env m dir train_set valid_set fs0 fuel = Some (t, s') ->
  t = Exited (Uncaught StopIteration)
  /\ global_step (model s') = GENERATE_FREQUENCY
  /\ (exists older,
         saved_paths (trace s') = checkpoint_path dir GENERATE_FREQUENCY :: older)
  /\ filter is_audio (trace s') = [].
Proof.
  intros Hts Hlen Hg0 Hdone Hnan. unfold train_loop.
  apply (run_loop_inv env dir train_set valid_set
           (fun s => 0 <= global_step (model s) < GENERATE_FREQUENCY
                     /\ filter is_audio (trace s) = [])
           (fun t s =>
              t = Exited (Uncaught StopIteration)
              /\ global_step (model s) = GENERATE_FREQUENCY
              /\ (exists older,
                     saved_paths (trace s)
                     = checkpoint_path dir GENERATE_FREQUENCY :: older)
              /\ filter is_audio (trace s) = [])).
  - intros s s1 [Hg Ha] _ Hit.
    destruct (iteration_short_validation env dir train_set valid_set s Hts Hlen Hg Hnan Ha)
      as [s2 [Hgs [Ha2 Hres]]].
    destruct (global_step (model s) + 1 =? GENERATE_FREQUENCY) eqn:E.
    + destruct Hres as [Hres _]. congruence.
    + rewrite Hit in Hres. injection Hres as <-. apply Z.eqb_neq in E.
      split; [lia | exact Ha2].
  - intros s x s1 [Hg Ha] _ Hit.
    destruct (iteration_short_validation env dir train_set valid_set s Hts Hlen Hg Hnan Ha)
      as [s2 [Hgs [Ha2 Hres]]].
    destruct (global_step (model s) + 1 =? GENERATE_FREQUENCY) eqn:E.
    + destruct Hres as [Hres Hsaved]. rewrite Hit in Hres.
      injection Hres as -> <-. apply Z.eqb_eq in E.
      split; [reflexivity |]. split; [lia |]. split; assumption.
    + congruence.
  - intros s s1 [Hg _] Hd _. rewrite (Hdone (model s)) in Hd by lia. discriminate Hd.
  - rewrite initial_global_step. split; [exact Hg0 |].
    destruct (initial_trace env m train_set fs0) as [line [-> _]]. reflexivity.
Qed.

Lemma short_validation_set_ends_training_witness :
  exists s',
    train_loop (Demo.env 100001 0) (Demo.at_step 99998 Demo.gan_net) Demo.checkpoints
      Demo.train_set [Demo.batch 7] [] 3
    = Some (Exited (Uncaught StopIteration), s')
    /\ Exited (Uncaught StopIteration) = Exited (Uncaught StopIteration)
    /\ global_step (model s') = GENERATE_FREQUENCY
    /\ (exists older,
           saved_paths (trace s')
           = checkpoint_path Demo.checkpoints GENERATE_FREQUENCY :: older)
    /\ filter is_audio (trace s') = [].
Proof.
  eexists. split; [vm_compute; reflexivity |].
  apply (short_validation_set_ends_training (Demo.env 100001 0)
           (Demo.at_step 99998 Demo.gan_net) Demo.checkpoints Demo.train_set
           [Demo.batch 7] [] 3).
  - discriminate.
  - vm_compute. lia.
  - vm_compute. split; [discriminate | reflexivity].
  - intros v Hv. unfold Demo.env, Demo.counting. cbn [vocoder is_done].
    apply Z.leb_gt. unfold GENERATE_FREQUENCY in Hv. lia.
  - intros v x y Hv. unfold Demo.env, Demo.counting. cbn [vocoder train_step fst].
    replace (global_step v + 1 =? 0) with false by (symmetry; apply Z.eqb_neq; lia).
    reflexivity.
  - vm_compute. reflexivity.
Defined.

(** ** The end of the int32 step counter *)

(** At global step 2^31 - 1 the loop can go no further: the next iteration
    calls [train_step], which updates the model, and then fails to raise the
    counter, which the int32 buffer cannot hold; the run dies in a
    RuntimeError with the alarm still pending, the step neither counted nor
    announced, and nothing saved. *)
Theorem step_counter_overflow (env : Env) (dir : string)
    (train_set valid_set : list Batch) (s : State)
    (b : Batch) (rest : list Batch) (lapped : bool) :
  draw_batch train_set (train_iterator s) = Some (b, rest, lapped) ->
  global_step (model s) = INT32_MAX ->
  exists s',
    iteration env dir train_set valid_set s = Halt (Uncaught RuntimeError) s'
    /\ fed_batches (trace s') = on_device env b :: fed_batches (trace s)
    /\ net (model s')
       = snd (train_step (vocoder env) (model s) (fst (on_device env b))
                (snd (on_device env b)))
    /\ global_step (model s') = INT32_MAX
    /\ iteration_steps (trace s') = iteration_steps (trace s)
    /\ saved_paths (trace s') = saved_paths (trace s)
    /\ fs s' = fs s
    /\ (well_guarded (trace s) = true -> watchdog_armed (trace s') = true).
Proof.
  intros Hdraw Hmax. rewrite iteration_eq, Hdraw. cbv zeta.
  destruct (train_step (vocoder env) (model s) (fst (on_device env b))
              (snd (on_device env b))) as [[loss tb_logs] net'].
  unfold set_global_step. rewrite Hmax.
  change ((INT32_MIN <=? INT32_MAX + 1) && (INT32_MAX + 1 <=? INT32_MAX)) with false.
  cbn iota. eexists. split; [reflexivity |].
  cbn [trace model fs snd].
  destruct (head_events_read s (on_device env b) lapped) as [H1 [H2 [H3 _]]].
  rewrite fed_batches_app, iteration_steps_app, saved_paths_app, H1, H2, H3.
  repeat split; try reflexivity; try exact Hmax.
  intros Hg. apply (head_events_guarded s (on_device env b) lapped (trace s) Hg).
Qed.

Lemma step_counter_overflow_witness :
  exists s',
    iteration (Demo.env 0 0) Demo.checkpoints Demo.train_set Demo.valid_set
      (Demo.entry 0 0 INT32_MAX) = Halt (Uncaught RuntimeError) s'
    /\ fed_batches (trace s')
       = on_device (Demo.env 0 0) (Demo.batch 0)
           :: fed_batches (trace (Demo.entry 0 0 INT32_MAX))
    /\ net (model s')
       = snd (train_step (vocoder (Demo.env 0 0)) (model (Demo.entry 0 0 INT32_MAX))
                (fst (on_device (Demo.env 0 0) (Demo.batch 0)))
                (snd (on_device (Demo.env 0 0) (Demo.batch 0))))
    /\ global_step (model s') = INT32_MAX
    /\ iteration_steps (trace s') = iteration_steps (trace (Demo.entry 0 0 INT32_MAX))
    /\ saved_paths (trace s') = saved_paths (trace (Demo.entry 0 0 INT32_MAX))
    /\ fs s' = fs (Demo.entry 0 0 INT32_MAX)
    /\ (well_guarded (trace (Demo.entry 0 0 INT32_MAX)) = true ->
        watchdog_armed (trace s') = true).
Proof.
  apply (step_counter_overflow (Demo.env 0 0) Demo.checkpoints Demo.train_set
           Demo.valid_set (Demo.entry 0 0 INT32_MAX) (Demo.batch 0)
           [Demo.batch 1; Demo.batch 2] false).
  - vm_compute. reflexivity.
  - vm_compute. reflexivity.
Defined.

(** ** What a run that returns leaves *)

(** The postcondition of the loop: a run of [train_loop] that returns has a
    model that is done, has printed that training is completed and then, as
    its last action, saved that model: the file of the final step holds the
    record of the final model, moved to the host. *)
Theorem train_loop_returns_done_and_saved (env : Env) (m : Vocoder) (dir : string)
    (train_set valid_set : list Batch) (fs0 : FileSystem) (fuel : nat) (s' : State) :
  train_loop env m dir train_set valid_set fs0 fuel = Some (Returned, s') ->
  is_done (vocoder env) (model s') = true
  /\ (exists older,
         trace s'
         = TorchSave (checkpoint_path dir (global_step (model s')))
             :: Print CompletedTraining :: older)
  /\ torch_load (checkpoint_path dir (global_step (model s'))) (fs s')
     = Ok (move_state_dict_to_device (checkpoint_record (model s')) true).
Proof.
  intros Hrun. unfold train_loop in Hrun.
  apply (run_loop_inv env dir train_set valid_set (fun _ => True)
           (fun t s =>
              t = Returned ->
              is_done (vocoder env) (model s) = true
              /\ (exists older,
                     trace s
                     = TorchSave (checkpoint_path dir (global_step (model s)))
                         :: Print CompletedTraining :: older)
              /\ torch_load (checkpoint_path dir (global_step (model s))) (fs s)
                 = Ok (move_state_dict_to_device (checkpoint_record (model s)) true))
        ) with (fuel := fuel) (s := initial_state env m train_set fs0) (t := Returned);
    try reflexivity; try assumption; try (intros; exact I).
  - intros s x s1 _ _ _ Habs. discriminate Habs.
  - intros s s1 _ Hdone Hfin _.
    destruct (finish_eq dir s) as [fs' [Hsave Heq]]. rewrite Heq in Hfin.
    injection Hfin as <-. cbn [model trace fs].
    split; [exact Hdone |]. split; [eexists; reflexivity |].
    apply (torch_load_after_save (model s) dir (fs s) fs' Hsave).
Qed.

Lemma train_loop_returns_done_and_saved_witness :
  exists s',
    train_loop (Demo.env 5003 0) (Demo.at_step 4998 Demo.gan_net) Demo.checkpoints
      Demo.train_set Demo.valid_set [] 6 = Some (Returned, s')
    /\ is_done (vocoder (Demo.env 5003 0)) (model s') = true
    /\ (exists older,
           trace s'
           = TorchSave (checkpoint_path Demo.checkpoints (global_step (model s')))
               :: Print CompletedTraining :: older)
    /\ torch_load (checkpoint_path Demo.checkpoints (global_step (model s'))) (fs s')
       = Ok (move_state_dict_to_device (checkpoint_record (model s')) true).
Proof.
  eexists. split; [vm_compute; reflexivity |].
  apply (train_loop_returns_done_and_saved (Demo.env 5003 0)
           (Demo.at_step 4998 Demo.gan_net) Demo.checkpoints Demo.train_set
           Demo.valid_set [] 6).
  vm_compute. reflexivity.
Defined.

(** ** A scheduler the record has no state for *)

(** The restore does not look at what the record holds for a scheduler.
    Where the entity has a scheduler and the record holds [None], because the
    entity it was saved from had no scheduler at that position, and the pairs
    before that position and the optimizer at it are restored, the
    scheduler's [load_state_dict] is called with [None]; when it raises, as
    the schedulers of torch do, loading fails with its exception, whatever
    the counts of optimizers are. *)
Theorem load_needs_scheduler_states (cuda : bool) (saved live : Vocoder)
    (checkpoint_dir : string) (fs fs' : FileSystem) (i : nat)
    (opt sched given_opt : dict item) (e : exn) :
  module_state saved ->
  found_nan (parameters (net saved)) = false ->
  same_parameters (parameters (net live)) (parameters (net saved)) ->
  (forall j own_j given_j,
      (j < i)%nat ->
      nth_error (get_optimizers live) j = Some own_j ->
      nth_error (get_optimizers saved) j = Some given_j ->
      exists own',
        restore_pair (net live) j own_j (saved_optimizer cuda given_j)
          (saved_scheduler cuda given_j) = Ok own') ->
  nth_error (get_optimizers live) i = Some (opt, Some sched) ->
  nth_error (get_optimizers saved) i = Some (given_opt, None) ->
  (exists opt',
      optimizer_load (net live) i opt (IDict (relocate_dict cuda given_opt)) = Ok opt') ->
  scheduler_load (net live) i sched (IOther PyNone) = Raise e ->
  save_model saved checkpoint_dir fs = Ok fs' ->
  load_model_from_checkpoint cuda live
    (checkpoint_path checkpoint_dir (global_step saved)) fs'
  = Raise e.
Proof.
  intros Hstate Hnan Hsame Hbefore Hlive Hsaved [opt' Hopt] Hsched Hsave.
  destruct (load_after_save cuda saved live checkpoint_dir fs fs' Hstate Hnan Hsame Hsave)
    as [params [_ Hload]].
  rewrite Hload.
  rewrite (restore_optimizers_refused (net live) cuda e i (get_optimizers live)
             (get_optimizers saved) 0 (opt, Some sched) (given_opt, None));
    [reflexivity | exact Hbefore | exact Hlive | exact Hsaved |].
  unfold restore_pair, saved_optimizer, saved_scheduler. cbn [fst snd Nat.add].
  rewrite Hopt. cbn [rbind]. rewrite Hsched. reflexivity.
Qed.

Lemma load_needs_scheduler_states_witness :
  exists fs',
    save_model (Demo.at_step 5000 Demo.two_optimizers) Demo.checkpoints [] = Ok fs'
    /\ load_model_from_checkpoint false (new_vocoder Demo.late_scheduler)
         (checkpoint_path Demo.checkpoints
            (global_step (Demo.at_step 5000 Demo.two_optimizers))) fs'
       = Raise AttributeError.
Proof.
  eexists. split; [vm_compute; reflexivity |].
  apply (load_needs_scheduler_states false (Demo.at_step 5000 Demo.two_optimizers)
           (new_vocoder Demo.late_scheduler) Demo.checkpoints [] _ 1
           Demo.adam Demo.step_lr Demo.adam AttributeError).
  - split; [vm_compute; split; discriminate |].
    split; [reflexivity |]. constructor; [intros [] | constructor].
  - reflexivity.
  - constructor; [split; reflexivity | constructor].
  - intros [| j] own_j given_j Hj Hown Hgiven; [| lia].
    injection Hown as <-. injection Hgiven as <-.
    eexists. vm_compute. reflexivity.
  - reflexivity.
  - reflexivity.
  - eexists. vm_compute. reflexivity.
  - reflexivity.
  - vm_compute. reflexivity.
Defined.

(** ** The mode and the device of sample generation *)

Lemma validation_on_generation_frequency (g : Z) :
  g mod GENERATE_FREQUENCY = 0 -> g mod EVAL_FREQUENCY = 0.
Proof.
  intros H. destruct (Z.eq_dec (g mod EVAL_FREQUENCY) 0) as [E | E]; [exact E |].
  exfalso. apply (generation_needs_validation g E H).
Qed.

Lemma generate_two_samples (env : Env) (s : State) (b1 b2 : Batch) (rest : list Batch) :
  global_step (model s) <> 0 ->
  generate_tensorboard_samples env (b1 :: b2 :: rest) GENERATE_NUM_SAMPLES s
  = Next tt
      (push [AddAudio (synthesized_tag 1) (generate (vocoder env) (model s) (fst b2))
               (global_step (model s));
             AddAudio (synthesized_tag 0) (generate (vocoder env) (model s) (fst b1))
               (global_step (model s))] s).
Proof.
  intros Hg. unfold generate_tensorboard_samples, GENERATE_NUM_SAMPLES.
  cbn [draw rbind lift]. rewrite bind_ret.
  rewrite (bind_next get_model _ s s (model s) eq_refl).
  cbn [map combine write_samples].
  apply Z.eqb_neq in Hg. rewrite Hg. cbn [when].
  rewrite ?bind_ret, ?bind_emit. unfold ret. rewrite ?push_push. reflexivity.
Qed.

(** When the loop generates samples, validation has just put the model back
    in training mode and its checkpoint has just been saved: the sample
    generator is handed the model in training mode, and the spectrograms as
    the validation loader yields them, which, unlike the batches of training
    and of validation, are not moved to the accelerator. *)
Theorem samples_generated_in_training_mode (env : Env) (dir : string)
    (train_set : list Batch) (b1 b2 : Batch) (valid_rest : list Batch)
    (s s' : State) :
  0 <= global_step (model s) ->
  (global_step (model s) + 1) mod GENERATE_FREQUENCY = 0 ->
  iteration env dir train_set (b1 :: b2 :: valid_rest) s = Next tt s' ->
  training (model s') = true
  /\ global_step (model s') = global_step (model s) + 1
  /\ exists older,
      trace s'
      = AddAudio (synthesized_tag 1) (generate (vocoder env) (model s') (fst b2))
          (global_step (model s'))
          :: AddAudio (synthesized_tag 0) (generate (vocoder env) (model s') (fst b1))
               (global_step (model s'))
          :: TorchSave (checkpoint_path dir (global_step (model s'))) :: older.
Proof.
  intros Hpos Hgen. rewrite iteration_eq.
  destruct (draw_batch train_set (train_iterator s)) as [[[b rest] lapped] |];
    [| discriminate].
  cbv zeta.
  destruct (train_step (vocoder env) (model s) (fst (on_device env b))
              (snd (on_device env b))) as [[loss tb_logs] net'].
  destruct (set_global_step (global_step (model s) + 1) (set_net net' (model s)))
    as [m1 | e] eqn:Hset; [| discriminate].
  apply set_global_step_ok in Hset. destruct Hset as [Hg1 _].
  unfold after_step. destruct (is_nan loss); [discriminate |].
  set (s1 := push (report_events loss tb_logs (global_step m1))
               (mkState m1 (fs s) rest true (num_iterations s + 1)
                  (head_events s (on_device env b) lapped ++ trace s))).
  unfold periodic. rewrite Hg1.
  rewrite (proj2 (Z.eqb_eq _ _) (validation_on_generation_frequency _ Hgen)).
  rewrite (proj2 (Z.eqb_eq _ _) Hgen). cbn [when].
  set (s2 := mkState (eval m1) (fs s1) (train_iterator s1) (started s1)
               (num_iterations s1) (trace s1)).
  destruct (compute_validation_metrics_quiet env (eval m1)
              (b1 :: b2 :: valid_rest) s2 eq_refl) as [vnew [_ Hval]].
  destruct Hval as [[[] Hval] | [e Hval]].
  - set (s3 := mkState (train (eval m1)) (fs s1) (train_iterator s1) (started s1)
                 (num_iterations s1) (vnew ++ trace s1)).
    destruct (do_save_model_eq dir s3) as [fs' [_ Hsave]].
    cbn [s3 model fs train_iterator started num_iterations trace] in Hsave.
    change (global_step (train (eval m1))) with (global_step m1) in Hsave.
    set (s4 := mkState (train (eval m1)) fs' (train_iterator s1) (started s1)
                 (num_iterations s1)
                 (TorchSave (checkpoint_path dir (global_step m1)) :: vnew ++ trace s1))
      in Hsave.
    assert (Hphase :
              (put_model (eval m1) ;;
               compute_validation_metrics env (b1 :: b2 :: valid_rest) ;;
               m0 <- get_model ;;
               put_model (train m0) ;;
               do_save_model dir) s1 = Next tt s4).
    { rewrite (bind_next (put_model (eval m1)) _ s1 s2 tt eq_refl).
      rewrite (bind_next _ _ s2 (push vnew s2) tt Hval).
      rewrite (bind_next get_model _ (push vnew s2) (push vnew s2) (eval m1) eq_refl).
      rewrite (bind_next (put_model (train (eval m1))) _ (push vnew s2) s3 tt eq_refl).
      exact Hsave. }
    rewrite (bind_next _ _ s1 s4 tt Hphase).
    rewrite (generate_two_samples env s4 b1 b2 valid_rest)
      by (cbn [s4 model]; change (global_step (train (eval m1))) with (global_step m1); lia).
    intros H. injection H as <-.
    cbn [push s4 model trace app].
    change (global_step (train (eval m1))) with (global_step m1).
    split; [reflexivity |]. split; [exact Hg1 |]. eexists. reflexivity.
  - rewrite (bind_halt _ _ s1 (push vnew s2) (Uncaught e)); [discriminate |].
    rewrite (bind_next (put_model (eval m1)) _ s1 s2 tt eq_refl).
    apply bind_halt. exact Hval.
Qed.

Lemma samples_generated_in_training_mode_witness :
  exists s',
    iteration (Demo.env 100001 0) Demo.checkpoints Demo.train_set
      (Demo.batch 7 :: Demo.batch 8 :: []) (Demo.entry 100001 0 99999) = Next tt s'
    /\ training (model s') = true
    /\ global_step (model s') = global_step (model (Demo.entry 100001 0 99999)) + 1
    /\ exists older,
        trace s'
        = AddAudio (synthesized_tag 1)
            (generate (vocoder (Demo.env 100001 0)) (model s') (fst (Demo.batch 8)))
            (global_step (model s'))
            :: AddAudio (synthesized_tag 0)
                 (generate (vocoder (Demo.env 100001 0)) (model s') (fst (Demo.batch 7)))
                 (global_step (model s'))
            :: TorchSave (checkpoint_path Demo.checkpoints (global_step (model s')))
            :: older.
Proof.
  eexists. split; [vm_compute; reflexivity |].
  apply (samples_generated_in_training_mode (Demo.env 100001 0) Demo.checkpoints
           Demo.train_set (Demo.batch 7) (Demo.batch 8) []
           (Demo.entry 100001 0 99999)).
  - vm_compute. discriminate.
  - vm_compute. reflexivity.
  - vm_compute. reflexivity.
Defined.
